(** * The chunked-volume converter of Volcanite

    A shallow embedding of
    [python/volcanite/src/volcanite/converter_chunked.py] and, of
    [converter.py], of the functions on axis orders, of [write_volume] and
    [read_volume] with their choice of writer and reader by file type, and
    of [__get_format_key_count].

    Conventions of the embedding.
    - A Python int is a value of [Z].  The entries of the numpy arrays that
      [__calculate_volume_dim] makes with [dtype=int] are integers of 64 bits:
      making such an array raises when an entry does not fit, and products
      and sums of such arrays wrap around ([int64], [wrap64]).  The double of
      [chunk_size_in] in [is_volume_conversion_valid] is computed on such an
      array as well; [chunk_size_out] is taken to hold integers of 64 bits
      too.  The entries of the tracker ([start_element],
      [end_element], [chunk_index], [elements_to_read]) are extents of, or
      offsets into, buffers held in memory, and are not wrapped.
    - A numpy buffer is a shape together with an indexing function.  A cell
      holds [Some v] once a value was stored in it and [None] while it is
      the memory [np.empty] handed out, whose content numpy leaves
      unspecified.  The files hold integers of at most 64 bits.
      [convert_chunked_volume] is followed with [dtype_out] left at its
      default, [None], for which numpy makes its buffers of [float64]: an
      integer is rounded to 53 significant bits when it is stored in one
      ([f64]), where the chunk files are loaded and where a worker collects
      its slices.
    - The store maps the path of a file to the array that [read_volume]
      returns for it, and [read_volume] raises [FileNotFound] for a path
      that is not in the store.  [write_volume] raises what [converter.py]
      raises before a writer calls into the library of its format: for a
      path without file type, for an unknown file type, and in the writers
      that are not written.  Otherwise it returns, the library calls being
      taken to succeed, and the store gets the volume under the path of the
      file, when [read_volume] has a reader for what was written.
    - An exception is a value of [exn]; a computation that may raise
      returns a [result], and one that also reads or writes files or starts
      threads runs in the monad [io], which keeps the store and a log of
      what happened, also up to the point where an exception is raised. *)

From Stdlib Require Import ZArith List String Ascii Bool Lia DecimalString.
Import ListNotations.
Local Open Scope Z_scope.

(** ** Exceptions and results *)

(** The exceptions of [converter.py]. *)
Inductive converter_exn : Type :=
| AxisOrderError (axis_order : string)   (* ValueError of check_if_valid_axis_permutation *)
| StringIndexError                       (* IndexError: string index out of range *)
| TupleIndexError                        (* IndexError: tuple index out of range *)
| ReshapeError                           (* ValueError of ndarray.reshape *)
| NoFileType                             (* ValueError: the path has no file type *)
| GzipSuffixError                        (* ValueError of copy_from_gzip *)
| UnknownExtension (extensions : string) (* Exception: unknown file extension *)
| NotImplementedError                    (* raised by a reader or writer that is not written *)
| SlicedKeyCount                         (* Exception of the sliced readers and writers *)
| KeyScanError.                          (* ValueError of the format-string scanner *)

(** The exceptions of [converter_chunked.py], and those that reach it. *)
Inductive exn : Type :=
| ConversionNotValid      (* the ValueError of convert_chunked_volume *)
| FormatKeyCount          (* the Exception of write_chunked_volume *)
| StitchNotSet            (* the Exception of __load_next_chunk *)
| FileNotFound (path : string)
| BroadcastError          (* numpy: shapes cannot be broadcast *)
| NegativeDimensions      (* numpy: negative dimensions are not allowed *)
| IndexError
| RangeStepZero           (* range() arg 3 must not be zero *)
| FormatStringError       (* ValueError of the format-string scanner *)
| FormatError             (* an exception raised by str.format *)
| IntegerTooLarge         (* OverflowError: the integer does not fit in 64 bits *)
| ConverterError (e : converter_exn).  (* raised by vc.write_volume *)

Inductive result (A : Type) : Type :=
| Ok (a : A)
| Raise (e : exn).
Arguments Ok {A} a.
Arguments Raise {A} e.

Definition rbind {A B} (r : result A) (k : A -> result B) : result B :=
  match r with
  | Ok a => k a
  | Raise e => Raise e
  end.

Declare Scope result_scope.
Delimit Scope result_scope with res.
Notation "x <- r ; k" := (rbind r (fun x => k))
  (at level 61, r at next level, right associativity) : result_scope.

(** ** Triples: numpy arrays of three entries, indexed by 0, 1, 2 *)

Inductive axis : Type := A0 | A1 | A2.

Record triple (A : Type) : Type := T3 { p0 : A; p1 : A; p2 : A }.
Arguments T3 {A} p0 p1 p2.
Arguments p0 {A} t.
Arguments p1 {A} t.
Arguments p2 {A} t.

Definition tget {A} (t : triple A) (d : axis) : A :=
  match d with A0 => p0 t | A1 => p1 t | A2 => p2 t end.

Definition tset {A} (t : triple A) (d : axis) (x : A) : triple A :=
  match d with
  | A0 => T3 x (p1 t) (p2 t)
  | A1 => T3 (p0 t) x (p2 t)
  | A2 => T3 (p0 t) (p1 t) x
  end.

Definition tall (f : Z -> Z -> bool) (a b : triple Z) : bool :=
  f (p0 a) (p0 b) && f (p1 a) (p1 b) && f (p2 a) (p2 b).

Definition tany (f : Z -> Z -> bool) (a b : triple Z) : bool :=
  f (p0 a) (p0 b) || f (p1 a) (p1 b) || f (p2 a) (p2 b).

(** The reversal [(t[2], t[1], t[0])] between XYZ and ZYX order. *)
Definition trev {A} (t : triple A) : triple A := T3 (p2 t) (p1 t) (p0 t).

(** ** Python ranges, slices and indices *)

Definition range_len (lo hi step : Z) : Z :=
  if 0 <? step then (if lo <? hi then (hi - lo - 1) / step + 1 else 0)
  else (if hi <? lo then (lo - hi - 1) / (- step) + 1 else 0).

(** [range(lo, hi, step)] *)
Definition py_range (lo hi step : Z) : result (list Z) :=
  if step =? 0 then Raise RangeStepZero
  else Ok (map (fun k => lo + Z.of_nat k * step)
               (seq 0 (Z.to_nat (range_len lo hi step)))).

(** [range(0, n)] *)
Definition range0 (n : Z) : list Z := map Z.of_nat (seq 0 (Z.to_nat n)).

(** A slice [lo:hi]; a missing bound is [None]. *)
Record pyslice : Type := Sl { lo : option Z; hi : option Z }.

Definition whole : pyslice := Sl None None.
Definition from (a : Z) : pyslice := Sl (Some a) None.
Definition upto (b : Z) : pyslice := Sl None (Some b).
Definition span (a b : Z) : pyslice := Sl (Some a) (Some b).

(** A slice bound on an axis of length [n]: negative bounds count from the
    end, and the bound is clipped to the axis. *)
Definition norm_bound (n i : Z) : Z :=
  if i <? 0 then Z.max (i + n) 0 else Z.min i n.

Definition slice_start (n : Z) (s : pyslice) : Z :=
  match lo s with None => 0 | Some i => norm_bound n i end.

Definition slice_stop (n : Z) (s : pyslice) : Z :=
  match hi s with None => n | Some i => norm_bound n i end.

Definition slice_len (n : Z) (s : pyslice) : Z :=
  Z.max 0 (slice_stop n s - slice_start n s).

(** An integer index on an axis of length [n]. *)
Definition py_index (n i : Z) : result Z :=
  if (- n <=? i) && (i <? n) then Ok (if i <? 0 then i + n else i)
  else Raise IndexError.

(** ** Buffers *)

Definition cell : Type := option Z.

(** A three-dimensional numpy array. *)
Record ndarray : Type := Nd { shape : triple Z; item : Z -> Z -> Z -> cell }.

(** A two-dimensional numpy array. *)
Record plane : Type := Pl { rows : Z; cols : Z; pitem : Z -> Z -> cell }.

Definition nonneg3 (s : triple Z) : bool :=
  (0 <=? p0 s) && (0 <=? p1 s) && (0 <=? p2 s).

(** [np.empty(shape)] *)
Definition np_empty (s : triple Z) : result ndarray :=
  if nonneg3 s then Ok (Nd s (fun _ _ _ => None)) else Raise NegativeDimensions.

(** [np.zeros(shape)] *)
Definition np_zeros (s : triple Z) : result ndarray :=
  if nonneg3 s then Ok (Nd s (fun _ _ _ => Some 0)) else Raise NegativeDimensions.

(** [np.empty(shape=(r, c))] *)
Definition np_empty2 (r c : Z) : result plane :=
  if (0 <=? r) && (0 <=? c) then Ok (Pl r c (fun _ _ => None))
  else Raise NegativeDimensions.

(** Broadcasting in an assignment: an axis of the source fits the axis of the
    target when it has the same length or length 1. *)
Definition fits (have want : Z) : bool := (have =? want) || (have =? 1).

Definition bidx (have i : Z) : Z := if have =? 1 then 0 else i.

Definition within (a n i : Z) : bool := (a <=? i) && (i <? a + n).

(** [dst[s0, s1] = src] on planes. *)
Definition plane_assign (dst : plane) (s0 s1 : pyslice) (src : plane)
  : result plane :=
  let a0 := slice_start (rows dst) s0 in
  let n0 := slice_len (rows dst) s0 in
  let a1 := slice_start (cols dst) s1 in
  let n1 := slice_len (cols dst) s1 in
  if fits (rows src) n0 && fits (cols src) n1 then
    Ok (Pl (rows dst) (cols dst)
          (fun i j =>
             if within a0 n0 i && within a1 n1 j
             then pitem src (bidx (rows src) (i - a0)) (bidx (cols src) (j - a1))
             else pitem dst i j))
  else Raise BroadcastError.

(** [a[s0, s1, idx]]: a plane cut out of a buffer at an index of axis 2. *)
Definition nd_plane (a : ndarray) (s0 s1 : pyslice) (idx : Z) : result plane :=
  match py_index (p2 (shape a)) idx with
  | Raise e => Raise e
  | Ok k =>
      let a0 := slice_start (p0 (shape a)) s0 in
      let a1 := slice_start (p1 (shape a)) s1 in
      Ok (Pl (slice_len (p0 (shape a)) s0) (slice_len (p1 (shape a)) s1)
            (fun i j => item a (a0 + i) (a1 + j) k))
  end.

(** [dst[:, :, idx] = src] *)
Definition nd_set_plane (dst : ndarray) (idx : Z) (src : plane) : result ndarray :=
  match py_index (p2 (shape dst)) idx with
  | Raise e => Raise e
  | Ok k =>
      if fits (rows src) (p0 (shape dst)) && fits (cols src) (p1 (shape dst)) then
        Ok (Nd (shape dst)
              (fun i j x =>
                 if x =? k then pitem src (bidx (rows src) i) (bidx (cols src) j)
                 else item dst i j x))
      else Raise BroadcastError
  end.

(** [dst[s0, s1, s2] = src] on buffers. *)
Definition nd_assign (dst : ndarray) (s0 s1 s2 : pyslice) (src : ndarray)
  : result ndarray :=
  let d := shape dst in
  let s := shape src in
  let a0 := slice_start (p0 d) s0 in
  let n0 := slice_len (p0 d) s0 in
  let a1 := slice_start (p1 d) s1 in
  let n1 := slice_len (p1 d) s1 in
  let a2 := slice_start (p2 d) s2 in
  let n2 := slice_len (p2 d) s2 in
  if fits (p0 s) n0 && fits (p1 s) n1 && fits (p2 s) n2 then
    Ok (Nd d
          (fun i j k =>
             if within a0 n0 i && within a1 n1 j && within a2 n2 k
             then item src (bidx (p0 s) (i - a0)) (bidx (p1 s) (j - a1))
                           (bidx (p2 s) (k - a2))
             else item dst i j k))
  else Raise BroadcastError.

(** [a[s0, s1, s2]]: a sub-buffer. *)
Definition nd_slice (a : ndarray) (s0 s1 s2 : pyslice) : ndarray :=
  let d := shape a in
  let a0 := slice_start (p0 d) s0 in
  let a1 := slice_start (p1 d) s1 in
  let a2 := slice_start (p2 d) s2 in
  Nd (T3 (slice_len (p0 d) s0) (slice_len (p1 d) s1) (slice_len (p2 d) s2))
     (fun i j k => item a (a0 + i) (a1 + j) (a2 + k)).

(** [np.swapaxes(a, 0, 2)] *)
Definition swapaxes02 (a : ndarray) : ndarray :=
  Nd (trev (shape a)) (fun i j k => item a k j i).

(** The cells of a buffer, axis 0 outermost; two buffers hold the same data
    when their shapes and their cells agree. *)
Definition nd_cells (a : ndarray) : list (list (list cell)) :=
  map (fun i => map (fun j => map (fun k => item a i j k)
                                  (range0 (p2 (shape a))))
                    (range0 (p1 (shape a))))
      (range0 (p0 (shape a))).

Definition nd_view (a : ndarray) : triple Z * list (list (list cell)) :=
  (shape a, nd_cells a).

(** A buffer built from nested lists of values. *)
Definition nd_of_lists (l : list (list (list Z))) : ndarray :=
  Nd (T3 (Z.of_nat (List.length l))
         (Z.of_nat (List.length (nth 0 l [])))
         (Z.of_nat (List.length (nth 0 (nth 0 l []) []))))
     (fun i j k =>
        if (i <? 0) || (j <? 0) || (k <? 0) then None
        else nth_error (nth (Z.to_nat j) (nth (Z.to_nat i) l []) []) (Z.to_nat k)).

(** ** Numbers of 64 bits *)

(** The entries of a numpy array of [dtype=int] are integers of 64 bits:
    [np.array(l, dtype=int)] raises when an entry of [l] is not in their
    range, and the sum and the product of two such arrays wrap around. *)
Definition int64 (z : Z) : bool :=
  (- 9223372036854775808 <=? z) && (z <? 9223372036854775808).

Definition wrap64 (z : Z) : Z :=
  (z + 9223372036854775808) mod 18446744073709551616 - 9223372036854775808.

(** The cell of a [float64] buffer to which an integer is converted: the
    nearest number with 53 significant bits, and of two that are equally
    near the one whose last bit is 0.  [e] is the number of bits dropped. *)
Definition f64 (z : Z) : Z :=
  let a := Z.abs z in
  let e := Z.log2 a - 52 in
  if e <=? 0 then z
  else
    let q := Z.shiftr a e in
    let r := a - Z.shiftl q e in
    let half := Z.shiftl 1 (e - 1) in
    let q := if (half <? r) || ((r =? half) && Z.odd q) then q + 1 else q in
    Z.sgn z * Z.shiftl q e.

(** An array as it arrives in a [float64] buffer. *)
Definition as_float64 (a : ndarray) : ndarray :=
  Nd (shape a) (fun i j k => option_map f64 (item a i j k)).

Definition plane_as_float64 (a : plane) : plane :=
  Pl (rows a) (cols a) (fun i j => option_map f64 (pitem a i j)).

(** ** Strings: digit runs and format keys *)

Definition is_digit (c : ascii) : bool :=
  ((48 <=? nat_of_ascii c) && (nat_of_ascii c <=? 57))%nat.

Definition digit_val (c : ascii) : Z := Z.of_nat (nat_of_ascii c) - 48.

(** [s.split(".")[0]] *)
Fixpoint before_dot (s : string) : string :=
  match s with
  | EmptyString => EmptyString
  | String c r => if Ascii.eqb c "." then EmptyString else String c (before_dot r)
  end.

(** [np.array(re.findall(r"\d+", s), dtype=int)]: the values of the maximal
    runs of decimal digits of [s], from left to right.  [cur] is the run
    being read.  A string is a sequence of bytes here, and a digit is one of
    the ten ASCII digits. *)
Fixpoint digit_runs (s : string) (cur : option Z) : list Z :=
  match s with
  | EmptyString => match cur with Some n => [n] | None => [] end
  | String c r =>
      if is_digit c
      then digit_runs r (Some (10 * match cur with Some n => n | None => 0 end
                               + digit_val c))
      else match cur with
           | Some n => n :: digit_runs r None
           | None => digit_runs r None
           end
  end.

(** An array of one or of three entries against an array of three. *)
Definition broadcast3 (l : list Z) : result (triple Z) :=
  match l with
  | [a] => Ok (T3 a a a)
  | [a; b; c] => Ok (T3 a b c)
  | _ => Raise BroadcastError
  end.

(** The tuples [(literal_text, field_name, format_spec, conversion)] that
    Python's [string.Formatter().parse] yields.  The scanner reads the string
    once from left to right; [pstate] is where it stands. *)
Record parsed : Type := Parsed
  { literal_text : string;
    field_name : option string;
    format_spec : option string;
    conversion : option ascii }.

Inductive pstate : Type :=
| InLiteral (lit : string)
| SeenBrace (lit : string) (c : ascii)
| InName (lit name : string) (bracket : bool)
| SeenBang (lit name : string)
| SeenConv (lit name : string) (conv : ascii)
| InSpec (lit name : string) (conv : option ascii) (spec : string) (depth : nat).

Definition snoc (s : string) (c : ascii) : string := (s ++ String c "")%string.

Definition field (lit name : string) (conv : option ascii) (spec : string) : parsed :=
  Parsed lit (Some name) (Some spec) conv.

Definition text (lit : string) : parsed := Parsed lit None None None.

(** One character: the tuple completed by it, if any, and the next state. *)
Definition pstep (st : pstate) (d : ascii) : result (option parsed * pstate) :=
  match st with
  | InLiteral lit =>
      if Ascii.eqb d "{" || Ascii.eqb d "}" then Ok (None, SeenBrace lit d)
      else Ok (None, InLiteral (snoc lit d))
  | SeenBrace lit c =>
      if Ascii.eqb d c then Ok (Some (text (snoc lit c)), InLiteral "")
      else if Ascii.eqb c "}" then Raise FormatStringError
      else if Ascii.eqb d "}" then Ok (Some (field lit "" None ""), InLiteral "")
      else if Ascii.eqb d ":" then Ok (None, InSpec lit "" None "" 1)
      else if Ascii.eqb d "!" then Ok (None, SeenBang lit "")
      else if Ascii.eqb d "[" then Ok (None, InName lit (snoc "" d) true)
      else Ok (None, InName lit (snoc "" d) false)
  | InName lit name true =>
      Ok (None, InName lit (snoc name d) (negb (Ascii.eqb d "]")))
  | InName lit name false =>
      if Ascii.eqb d "{" then Raise FormatStringError
      else if Ascii.eqb d "}" then Ok (Some (field lit name None ""), InLiteral "")
      else if Ascii.eqb d ":" then Ok (None, InSpec lit name None "" 1)
      else if Ascii.eqb d "!" then Ok (None, SeenBang lit name)
      else Ok (None, InName lit (snoc name d) (Ascii.eqb d "["))
  | SeenBang lit name => Ok (None, SeenConv lit name d)
  | SeenConv lit name conv =>
      if Ascii.eqb d "}" then Ok (Some (field lit name (Some conv) ""), InLiteral "")
      else if Ascii.eqb d ":" then Ok (None, InSpec lit name (Some conv) "" 1)
      else Raise FormatStringError
  | InSpec lit name conv spec depth =>
      if Ascii.eqb d "{" then Ok (None, InSpec lit name conv (snoc spec d) (S depth))
      else if Ascii.eqb d "}" then
        match depth with
        | 1%nat => Ok (Some (field lit name conv spec), InLiteral "")
        | _ => Ok (None, InSpec lit name conv (snoc spec d) (Nat.pred depth))
        end
      else Ok (None, InSpec lit name conv (snoc spec d) depth)
  end.

(** The end of the string. *)
Definition pfinish (st : pstate) : result (list parsed) :=
  match st with
  | InLiteral EmptyString => Ok []
  | InLiteral lit => Ok [text lit]
  | _ => Raise FormatStringError
  end.

Fixpoint pscan (st : pstate) (s : string) : result (list parsed) :=
  match s with
  | EmptyString => pfinish st
  | String d r =>
      match pstep st d with
      | Raise e => Raise e
      | Ok (out, st') =>
          match pscan st' r with
          | Raise e => Raise e
          | Ok l => Ok (match out with Some t => t :: l | None => l end)
          end
      end
  end.

(** [string.Formatter().parse(s)], as a list. *)
Definition formatter_parse (s : string) : result (list parsed) :=
  pscan (InLiteral "") s.

Definition is_some {A} (o : option A) : bool :=
  match o with Some _ => true | None => false end.

(** converter.py, [__get_format_key_count]:
    [len([f for f in string.Formatter().parse(s) if f[2] is not None])] *)
Definition get_format_key_count (formatted_string : string) : result Z :=
  match formatter_parse formatted_string with
  | Raise e => Raise e
  | Ok l => Ok (Z.of_nat (List.length (filter (fun f => is_some (format_spec f)) l)))
  end.

(** ** [converter.py]: axis orders, and the choice of reader and writer

    The functions of [converter.py] below have exceptions of their own,
    [converter_exn]; a function that may raise one returns a sum.  A string
    is a sequence of bytes, and [lower] maps the ASCII capitals. *)

Definition cbind {A B} (r : converter_exn + A) (k : A -> converter_exn + B)
  : converter_exn + B :=
  match r with
  | inr a => k a
  | inl e => inl e
  end.

Declare Scope conv_scope.
Delimit Scope conv_scope with conv.
Notation "x <-- r ; k" := (cbind r (fun x => k))
  (at level 61, r at next level, right associativity) : conv_scope.

Definition lower_char (c : ascii) : ascii :=
  if ((65 <=? nat_of_ascii c) && (nat_of_ascii c <=? 90))%nat
  then ascii_of_nat (nat_of_ascii c + 32) else c.

(** [s.lower()] *)
Fixpoint lower (s : string) : string :=
  match s with
  | EmptyString => EmptyString
  | String c r => String (lower_char c) (lower r)
  end.

(** [c in s], for a character [c] *)
Fixpoint contains (s : string) (c : ascii) : bool :=
  match s with
  | EmptyString => false
  | String d r => Ascii.eqb d c || contains r c
  end.

(** [s.find(c)], for a character [c]: the first index of [c], or -1 *)
Fixpoint str_find (s : string) (c : ascii) : Z :=
  match s with
  | EmptyString => -1
  | String d r =>
      if Ascii.eqb d c then 0
      else let n := str_find r c in if n <? 0 then -1 else n + 1
  end.

(** [s[n]], for [n] that is not negative *)
Definition str_at (s : string) (n : nat) : converter_exn + ascii :=
  match String.get n s with
  | Some c => inr c
  | None => inl StringIndexError
  end.

(** [t[i]] for a tuple of three entries *)
Definition tuple_at (t : triple Z) (i : Z) : converter_exn + Z :=
  if (-3 <=? i) && (i <? 3)
  then let i := if i <? 0 then i + 3 else i in
       inr (if i =? 0 then p0 t else if i =? 1 then p1 t else p2 t)
  else inl TupleIndexError.

Definition check_if_valid_axis_permutation (axis_order : string)
  : converter_exn + string :=
  let axis_order := lower axis_order in
  if negb (String.length axis_order =? 3)%nat
     || negb (contains axis_order "x" && contains axis_order "y"
              && contains axis_order "z")
  then inl (AxisOrderError axis_order)
  else inr axis_order.

(** The number of cells of an array of shape [s], and the place of the cell
    [i, j, k] when the cells are laid out with the last axis fastest. *)
Definition size3 (s : triple Z) : Z := p0 s * p1 s * p2 s.

Definition ravel (s : triple Z) (i j k : Z) : Z := (i * p1 s + j) * p2 s + k.

(** [a.reshape(s)], for [s] taken from the shape of an array: the cells keep
    their places in the layout. *)
Definition nd_reshape (a : ndarray) (s : triple Z) : converter_exn + ndarray :=
  if size3 s =? size3 (shape a)
  then inr (Nd s (fun i j k =>
                    let n := ravel s i j k in
                    item a (n / (p1 (shape a) * p2 (shape a)))
                           ((n / p2 (shape a)) mod p1 (shape a))
                           (n mod p2 (shape a))))
  else inl ReshapeError.

Definition reshape_memory_order (volume : ndarray) (from_order to_order : string)
  : converter_exn + ndarray :=
  (from_order <-- check_if_valid_axis_permutation from_order ;
   to_order <-- check_if_valid_axis_permutation to_order ;
   if String.eqb from_order to_order then inr volume
   else
     c0 <-- str_at to_order 0 ;
     c1 <-- str_at to_order 1 ;
     c2 <-- str_at to_order 2 ;
     let reshape_tuple :=
       T3 (str_find from_order c0) (str_find from_order c1) (str_find from_order c2) in
     s0 <-- tuple_at (shape volume) (p0 reshape_tuple) ;
     s1 <-- tuple_at (shape volume) (p1 reshape_tuple) ;
     s2 <-- tuple_at (shape volume) (p2 reshape_tuple) ;
     nd_reshape volume (T3 s0 s1 s2))%conv.

(** [Path(path).suffixes] of [pathlib], for a POSIX path.  The name of a
    path is its last component that is neither empty nor a single dot; a
    name that ends in a dot has no suffixes, and the dots a name starts with
    do not begin one. *)
Fixpoint split_on (sep : ascii) (s cur : string) : list string :=
  match s with
  | EmptyString => [cur]
  | String c r =>
      if Ascii.eqb c sep then cur :: split_on sep r EmptyString
      else split_on sep r (cur ++ String c EmptyString)
  end.

Definition path_name (path : string) : string :=
  List.last (filter (fun c => negb (String.eqb c EmptyString || String.eqb c "."))
               (split_on "/" path EmptyString))
            EmptyString.

Fixpoint lstrip_dots (s : string) : string :=
  match s with
  | String c r => if Ascii.eqb c "." then lstrip_dots r else s
  | EmptyString => EmptyString
  end.

(** [s.endswith(t)] *)
Definition ends_with (s t : string) : bool :=
  (String.length t <=? String.length s)%nat
  && String.eqb (substring (String.length s - String.length t) (String.length t) s) t.

Definition path_suffixes (path : string) : list string :=
  let name := path_name path in
  if ends_with name "." then []
  else map (String ".") (tl (split_on "." (lstrip_dots name) EmptyString)).

(** The file formats are not modelled: the functions [write_volume] and
    [read_volume] of [converter.py] are followed up to the calls they make,
    in the order in which they make them, and the writers and readers up to
    the calls they make into the libraries of the formats.  Those calls
    ([open], [h5py], [PIL], [np.save] and [np.load], [nibabel], [vtk],
    [gzip], [unlink], and in the sliced functions [str.format] on the number
    of a slice) are taken to return, which supposes that the files they name
    are there, or can be written.  What is raised before them is modelled:
    [read_nrrd], [read_sliced_png] and [write_sliced_tiff] raise
    [NotImplementedError]; [read_sliced_tiff] and [write_sliced_png] raise
    unless the path has exactly one format key; [copy_from_gzip] raises when
    the path does not end in [.gz].  [dtype] is left at [None].  [suffixes]
    is [Path(path).suffixes], and [decoded] is the array that the calls of a
    reader into its library return. *)
Inductive writer : Type :=
| write_vraw | write_nrrd | write_hdf5 | write_sliced_tiff | write_sliced_png
| write_numpy (compressed : bool) | write_nifti | write_vti.

Inductive reader : Type :=
| read_vraw | read_nrrd | read_hdf5 | read_sliced_tiff | read_sliced_png
| read_numpy | read_nifti | read_vti.

Inductive call : Type :=
| CallWriter (w : writer) (volume : ndarray)   (* the writer, on path_out *)
| CallReader (r : reader)                      (* the reader, on path_in *)
| CopyToGzip                                   (* copy_to_gzip(path_out) *)
| CopyFromGzip                                 (* path_in = copy_from_gzip(path_in) *)
| Unlink.                                      (* Path(...).unlink() *)

(** [a == b] for lists of strings *)
Fixpoint strings_eqb (a b : list string) : bool :=
  match a, b with
  | [], [] => true
  | x :: a, y :: b => String.eqb x y && strings_eqb a b
  | _, _ => false
  end.

(** [l[-1]], [l[-2]] and [l[-2:]] *)
Definition last1 (l : list string) : string := List.last l EmptyString.

Definition last2 (l : list string) : string :=
  nth (List.length l - 2) l EmptyString.

Definition tail2 (l : list string) : list string := skipn (List.length l - 2) l.

(** The chain of comparisons of [write_volume]. *)
Definition select_writer (extensions : list string) : option writer :=
  if strings_eqb extensions [".vraw"%string] || strings_eqb extensions [".raw"%string]
  then Some write_vraw
  else if strings_eqb extensions [".nrrd"%string] then Some write_nrrd
  else if strings_eqb extensions [".hdf5"%string] || strings_eqb extensions [".h5"%string]
  then Some write_hdf5
  else if strings_eqb extensions [".tiff"%string] then Some write_sliced_tiff
  else if strings_eqb extensions [".png"%string] then Some write_sliced_png
  else if strings_eqb extensions [".npy"%string] then Some (write_numpy false)
  else if strings_eqb extensions [".npz"%string] then Some (write_numpy true)
  else if strings_eqb extensions [".nii"%string]
          || strings_eqb extensions [".nii"%string; ".gz"%string]
  then Some write_nifti
  else if strings_eqb extensions [".vti"%string] then Some write_vti
  else None.

(** The chain of comparisons of [read_volume]. *)
Definition select_reader (extensions : list string) : option reader :=
  let e := last1 extensions in
  if String.eqb e ".vraw" || String.eqb e ".raw" then Some read_vraw
  else if String.eqb e ".nrrd" then Some read_nrrd
  else if String.eqb e ".hdf5" || String.eqb e ".h5" then Some read_hdf5
  else if String.eqb e ".tif" || String.eqb e ".tiff" then Some read_sliced_tiff
  else if String.eqb e ".png" then Some read_sliced_png
  else if String.eqb e ".npy" || String.eqb e ".npz" then Some read_numpy
  else if String.eqb e ".nii"
          || strings_eqb (tail2 extensions) [".nii"%string; ".gz"%string]
  then Some read_nifti
  else if String.eqb e ".vti" then Some read_vti
  else None.

(** [if __get_format_key_count(path) != 1: raise Exception(...)], the first
    statement of [read_sliced_tiff] and of [write_sliced_png] *)
Definition one_format_key (path : string) : converter_exn + unit :=
  match get_format_key_count path with
  | Raise _ => inl KeyScanError
  | Ok n => if negb (n =? 1) then inl SlicedKeyCount else inr tt
  end.

(** What a writer does before it calls into the library of its format. *)
Definition run_writer (w : writer) (path_out : string) : converter_exn + unit :=
  match w with
  | write_sliced_tiff => inl NotImplementedError
  | write_sliced_png => one_format_key path_out
  | _ => inr tt
  end.

(** What a reader does before it calls into the library of its format. *)
Definition run_reader (r : reader) (path_in : string) : converter_exn + unit :=
  match r with
  | read_nrrd | read_sliced_png => inl NotImplementedError
  | read_sliced_tiff => one_format_key path_in
  | _ => inr tt
  end.

(** [write_volume(volume, path_out, dtype, input_axis_order, apply_gzip)] *)
Definition write_volume_calls (volume : ndarray) (path_out : string)
    (suffixes : list string) (input_axis_order : string) (apply_gzip : bool)
  : list call * (converter_exn + unit) :=
  let extensions := map lower suffixes in
  if (List.length extensions =? 0)%nat then ([], inl NoFileType)
  else
    match reshape_memory_order volume input_axis_order "zyx" with
    | inl e => ([], inl e)
    | inr volume =>
        match select_writer extensions with
        | None => ([], inl (UnknownExtension (String.concat EmptyString extensions)))
        | Some w =>
            match run_writer w path_out with
            | inl e => ([CallWriter w volume], inl e)
            | inr _ =>
                (CallWriter w volume
                   :: (if apply_gzip then [CopyToGzip; Unlink] else []),
                 inr tt)
            end
        end
    end.

(** [read_volume(path_in, input_axis_order)] *)
Definition read_volume_calls (path_in : string) (suffixes : list string)
    (input_axis_order : string) (decoded : ndarray)
  : list call * (converter_exn + ndarray) :=
  let extensions := map lower suffixes in
  if (List.length extensions =? 0)%nat then ([], inl NoFileType)
  else
    let apply_gzip :=
      String.eqb (last1 extensions) ".gz" && (1 <? List.length extensions)%nat
      && negb (String.eqb (last2 extensions) ".nii") in
    let before := if apply_gzip then [CopyFromGzip] else [] in
    (* copy_from_gzip: Path(path_in).suffix != ".gz" *)
    if apply_gzip && negb (String.eqb (last1 suffixes) ".gz")
    then (before, inl GzipSuffixError)
    else
    match select_reader extensions with
    | None => (before, inl (UnknownExtension (String.concat EmptyString extensions)))
    | Some r =>
        (* no reader is chosen after copy_from_gzip, so path_in is the
           path that read_volume was called with *)
        match run_reader r path_in with
        | inl e => (before ++ [CallReader r], inl e)
        | inr _ =>
            let calls :=
              before ++ [CallReader r] ++ (if apply_gzip then [Unlink] else []) in
            (calls, reshape_memory_order decoded input_axis_order "zyx")
        end
    end.


(** The six orders of the three axes. *)
Definition axis_orders : list string :=
  ["xyz"; "xzy"; "yxz"; "yzx"; "zxy"; "zyx"]%string.

(** The cell [i, j, k] lies in an array of shape [s]. *)
Definition inside (s : triple Z) (i j k : Z) : Prop :=
  0 <= i < p0 s /\ 0 <= j < p1 s /\ 0 <= k < p2 s.

(** The extent of the axis named [c] of an array whose axes are in
    [order]. *)
Definition extent (a : ndarray) (order : string) (c : ascii) : converter_exn + Z :=
  tuple_at (shape a) (str_find order c).

(** [supported_formats()] *)
Definition supported_formats : list string :=
  ["vraw"; "raw"; "nrrd"; "hdf5"; "h5"; "tiff"; "png"; "npy"; "npz"; "nii";
   "nii.gz"; "vti"]%string.

(** [s.split(".")]; [cur] is the piece being read. *)
Fixpoint split_dot (s cur : string) : list string :=
  match s with
  | EmptyString => [cur]
  | String c r =>
      if Ascii.eqb c "." then cur :: split_dot r EmptyString
      else split_dot r (cur ++ String c EmptyString)
  end.

(** The suffixes of a file name that ends in a dot and the format [f]. *)
Definition format_suffixes (f : string) : list string :=
  map (String ".") (split_dot f EmptyString).

(** ** Files, threads and the log *)

Inductive event : Type :=
| EvRead (path : string)                  (* read_volume(path) *)
| EvWrite (path : string)                 (* write_volume(_, path) *)
| EvStart (idx start stop offset : Z)     (* thread.start(), with its arguments *)
| EvJoin (idx : Z).                       (* thread.join() *)

Record world : Type := W { disk : list (string * ndarray); log : list event }.

Definition io (A : Type) : Type := world -> result A * world.

Definition ret {A} (a : A) : io A := fun w => (Ok a, w).

Definition raise {A} (e : exn) : io A := fun w => (Raise e, w).

Definition bind {A B} (m : io A) (k : A -> io B) : io B :=
  fun w =>
    match m w with
    | (Ok a, w') => k a w'
    | (Raise e, w') => (Raise e, w')
    end.

Definition lift {A} (r : result A) : io A := fun w => (r, w).

Definition emit (e : event) : io unit :=
  fun w => (Ok tt, W (disk w) (log w ++ [e])).

Declare Scope io_scope.
Delimit Scope io_scope with io.
Notation "x <~ m ;; k" := (bind m (fun x => k))
  (at level 61, m at next level, right associativity) : io_scope.
Notation "m ;; k" := (bind m (fun _ => k))
  (at level 61, right associativity) : io_scope.

Fixpoint lookup (path : string) (d : list (string * ndarray)) : option ndarray :=
  match d with
  | [] => None
  | (p, a) :: r => if String.eqb p path then Some a else lookup path r
  end.

(** [vc.read_volume(path)]: the store holds the files that [read_volume]
    reads, each with the array it returns for it; for any other path
    [read_volume] raises, and [FileNotFound] stands for what it raises. *)
Definition read_volume (path : string) : io ndarray :=
  fun w =>
    let w' := W (disk w) (log w ++ [EvRead path]) in
    match lookup path (disk w) with
    | Some a => (Ok a, w')
    | None => (Raise (FileNotFound path), w')
    end.

(** [np.save] and [np.savez_compressed] add [.npy] and [.npz] to a name
    that does not end so. *)
Definition numpy_file (compressed : bool) (path : string) : string :=
  let ext := (if compressed then ".npz" else ".npy")%string in
  if ends_with path ext then path else (path ++ ext)%string.

(** The file that a writer leaves and [read_volume] reads, if there is one:
    the file of [write_nrrd] and the slices of [write_sliced_png] have no
    reader. *)
Definition written_file (wr : writer) (path : string) : option string :=
  match wr with
  | write_nrrd | write_sliced_tiff | write_sliced_png => None
  | write_numpy compressed => Some (numpy_file compressed path)
  | _ => Some path
  end.

(** [vc.write_volume(volume, path)]: [dtype] is [None], the axes are in the
    order [zyx], so that [reshape_memory_order] returns the volume, and the
    file is not compressed. *)
Definition write_volume (volume : ndarray) (path : string) : io unit :=
  fun w =>
    let w' := W (disk w) (log w ++ [EvWrite path]) in
    let extensions := map lower (path_suffixes path) in
    if (List.length extensions =? 0)%nat
    then (Raise (ConverterError NoFileType), w')
    else
      match select_writer extensions with
      | None =>
          (Raise (ConverterError
                    (UnknownExtension (String.concat EmptyString extensions))), w')
      | Some wr =>
          match run_writer wr path with
          | inl e => (Raise (ConverterError e), w')
          | inr _ =>
              (Ok tt,
               W (match written_file wr path with
                  | Some file => (file, volume) :: disk w
                  | None => disk w
                  end)
                 (log w ++ [EvWrite path]))
          end
      end.

(** A [for] loop over a list that threads a state. *)
Fixpoint for_each {S} (l : list Z) (body : Z -> S -> io S) (s : S) : io S :=
  match l with
  | [] => ret s
  | x :: r => bind (body x s) (for_each r body)
  end.

(** ** The state of the converter *)

(** An array of four entries ([chunks_needed], [data]):
<<
      0    1
      2    3
>>
    entry 0 is the current chunk. *)
Record quad (A : Type) : Type := Q4 { q0 : A; q1 : A; q2 : A; q3 : A }.
Arguments Q4 {A} q0 q1 q2 q3.
Arguments q0 {A} q.
Arguments q1 {A} q.
Arguments q2 {A} q.
Arguments q3 {A} q.

(** The dictionary [volume_information]. *)
Record volume_information : Type := VI
  { path_in_format : string;
    chunk_size_in : triple Z;
    volume_dim : triple Z;
    path_out_format : string;
    chunk_size_out : triple Z;
    elements_to_read : triple Z }.

(** The dictionary [chunk_information]. *)
Record chunk_information : Type := CI
  { chunk_index : triple Z;       (* which chunk *)
    start_element : triple Z;     (* start of interval *)
    end_element : triple Z;       (* end of chunk, or end in the next chunk *)
    stitch : triple bool;         (* need another chunk in dim *)
    chunks_needed : quad bool }.

(** [data]: four buffers; [None] is the initial [np.array([])]. *)
Definition buffers : Type := quad (option ndarray).

Definition with_chunk_index (ci : chunk_information) (v : triple Z) :=
  CI v (start_element ci) (end_element ci) (stitch ci) (chunks_needed ci).
Definition with_start_element (ci : chunk_information) (v : triple Z) :=
  CI (chunk_index ci) v (end_element ci) (stitch ci) (chunks_needed ci).
Definition with_end_element (ci : chunk_information) (v : triple Z) :=
  CI (chunk_index ci) (start_element ci) v (stitch ci) (chunks_needed ci).
Definition with_stitch (ci : chunk_information) (v : triple bool) :=
  CI (chunk_index ci) (start_element ci) (end_element ci) v (chunks_needed ci).
Definition with_chunks_needed (ci : chunk_information) (v : quad bool) :=
  CI (chunk_index ci) (start_element ci) (end_element ci) (stitch ci) v.

Definition with_chunk_size_out (vi : volume_information) (v : triple Z) :=
  VI (path_in_format vi) (chunk_size_in vi) (volume_dim vi) (path_out_format vi)
     v (elements_to_read vi).
Definition with_elements_to_read (vi : volume_information) (v : triple Z) :=
  VI (path_in_format vi) (chunk_size_in vi) (volume_dim vi) (path_out_format vi)
     (chunk_size_out vi) v.

(** An entry of [data] used as a three-dimensional buffer. *)
Definition loaded (b : option ndarray) : result ndarray :=
  match b with Some a => Ok a | None => Raise IndexError end.

(** ** The alignment tracker: [__get_indices] *)

Definition get_indices (ci : chunk_information) (vi : volume_information)
    (dim : axis) : chunk_information * volume_information :=
  let cin := tget (chunk_size_in vi) dim in
  let cout := tget (chunk_size_out vi) dim in
  let old_end := tget (end_element ci) dim in
  let ci := with_start_element ci (tset (start_element ci) dim old_end) in
  let '(ci, current_element_read) :=
    if 0 <? cout then
      (* more elements must be read *)
      let new_end := Z.min (cin - old_end) (cout - 0) + old_end in
      let ci := with_end_element ci (tset (end_element ci) dim new_end) in
      let '(ci, read) :=
        if new_end =? old_end then
          (with_chunk_index
             (with_start_element ci (tset (start_element ci) dim 0))
             (tset (chunk_index ci) dim (tget (chunk_index ci) dim + 1)),
           0 + cin)
        else (ci, 0 + (new_end - old_end)) in
      if read <? cout then
        (* need another chunk *)
        (with_stitch
           (with_end_element ci (tset (end_element ci) dim (cout - read)))
           (tset (stitch ci) dim true),
         read)
      else (ci, read)
    else (ci, 0) in
  (ci, with_elements_to_read vi
         (tset (elements_to_read vi) dim
               (tget (elements_to_read vi) dim - current_element_read))).

(** ** [__update_and_reset_params] *)

Definition update_and_reset_params (vi : volume_information)
    (ci : chunk_information) (dim : axis) (chunk_size_out' volume_dim' : triple Z)
  : volume_information * chunk_information :=
  let ci :=
    if tget (stitch ci) dim
    then with_chunk_index ci (tset (chunk_index ci) dim (tget (chunk_index ci) dim + 1))
    else ci in
  let ci := with_stitch ci (tset (stitch ci) dim false) in
  let vi := with_chunk_size_out vi
              (tset (chunk_size_out vi) dim (tget chunk_size_out' dim)) in
  let etr := tget (elements_to_read vi) dim in
  let vi :=
    if (etr <? tget chunk_size_out' dim) && (0 <? etr)
    then with_chunk_size_out vi (tset (chunk_size_out vi) dim etr)
    else vi in
  match dim with
  | A1 =>
      let n := chunks_needed ci in
      (with_elements_to_read vi (tset (elements_to_read vi) A2 (p2 volume_dim')),
       with_chunks_needed ci (Q4 (q0 n) false (q2 n) false))
  | A0 =>
      let n := chunks_needed ci in
      (with_elements_to_read vi (tset (elements_to_read vi) A1 (p1 volume_dim')),
       with_chunks_needed ci (Q4 (q0 n) false false false))
  | A2 => (vi, ci)
  end.

(** ** [is_volume_conversion_valid] *)

(** [chunk_size_in] and [volume_dim] are arrays of integers of 64 bits when
    [convert_chunked_volume] calls the function, so that the doubling wraps
    around.  [chunk_size_out] is taken to hold integers of 64 bits as well;
    the comparisons are then between integers of one type, and exact. *)
Definition is_volume_conversion_valid (chunk_size_in' chunk_size_out' volume_dim' : triple Z)
  : bool :=
  if tany (fun i o => wrap64 (i * 2) <? o) chunk_size_in' chunk_size_out' then false
  else if tany Z.ltb volume_dim' chunk_size_out' then false
  else true.

(** ** The parallel slice compositor: [__get_slice_zy] *)

Definition get_slice_zy (ci : chunk_information) (vi : volume_information)
    (data : buffers) (current_slice_idx : Z) : result plane :=
  let cout := chunk_size_out vi in
  let cin := chunk_size_in vi in
  let st := stitch ci in
  let s := start_element ci in
  let e := end_element ci in
  (tmp <- np_empty2 (p0 cout) (p1 cout);
   let f0 := p0 cin - p0 s in
   let f1 := p1 cin - p1 s in
   if p0 st && p1 st then
     (* upper left *)
     d <- loaded (q0 data);
     a <- nd_plane d (from (p0 s)) (from (p1 cin - p1 e)) current_slice_idx;
     tmp <- plane_assign tmp (upto f0) (upto f1) a;
     (* upper right *)
     d <- loaded (q1 data);
     a <- nd_plane d (from (p0 cin - p0 e)) (span 0 (p1 cout - f1)) current_slice_idx;
     tmp <- plane_assign tmp (upto f0) (from f1) a;
     (* lower left *)
     d <- loaded (q2 data);
     a <- nd_plane d (upto f1) (from (p1 s)) current_slice_idx;
     tmp <- plane_assign tmp (from f0) (upto f1) a;
     (* lower right *)
     d <- loaded (q3 data);
     a <- nd_plane d (upto f1) (span 0 (p1 cout - f1)) current_slice_idx;
     plane_assign tmp (from f0) (from f1) a
   else if p0 st then
     d <- loaded (q0 data);
     a <- nd_plane d (from (p0 s)) (span (p1 s) (p1 s + p1 cout)) current_slice_idx;
     tmp <- plane_assign tmp (upto f0) whole a;
     d <- loaded (q2 data);
     a <- nd_plane d (upto (p0 cout - f0)) (span (p1 s) (p1 s + p1 cout)) current_slice_idx;
     plane_assign tmp (from f0) whole a
   else if p1 st then
     d <- loaded (q0 data);
     a <- nd_plane d (span (p0 s) (p0 s + p0 cout)) (from (p1 s)) current_slice_idx;
     tmp <- plane_assign tmp whole (upto f1) a;
     d <- loaded (q1 data);
     a <- nd_plane d (span (p0 s) (p0 s + p0 cout)) (upto (p1 cout - f1)) current_slice_idx;
     plane_assign tmp whole (from f1) a
   else
     d <- loaded (q0 data);
     a <- nd_plane d (span (p0 s) (p0 e)) (span (p1 s) (p1 e)) current_slice_idx;
     plane_assign tmp (upto (p0 cout)) (upto (p1 cout)) a)%res.

(** [__stitch_zy_chunks_together]: the target of one worker thread.  It
    returns the shared buffer [stitched_chunk] after the thread's write.
    [tmp_stitched_chunk] is made without a [dtype], so it is [float64]: the
    cells of a slice are converted when the slice is assigned to it. *)
Definition stitch_zy_chunks_together (ci : chunk_information)
    (vi : volume_information) (start stop slice_count_offset : Z)
    (stitched_chunk : ndarray) (data : buffers) : result ndarray :=
  (tmp <- np_empty (T3 (p0 (chunk_size_out vi)) (p1 (chunk_size_out vi)) (stop - start));
   tmp <- fold_left
            (fun acc slice_count =>
               acc <- acc;
               t <- get_slice_zy ci vi data (slice_count + start);
               nd_set_plane acc slice_count (plane_as_float64 t))
            (range0 (stop - start)) (Ok tmp);
   nd_assign stitched_chunk whole whole
     (span (start + slice_count_offset) (stop + slice_count_offset)) tmp)%res.

(** ** The thread ranges of [__launch_threads] *)

(** The [(start, end)] pair after the loop body of thread [thread_idx]. *)
Definition next_range (slices_per_thread remainder thread_idx : Z) (r : Z * Z)
  : Z * Z :=
  (fst r + (slices_per_thread
            + (if (0 <? thread_idx) && (thread_idx - 1 <? remainder) then 1 else 0)),
   snd r + (slices_per_thread + (if thread_idx <? remainder then 1 else 0))).

(** The body of the loop of [__launch_threads].  Thread [thread_idx] is
    created with the current [(start, end)] and started; an exception raised
    inside a worker ends that worker only, so its write is lost and the
    others go on.  The workers write to the shared [stitched_chunk]; they
    are run here in the order in which they are started. *)
Definition launch_body (ci : chunk_information) (vi : volume_information)
    (slice_count_offset slices_per_thread remainder : Z) (data : buffers)
    (thread_idx : Z) (st : Z * Z * ndarray) : io (Z * Z * ndarray) :=
  (emit (EvStart thread_idx (fst (fst st)) (snd (fst st)) slice_count_offset) ;;
   ret (next_range slices_per_thread remainder thread_idx (fst st),
        match stitch_zy_chunks_together ci vi (fst (fst st)) (snd (fst st))
                slice_count_offset (snd st) data with
        | Ok stitched' => stitched'
        | Raise _ => snd st
        end))%io.

(** [__launch_threads] *)
Definition launch_threads (ci : chunk_information) (vi : volume_information)
    (slice_count_offset global_start global_end slices_per_thread thread_count : Z)
    (stitched_chunk : ndarray) (data : buffers) : io ndarray :=
  let remainder := global_end - thread_count * slices_per_thread in
  (st <~ for_each (range0 thread_count)
           (launch_body ci vi slice_count_offset slices_per_thread remainder data)
           ((global_start, slices_per_thread + global_start), stitched_chunk) ;;
   for_each (range0 thread_count)
     (fun thread_idx (_ : unit) => emit (EvJoin thread_idx)) tt ;;
   ret (snd st))%io.

Section Converter.

(** [fmt.format(a, b, c)] of Python's [str], on integer arguments; [None]
    when [str.format] raises. *)
Variable str_format : string -> Z -> Z -> Z -> option string.

Definition formatted (fmt : string) (a b c : Z) : result string :=
  match str_format fmt a b c with
  | Some path => Ok path
  | None => Raise FormatError
  end.

(** ** The chunk fetcher *)

(** [tmp_chunk] is of [dtype_out], which is [float64]: the cells of the
    file are converted when they are assigned. *)
Definition read_tmp_chunk_zy (ci : chunk_information) (vi : volume_information)
  : io ndarray :=
  (tmp_chunk <~ lift (np_zeros (chunk_size_in vi)) ;;
   path <~ lift (formatted (path_in_format vi)
                   (p2 (chunk_index ci) - 1) (p1 (chunk_index ci) - 1)
                   (p0 (chunk_index ci) - 1)) ;;
   volume <~ read_volume path ;;
   lift (nd_assign tmp_chunk whole whole whole (as_float64 volume)))%io.

Definition load_current_chunk (ci : chunk_information) (vi : volume_information)
    (dim : axis) : io ndarray :=
  read_tmp_chunk_zy ci vi.

(** [__load_next_chunk] returns the buffer; [chunk_information] is mutated in
    place, so its value after the call is returned with it. *)
Definition load_next_chunk (ci : chunk_information) (vi : volume_information)
    (dim : axis) : io (ndarray * chunk_information) :=
  if tget (stitch ci) dim then
    let tmp_chunk_index := chunk_index ci in
    let ci := with_chunk_index ci
                (tset (chunk_index ci) dim (tget (chunk_index ci) dim + 1)) in
    (tmp_chunk <~ read_tmp_chunk_zy ci vi ;;
     ret (tmp_chunk, with_chunk_index ci tmp_chunk_index))%io
  else raise StitchNotSet.

Definition load_chunks (ci : chunk_information) (vi : volume_information)
    (data : buffers) : io (chunk_information * buffers) :=
  (d0 <~ load_current_chunk ci vi A0 ;;
   let data := Q4 (Some d0) (q1 data) (q2 data) (q3 data) in
   st <~ (if q1 (chunks_needed ci) then
            r <~ load_next_chunk ci vi A1 ;;
            ret (snd r, Q4 (q0 data) (Some (fst r)) (q2 data) (q3 data))
          else ret (ci, data)) ;;
   let '(ci, data) := st in
   st <~ (if q2 (chunks_needed ci) then
            r <~ load_next_chunk ci vi A0 ;;
            ret (snd r, Q4 (q0 data) (q1 data) (Some (fst r)) (q3 data))
          else ret (ci, data)) ;;
   let '(ci, data) := st in
   if q3 (chunks_needed ci) then
     (* increase chunk_index temporarily *)
     let tmp_chunk_index := chunk_index ci in
     let ci := with_chunk_index ci
                 (tset (chunk_index ci) A0 (p0 (chunk_index ci) + 1)) in
     let ci := with_chunk_index ci
                 (tset (chunk_index ci) A1 (p1 (chunk_index ci) + 1)) in
     d3 <~ load_current_chunk ci vi A0 ;;
     ret (with_chunk_index ci tmp_chunk_index,
          Q4 (q0 data) (q1 data) (q2 data) (Some d3))
   else ret (ci, data))%io.

(** ** The volume extent resolver: [__calculate_volume_dim] *)

(** [np.array(t, dtype=int)] on the three entries of a tuple, and on a
    list. *)
Definition int64_triple (t : triple Z) : result (triple Z) :=
  if int64 (p0 t) && int64 (p1 t) && int64 (p2 t) then Ok t
  else Raise IntegerTooLarge.

Definition int64_list (l : list Z) : result (list Z) :=
  if forallb int64 l then Ok l else Raise IntegerTooLarge.

(** The product and the sum are those of arrays of integers of 64 bits; the
    product is there before the last chunk is read. *)
Definition calculate_volume_dim (chunk_size_in' : triple Z) (last_chunk : string)
  : io (triple Z) :=
  let volume_size := digit_runs (before_dot last_chunk) None in
  (chunk_size_in' <~ lift (int64_triple chunk_size_in') ;;
   volume_size <~ lift (int64_list volume_size) ;;
   k <~ lift (broadcast3 volume_size) ;;
   let prod := T3 (wrap64 (p0 chunk_size_in' * p0 k))
                  (wrap64 (p1 chunk_size_in' * p1 k))
                  (wrap64 (p2 chunk_size_in' * p2 k)) in
   volume <~ read_volume last_chunk ;;
   ret (T3 (wrap64 (p0 prod + p0 (shape volume)))
           (wrap64 (p1 prod + p1 (shape volume)))
           (wrap64 (p2 prod + p2 (shape volume)))))%io.

(** ** The coordinator: [convert_chunked_volume] *)

Record state : Type := St
  { st_vi : volume_information; st_ci : chunk_information; st_data : buffers }.

(** Lines 247 to 261 of [convert_chunked_volume]: the input chunks are
    loaded and the output buffer is filled, in one or in two passes along
    axis 2.  The dividend of [//] is a numpy integer: the quotient is rounded
    down, and is 0 when [thread_count] is 0, as [/] on [Z]. *)
Definition assemble_chunk (chunk_size_in' chunk_size_out' : triple Z)
    (thread_count : Z) (ci : chunk_information) (vi : volume_information)
    (data : buffers) : io (chunk_information * buffers * ndarray) :=
  (r <~ load_chunks ci vi data ;;
   let '(ci, data) := r in
   stitched_chunk <~ lift (np_empty (chunk_size_out vi)) ;;
   let elements_in_first_chunk :=
     Z.min (p2 chunk_size_in' - p2 (start_element ci)) (p2 chunk_size_out') in
   let slices_per_thread := elements_in_first_chunk / thread_count in
   stitched_chunk <~ launch_threads ci vi (- p2 (start_element ci))
                       (p2 (start_element ci)) elements_in_first_chunk
                       slices_per_thread thread_count stitched_chunk data ;;
   if elements_in_first_chunk <? p2 (chunk_size_out vi) then
     (* need another chunk in x dim, also increase chunk_index in x dim *)
     let ci := with_chunk_index ci
                 (tset (chunk_index ci) A2 (p2 (chunk_index ci) + 1)) in
     r <~ load_chunks ci vi data ;;
     let '(ci, data) := r in
     let elements_in_second_chunk :=
       p2 chunk_size_out' - elements_in_first_chunk in
     let slices_per_thread := elements_in_second_chunk / thread_count in
     stitched_chunk <~ launch_threads ci vi elements_in_first_chunk 0
                         elements_in_second_chunk slices_per_thread
                         thread_count stitched_chunk data ;;
     ret (ci, data, stitched_chunk)
   else ret (ci, data, stitched_chunk))%io.

(** The body of the loop over [x]. *)
Definition x_body (chunk_size_in' chunk_size_out' : triple Z) (thread_count : Z)
    (z y x : Z) (s : state) : io state :=
  let '(ci, vi) := get_indices (st_ci s) (st_vi s) A2 in
  let ci :=
    if p0 (stitch ci) && p1 (stitch ci)
    then let n := chunks_needed ci in
         with_chunks_needed ci (Q4 (q0 n) (q1 n) (q2 n) true)
    else ci in
  (r <~ assemble_chunk chunk_size_in' chunk_size_out' thread_count ci vi
          (st_data s) ;;
   let '(ci, data, stitched_chunk) := r in
   let stitched_chunk := swapaxes02 stitched_chunk in
   path <~ lift (formatted (path_out_format vi) (x / p2 chunk_size_out')
                   (y / p1 chunk_size_out') (z / p0 chunk_size_out')) ;;
   write_volume stitched_chunk path ;;
   let vi := with_chunk_size_out vi
               (tset (chunk_size_out vi) A2 (p2 chunk_size_out')) in
   let etr := p2 (elements_to_read vi) in
   let vi :=
     if (etr <? p2 chunk_size_out') && (0 <? etr)
     then with_chunk_size_out vi (tset (chunk_size_out vi) A2 etr)
     else vi in
   ret (St vi ci data))%io.

(** The body of the loop over [y]. *)
Definition y_body (chunk_size_in' chunk_size_out' volume_dim' : triple Z)
    (thread_count : Z) (z y : Z) (s : state) : io state :=
  let ci := st_ci s in
  let ci := with_chunk_index ci (tset (chunk_index ci) A2 1) in
  let ci := with_end_element ci (tset (end_element ci) A2 0) in
  let '(ci, vi) := get_indices ci (st_vi s) A1 in
  let ci :=
    if p1 (stitch ci)
    then let n := chunks_needed ci in
         with_chunks_needed ci (Q4 (q0 n) true (q2 n) (q3 n))
    else ci in
  (xs <~ lift (py_range 0 (p2 volume_dim') (p2 chunk_size_out')) ;;
   s <~ for_each xs (x_body chunk_size_in' chunk_size_out' thread_count z y)
          (St vi ci (st_data s)) ;;
   let '(vi, ci) := update_and_reset_params (st_vi s) (st_ci s) A1
                      chunk_size_out' volume_dim' in
   ret (St vi ci (st_data s)))%io.

(** The body of the loop over [z]. *)
Definition z_body (chunk_size_in' chunk_size_out' volume_dim' : triple Z)
    (thread_count : Z) (z : Z) (s : state) : io state :=
  let ci := st_ci s in
  let ci := with_chunk_index ci (tset (chunk_index ci) A1 1) in
  let ci := with_end_element ci (tset (end_element ci) A1 0) in
  let '(ci, vi) := get_indices ci (st_vi s) A0 in
  let ci :=
    if p0 (stitch ci)
    then let n := chunks_needed ci in
         with_chunks_needed ci (Q4 (q0 n) (q1 n) true (q3 n))
    else ci in
  (ys <~ lift (py_range 0 (p1 volume_dim') (p1 chunk_size_out')) ;;
   s <~ for_each ys (y_body chunk_size_in' chunk_size_out' volume_dim' thread_count z)
          (St vi ci (st_data s)) ;;
   let '(vi, ci) := update_and_reset_params (st_vi s) (st_ci s) A0
                      chunk_size_out' volume_dim' in
   ret (St vi ci (st_data s)))%io.

(** [convert_chunked_volume]; [chunk_size_in'] and [chunk_size_out'] are the
    caller's tuples. *)
Definition convert_chunked_volume (path_in_format' : string)
    (chunk_size_in' : triple Z) (last_chunk : string) (path_out_format' : string)
    (chunk_size_out' : triple Z) (thread_count : Z) : io unit :=
  (volume_dim' <~ calculate_volume_dim chunk_size_in' last_chunk ;;
   (* first and last dimension is swapped *)
   let chunk_size_out' := trev chunk_size_out' in
   let chunk_size_in' := trev chunk_size_in' in
   let volume_dim' := trev volume_dim' in
   if negb (is_volume_conversion_valid chunk_size_in' chunk_size_out' volume_dim')
   then raise ConversionNotValid
   else
     let vi := VI path_in_format' chunk_size_in' volume_dim' path_out_format'
                  chunk_size_out' volume_dim' in
     let ci := CI (T3 1 1 1) (T3 0 0 0) (T3 0 0 0) (T3 false false false)
                  (Q4 false false false false) in
     let data : buffers := Q4 None None None None in
     zs <~ lift (py_range 0 (p0 volume_dim') (p0 chunk_size_out')) ;;
     for_each zs (z_body chunk_size_in' chunk_size_out' volume_dim' thread_count)
       (St vi ci data) ;;
     ret tt)%io.

(** ** [write_chunked_volume] *)

Definition write_chunked_volume (volume : ndarray) (path_out_format' : string)
    (chunk_size : triple Z) : io unit :=
  (count <~ lift (get_format_key_count path_out_format') ;;
   if negb (count =? 1) then raise FormatKeyCount
   else
     let sh := shape volume in
     zs <~ lift (py_range 0 (p0 sh) (p0 chunk_size)) ;;
     for_each zs
       (fun z (_ : unit) =>
          ys <~ lift (py_range 0 (p1 sh) (p1 chunk_size)) ;;
          for_each ys
            (fun y (_ : unit) =>
               xs <~ lift (py_range 0 (p2 sh) (p2 chunk_size)) ;;
               for_each xs
                 (fun x (_ : unit) =>
                    (* the path printed, then the path written *)
                    lift (formatted path_out_format' (x / p2 chunk_size)
                            (y / p1 chunk_size) (z / p0 chunk_size)) ;;
                    path <~ lift (formatted path_out_format' (x / p2 chunk_size)
                                    (y / p1 chunk_size) (z / p0 chunk_size)) ;;
                    write_volume
                      (nd_slice volume
                         (span z (Z.min (p0 sh) (z + p0 chunk_size)))
                         (span y (Z.min (p1 sh) (y + p1 chunk_size)))
                         (span x (Z.min (p2 sh) (x + p2 chunk_size))))
                      path)
                 tt)
            tt)
       tt)%io.

End Converter.

(** ** A concrete [str.format] for the chunk file names

    [format_plain] covers the replacement fields that chunk file names use:
    [{}] (numbered automatically) and [{0}], [{1}], [{2}], each without format
    specification and without conversion, on three integer arguments. *)

Definition str_of_int (z : Z) : string := NilZero.string_of_int (Z.to_int z).

Definition arg_of (a b c : Z) (n : nat) : option Z :=
  match n with
  | 0%nat => Some a
  | 1%nat => Some b
  | 2%nat => Some c
  | _ => None
  end.

(** [auto] is the number of the next automatically numbered field, [None]
    once a field was numbered by hand; [seen] tells whether a field was read
    already.  Python refuses to mix the two numberings. *)
Fixpoint render (a b c : Z) (l : list parsed) (auto : option nat) (seen : bool)
  : option string :=
  match l with
  | [] => Some EmptyString
  | t :: r =>
      match field_name t, format_spec t, conversion t with
      | None, _, _ =>
          match render a b c r auto seen with
          | Some s => Some (literal_text t ++ s)%string
          | None => None
          end
      | Some EmptyString, Some EmptyString, None =>
          match auto with
          | None => None
          | Some n =>
              match arg_of a b c n, render a b c r (Some (S n)) true with
              | Some v, Some s => Some (literal_text t ++ str_of_int v ++ s)%string
              | _, _ => None
              end
          end
      | Some (String d EmptyString), Some EmptyString, None =>
          if is_digit d then
            match auto, seen with
            | Some _, true => None
            | _, _ =>
                match arg_of a b c (Z.to_nat (digit_val d)),
                      render a b c r None true with
                | Some v, Some s => Some (literal_text t ++ str_of_int v ++ s)%string
                | _, _ => None
                end
            end
          else None
      | _, _, _ => None
      end
  end.

Definition format_plain (fmt : string) (a b c : Z) : option string :=
  match formatter_parse fmt with
  | Raise _ => None
  | Ok l => render a b c l (Some 0%nat) false
  end.

(** Running a computation on a store, with an empty log. *)
Definition run {A} (m : io A) (d : list (string * ndarray)) : result A * world :=
  m (W d []).

(** The cells of the file at [path], if there is one. *)
Definition file_view (w : world) (path : string)
  : option (triple Z * list (list (list cell))) :=
  option_map nd_view (lookup path (disk w)).

(** ** The vocabulary of the properties *)

(** [rquiet r], [quiet m]: the configuration error is not raised. *)
Definition rquiet {A} (r : result A) : Prop := r <> Raise ConversionNotValid.

Definition quiet {A} (m : io A) : Prop :=
  forall w, fst (m w) <> Raise ConversionNotValid.

(** The files, by the [x], [y], [z] put into the format string, that
    [__load_chunks] asks for. *)
Definition fetched_files (ci : chunk_information) : list (Z * Z * Z) :=
  let x := p2 (chunk_index ci) - 1 in
  let y := p1 (chunk_index ci) - 1 in
  let z := p0 (chunk_index ci) - 1 in
  [(x, y, z)]
  ++ (if q1 (chunks_needed ci) then [(x, y + 1, z)] else [])
  ++ (if q2 (chunks_needed ci) then [(x, y, z + 1)] else [])
  ++ (if q3 (chunks_needed ci) then [(x, y + 1, z + 1)] else []).


Definition file_path (str_format : string -> Z -> Z -> Z -> option string)
    (fmt : string) (f : Z * Z * Z) : option string :=
  str_format fmt (fst (fst f)) (snd (fst f)) (snd f).

(** The [(start, end)] pairs handed to the threads [idxs] by the loop of
    [__launch_threads], [r] being the pair of the first of them. *)
Fixpoint thread_ranges (slices_per_thread remainder : Z) (idxs : list Z)
    (r : Z * Z) : list (Z * Z) :=
  match idxs with
  | [] => []
  | k :: ks =>
      r :: thread_ranges slices_per_thread remainder ks
             (next_range slices_per_thread remainder k r)
  end.

(** The events of starting the threads [idxs] on the ranges [rs]. *)
Definition starts (offset : Z) (idxs : list Z) (rs : list (Z * Z)) : list event :=
  map (fun p => EvStart (fst p) (fst (snd p)) (snd (snd p)) offset) (combine idxs rs).



(** [chained a rs b]: the half-open ranges [rs] follow one another without
    gap or overlap, from [a] to [b]. *)
Fixpoint chained (a : Z) (rs : list (Z * Z)) (b : Z) : Prop :=
  match rs with
  | [] => a = b
  | (s, e) :: rs' => s = a /\ s <= e /\ chained e rs' b
  end.

(** The bounds of thread [k] in closed form. *)
Definition start_of (gs q r k : Z) : Z := gs + k * q + Z.min (Z.max (k - 1) 0) r.

Definition stop_of (gs q r k : Z) : Z := gs + (k + 1) * q + Z.min k r.

(** The extent of the volume as the specification words it: per axis,
    [chunk_size_in * last_chunk_index + shape(last_chunk)], in ZYX order.  The
    chunk size and the chunk index come in the XYZ order of the caller and of
    the file name, the shape in the ZYX order of the buffer. *)
Definition volume_dim_zyx (chunk_size_xyz index_xyz shape_zyx : triple Z) : triple Z :=
  T3 (p2 chunk_size_xyz * p2 index_xyz + p0 shape_zyx)
     (p1 chunk_size_xyz * p1 index_xyz + p1 shape_zyx)
     (p0 chunk_size_xyz * p0 index_xyz + p2 shape_zyx).

(** ** Volumes used in the examples *)

(** One chunk of 2 x 2 x 2 voxels; the voxel at [z, y, x] holds [4z + 2y + x]. *)
Definition cube : ndarray := nd_of_lists [[[0; 1]; [2; 3]]; [[4; 5]; [6; 7]]].

Definition disk_cube : list (string * ndarray) := [("in/x0y0z0.raw"%string, cube)].

(** The same volume in eight chunks of one voxel. *)
Definition disk_voxels : list (string * ndarray) :=
  [("mid/x0y0z0.raw"%string, nd_of_lists [[[0]]]);
   ("mid/x1y0z0.raw"%string, nd_of_lists [[[1]]]);
   ("mid/x0y1z0.raw"%string, nd_of_lists [[[2]]]);
   ("mid/x1y1z0.raw"%string, nd_of_lists [[[3]]]);
   ("mid/x0y0z1.raw"%string, nd_of_lists [[[4]]]);
   ("mid/x1y0z1.raw"%string, nd_of_lists [[[5]]]);
   ("mid/x0y1z1.raw"%string, nd_of_lists [[[6]]]);
   ("mid/x1y1z1.raw"%string, nd_of_lists [[[7]]])].

(** A volume of 1 x 1 x 10 voxels in chunks of three voxels along [x]; the
    last chunk holds the one voxel that is left. *)
Definition disk_row : list (string * ndarray) :=
  [("in/x0y0z0.raw"%string, nd_of_lists [[[10; 11; 12]]]);
   ("in/x1y0z0.raw"%string, nd_of_lists [[[13; 14; 15]]]);
   ("in/x2y0z0.raw"%string, nd_of_lists [[[16; 17; 18]]]);
   ("in/x3y0z0.raw"%string, nd_of_lists [[[19]]])].

(** A chunk of 32 x 32 x 32 voxels. *)
Definition disk_32 : list (string * ndarray) :=
  [("in/x0y0z0.raw"%string, Nd (T3 32 32 32) (fun _ _ _ => Some 0))].

(** The second of two chunks of 2 x 2 x 2 voxels along [x]. *)
Definition disk_pair : list (string * ndarray) := [("in/x1y0z0.raw"%string, cube)].

(** The state in which the chunk [x0y0z0] of 2 x 2 x 2 voxels is assembled
    from [disk_voxels]. *)
Definition vi_voxels : volume_information :=
  VI "mid/x{}y{}z{}.raw" (T3 1 1 1) (T3 2 2 2) "out/x{}y{}z{}.raw" (T3 2 2 2) (T3 1 1 1).

Definition ci_voxels : chunk_information :=
  CI (T3 1 1 1) (T3 0 0 0) (T3 1 1 1) (T3 true true true) (Q4 false true true true).

(** The round trip from chunks of size [a] to chunks of size [b] and back. *)
Definition round_trip (a b : triple Z) (last_in last_mid : string)
    (thread_count : Z) : io unit :=
  (convert_chunked_volume format_plain "in/x{}y{}z{}.raw" a last_in
     "mid/x{}y{}z{}.raw" b thread_count ;;
   convert_chunked_volume format_plain "mid/x{}y{}z{}.raw" b last_mid
     "out/x{}y{}z{}.raw" a thread_count)%io.

(** ** The vocabulary of the further properties *)

(** The place on the axis [d] up to which the input was read: the elements of
    the chunks before the current one, and [end_element] in the current
    one. *)
Definition position (ci : chunk_information) (vi : volume_information) (d : axis) : Z :=
  (tget (chunk_index ci) d - 1) * tget (chunk_size_in vi) d + tget (end_element ci) d.

(** The cell at [i, j] of the slice that [__get_slice_zy] assembles at
    [idx]. *)
Definition slice_cell (ci : chunk_information) (vi : volume_information)
    (data : buffers) (idx i j : Z) : cell :=
  match get_slice_zy ci vi data idx with
  | Ok p => pitem p i j
  | Raise _ => None
  end.

(** [flags_agree ci]: where [chunks_needed] asks for the neighbour along
    axis 1 or along axis 0, [stitch] is set on that axis. *)
Definition flags_agree (ci : chunk_information) : Prop :=
  (q1 (chunks_needed ci) = true -> p1 (stitch ci) = true)
  /\ (q2 (chunks_needed ci) = true -> p0 (stitch ci) = true).

(** [keeps I m]: [m] does not raise the exception of [__load_next_chunk], and
    what it returns satisfies [I]. *)
Definition keeps {A} (I : A -> Prop) (m : io A) : Prop :=
  forall w,
    fst (m w) <> Raise StitchNotSet
    /\ forall a w', m w = (Ok a, w') -> I a.

(** The flags that [flags_agree] reads. *)
Definition same_flags (ci ci' : chunk_information) : Prop :=
  stitch ci' = stitch ci /\ chunks_needed ci' = chunks_needed ci.

(** The paths that [write_volume] was called with, in the order of the
    log. *)
Definition written (l : list event) : list string :=
  flat_map (fun e => match e with EvWrite p => [p] | _ => [] end) l.

(** [writes I m expect]: when [m] returns normally, what it returns satisfies
    [I] and the paths it has called [write_volume] with are [expect], in this
    order. *)
Definition writes {A} (I : A -> Prop) (m : io A) (expect : list (option string))
  : Prop :=
  forall w a w',
    m w = (Ok a, w') ->
    I a /\ exists ps, map Some ps = expect /\ written (log w') = written (log w) ++ ps.

(** The number of cells of a grid along an axis of extent [d], with chunks of
    size [c]. *)
Definition cells (d c : Z) : Z := (d + c - 1) / c.

(** The cells of a grid of [nx] by [ny] by [nz] chunks, by their [x], [y],
    [z], with [z] slowest. *)
Definition grid_files (nx ny nz : Z) : list (Z * Z * Z) :=
  flat_map (fun k => flat_map (fun j => map (fun i => (i, j, k)) (range0 nx))
                       (range0 ny))
    (range0 nz).

(** A string without braces. *)
Fixpoint brace_free (s : string) : bool :=
  match s with
  | EmptyString => true
  | String c r => negb (Ascii.eqb c "{" || Ascii.eqb c "}") && brace_free r
  end.

(** The keys among the tuples of the scanner. *)
Definition keys (l : list parsed) : nat :=
  List.length (filter (fun f => is_some (format_spec f)) l).

(** ** Further data for the examples *)

(** A volume of 6 x 6 x 6 voxels in chunks of 3, to be cut in chunks of 2,
    and the tracker after the first output chunk along axis 0. *)
Definition vi_3to2 : volume_information :=
  VI "in/x{}y{}z{}.raw" (T3 3 3 3) (T3 6 6 6) "out/x{}y{}z{}.raw" (T3 2 2 2) (T3 4 6 6).

Definition ci_3to2 : chunk_information :=
  CI (T3 1 1 1) (T3 0 0 0) (T3 2 0 0) (T3 false false false)
     (Q4 false false false false).

(** Chunks of 2 x 2 x 2 voxels, in and out. *)
Definition vi_cubes (cout : triple Z) : volume_information :=
  VI "in/x{}y{}z{}.raw" (T3 2 2 2) (T3 4 4 4) "out/x{}y{}z{}.raw" cout (T3 4 4 4).

Definition ci_cubes (s e : triple Z) (st : triple bool) : chunk_information :=
  CI (T3 1 1 1) s e st (Q4 false false false false).

Definition four_cubes : buffers := Q4 (Some cube) (Some cube) (Some cube) (Some cube).

(** Chunks of 4 x 4 x 1 voxels, cut in chunks of 5 x 4 x 1. *)
Definition flat4 : ndarray := Nd (T3 4 4 1) (fun _ _ _ => Some 0).

Definition vi_flat : volume_information :=
  VI "in/x{}y{}z{}.raw" (T3 4 4 1) (T3 8 8 1) "out/x{}y{}z{}.raw" (T3 5 4 1) (T3 8 8 1).

Definition ci_flat : chunk_information :=
  CI (T3 1 1 1) (T3 2 2 0) (T3 3 2 1) (T3 true true false)
     (Q4 false true true true).


(** An array of 1 x 2 x 3 cells. *)
Definition slab : ndarray := nd_of_lists [[[0; 1; 2]; [3; 4; 5]]].

(** * Properties *)

(** ** Which exceptions a computation can raise *)

Lemma quiet_ret {A} (a : A) : quiet (ret a).
Proof. intros w; cbn; discriminate. Qed.

Lemma quiet_raise {A} (e : exn) : e <> ConversionNotValid -> quiet (@raise A e).
Proof. intros H w; cbn; congruence. Qed.

Lemma quiet_lift {A} (r : result A) : rquiet r -> quiet (lift r).
Proof. intros H w; exact H. Qed.

Lemma quiet_bind {A B} (m : io A) (k : A -> io B) :
  quiet m -> (forall a, quiet (k a)) -> quiet (bind m k).
Proof.
  intros Hm Hk w. unfold bind. specialize (Hm w).
  destruct (m w) as [[a|e] w']; cbn in *.
  - apply Hk.
  - intros E; apply Hm; congruence.
Qed.

Lemma quiet_emit e : quiet (emit e).
Proof. intros w; cbn; discriminate. Qed.

Lemma quiet_read_volume path : quiet (read_volume path).
Proof. intros w; unfold read_volume; destruct (lookup path (disk w)); cbn; discriminate. Qed.

(** [write_volume] returns, or raises an exception of [converter.py]; the
    call is in the log either way. *)
Lemma write_volume_cases v path w :
  (exists e, write_volume v path w
             = (Raise (ConverterError e), W (disk w) (log w ++ [EvWrite path])))
  \/ (exists d, write_volume v path w = (Ok tt, W d (log w ++ [EvWrite path]))).
Proof.
  unfold write_volume.
  destruct (List.length (map lower (path_suffixes path)) =? 0)%nat; [left; eauto|].
  destruct (select_writer (map lower (path_suffixes path))) as [wr|]; [|left; eauto].
  destruct (run_writer wr path) as [e|u]; [left; eauto|right; eauto].
Qed.

Lemma quiet_write_volume v path : quiet (write_volume v path).
Proof.
  intros w. destruct (write_volume_cases v path w) as [[e E]|[d E]];
    rewrite E; cbn; discriminate.
Qed.

Lemma quiet_for_each {S} (l : list Z) (body : Z -> S -> io S) :
  (forall x s, quiet (body x s)) -> forall s, quiet (for_each l body s).
Proof.
  intros Hb. induction l as [|x r IH]; intros s; cbn [for_each].
  - apply quiet_ret.
  - apply quiet_bind; [apply Hb | exact IH].
Qed.

Lemma rquiet_np_empty s : rquiet (np_empty s).
Proof. unfold rquiet, np_empty; destruct (nonneg3 s); discriminate. Qed.

Lemma rquiet_np_zeros s : rquiet (np_zeros s).
Proof. unfold rquiet, np_zeros; destruct (nonneg3 s); discriminate. Qed.

Lemma rquiet_nd_assign d s0 s1 s2 s : rquiet (nd_assign d s0 s1 s2 s).
Proof. unfold rquiet, nd_assign. match goal with |- context [if ?b then _ else _] => destruct b end; discriminate. Qed.

Lemma rquiet_py_range a b c : rquiet (py_range a b c).
Proof. unfold rquiet, py_range; destruct (c =? 0); discriminate. Qed.

Lemma rquiet_formatted f fmt a b c : rquiet (formatted f fmt a b c).
Proof. unfold rquiet, formatted; destruct (f fmt a b c); discriminate. Qed.

Lemma rquiet_broadcast3 l : rquiet (broadcast3 l).
Proof. unfold rquiet. destruct l as [|a [|b [|c [|d l]]]]; cbn; discriminate. Qed.

Ltac quiet_step :=
  match goal with
  | |- quiet (ret _) => apply quiet_ret
  | |- quiet (bind _ _) => apply quiet_bind; [|intros]
  | |- quiet (emit _) => apply quiet_emit
  | |- quiet (read_volume _) => apply quiet_read_volume
  | |- quiet (write_volume _ _) => apply quiet_write_volume
  | |- quiet (raise _) => apply quiet_raise; discriminate
  | |- quiet (for_each _ _ _) => apply quiet_for_each; intros
  | |- quiet (lift _) => apply quiet_lift
  | |- rquiet (np_empty _) => apply rquiet_np_empty
  | |- rquiet (np_zeros _) => apply rquiet_np_zeros
  | |- rquiet (nd_assign _ _ _ _ _) => apply rquiet_nd_assign
  | |- rquiet (py_range _ _ _) => apply rquiet_py_range
  | |- rquiet (formatted _ _ _ _ _) => apply rquiet_formatted
  | |- rquiet (broadcast3 _) => apply rquiet_broadcast3
  | |- quiet (if ?b then _ else _) => destruct b
  | |- quiet (let '(_, _) := ?p in _) => destruct p
  | |- quiet (match ?p with _ => _ end) => destruct p
  end.

Section ExceptionFacts.
Variable str_format : string -> Z -> Z -> Z -> option string.

Lemma quiet_read_tmp_chunk_zy ci vi : quiet (read_tmp_chunk_zy str_format ci vi).
Proof. unfold read_tmp_chunk_zy. repeat quiet_step. Qed.

Lemma quiet_load_next_chunk ci vi d : quiet (load_next_chunk str_format ci vi d).
Proof.
  unfold load_next_chunk. destruct (tget (stitch ci) d).
  - apply quiet_bind; [apply quiet_read_tmp_chunk_zy | intros; apply quiet_ret].
  - apply quiet_raise; discriminate.
Qed.

Lemma quiet_load_chunks ci vi data : quiet (load_chunks str_format ci vi data).
Proof.
  unfold load_chunks, load_current_chunk.
  repeat first [apply quiet_read_tmp_chunk_zy | apply quiet_load_next_chunk | quiet_step].
Qed.

Lemma quiet_launch_threads ci vi off gs ge spt t st data :
  quiet (launch_threads ci vi off gs ge spt t st data).
Proof. unfold launch_threads, launch_body. repeat quiet_step. Qed.

Lemma quiet_assemble_chunk cin cout t ci vi data :
  quiet (assemble_chunk str_format cin cout t ci vi data).
Proof.
  unfold assemble_chunk.
  repeat first [apply quiet_load_chunks | apply quiet_launch_threads | quiet_step].
Qed.

Lemma quiet_x_body cin cout t z y x s : quiet (x_body str_format cin cout t z y x s).
Proof.
  unfold x_body.
  repeat first [apply quiet_assemble_chunk | quiet_step].
Qed.

Lemma quiet_y_body cin cout vd t z y s : quiet (y_body str_format cin cout vd t z y s).
Proof.
  unfold y_body.
  repeat first [apply quiet_x_body | quiet_step].
Qed.

Lemma quiet_z_body cin cout vd t z s : quiet (z_body str_format cin cout vd t z s).
Proof.
  unfold z_body.
  repeat first [apply quiet_y_body | quiet_step].
Qed.

End ExceptionFacts.

(** ** The configuration check *)

Lemma tany_true f a b :
  tany f a b = true <-> exists d, f (tget a d) (tget b d) = true.
Proof.
  unfold tany. rewrite !orb_true_iff. split.
  - intros [[H|H]|H]; [exists A0 | exists A1 | exists A2]; exact H.
  - intros [[| |] H]; cbn in H; auto.
Qed.

(** The doubling of [chunk_size_in] is exact from [- 2^62] up to [2^62]. *)
Lemma wrap64_int64 z : int64 z = true -> wrap64 z = z.
Proof.
  unfold int64, wrap64. intros H. apply andb_prop in H. destruct H as [L U].
  apply Z.leb_le in L. apply Z.ltb_lt in U.
  rewrite Z.mod_small by lia. lia.
Qed.

Lemma wrap64_double c :
  - 4611686018427387904 <= c < 4611686018427387904 -> wrap64 (c * 2) = c * 2.
Proof.
  intros H. apply wrap64_int64. unfold int64.
  apply andb_true_intro. split; [apply Z.leb_le|apply Z.ltb_lt]; lia.
Qed.

Lemma wrap64_add_l a b : wrap64 (wrap64 a + b) = wrap64 (a + b).
Proof.
  unfold wrap64. f_equal.
  replace ((a + 9223372036854775808) mod 18446744073709551616 - 9223372036854775808
           + b + 9223372036854775808)
    with ((a + 9223372036854775808) mod 18446744073709551616 + b) by lia.
  rewrite Zplus_mod_idemp_l. f_equal. lia.
Qed.

Lemma is_volume_conversion_valid_true cin cout vd :
  is_volume_conversion_valid cin cout vd = true <->
  forall d, tget cout d <= wrap64 (tget cin d * 2) /\ tget vd d >= tget cout d.
Proof.
  unfold is_volume_conversion_valid. split.
  - intros H d.
    destruct (tany (fun i o => wrap64 (i * 2) <? o) cin cout) eqn:E1; [discriminate|].
    destruct (tany Z.ltb vd cout) eqn:E2; [discriminate|].
    split.
    + destruct (Z.ltb_spec (wrap64 (tget cin d * 2)) (tget cout d)) as [L|L]; [|lia].
      assert (X : tany (fun i o => wrap64 (i * 2) <? o) cin cout = true).
      { apply tany_true. exists d. apply Z.ltb_lt. exact L. }
      congruence.
    + destruct (Z.ltb_spec (tget vd d) (tget cout d)) as [L|L]; [|lia].
      assert (X : tany Z.ltb vd cout = true).
      { apply tany_true. exists d. apply Z.ltb_lt. exact L. }
      congruence.
  - intros H.
    destruct (tany (fun i o => wrap64 (i * 2) <? o) cin cout) eqn:E1.
    { apply tany_true in E1. destruct E1 as [d E1]. apply Z.ltb_lt in E1.
      specialize (H d). lia. }
    destruct (tany Z.ltb vd cout) eqn:E2; [|reflexivity].
    apply tany_true in E2. destruct E2 as [d E2]. apply Z.ltb_lt in E2.
    specialize (H d). lia.
Qed.

Lemma is_volume_conversion_valid_false cin cout vd :
  is_volume_conversion_valid cin cout vd = false <->
  exists d, tget cout d > wrap64 (tget cin d * 2) \/ tget vd d < tget cout d.
Proof.
  unfold is_volume_conversion_valid. split.
  - destruct (tany (fun i o => wrap64 (i * 2) <? o) cin cout) eqn:E1.
    { intros _. apply tany_true in E1. destruct E1 as [d E1]. apply Z.ltb_lt in E1.
      exists d. lia. }
    destruct (tany Z.ltb vd cout) eqn:E2; [|discriminate].
    intros _. apply tany_true in E2. destruct E2 as [d E2]. apply Z.ltb_lt in E2.
    exists d. lia.
  - intros [d H].
    destruct (tany (fun i o => wrap64 (i * 2) <? o) cin cout) eqn:E1; [reflexivity|].
    destruct (tany Z.ltb vd cout) eqn:E2; [reflexivity|]. exfalso.
    destruct H as [H|H].
    + assert (X : tany (fun i o => wrap64 (i * 2) <? o) cin cout = true).
      { apply tany_true. exists d. apply Z.ltb_lt. lia. }
      congruence.
    + assert (X : tany Z.ltb vd cout = true).
      { apply tany_true. exists d. apply Z.ltb_lt. lia. }
      congruence.
Qed.

Section ConfigurationFacts.
Variable str_format : string -> Z -> Z -> Z -> option string.

(** What [__calculate_volume_dim] does to the store and the log. *)
Lemma calculate_volume_dim_ok cin last w vd w' :
  calculate_volume_dim cin last w = (Ok vd, w') ->
  w' = W (disk w) (log w ++ [EvRead last]).
Proof.
  unfold calculate_volume_dim, bind, lift, read_volume, ret.
  destruct (int64_triple _); [|discriminate].
  destruct (int64_list _); [|discriminate].
  destruct (broadcast3 _); [|discriminate].
  destruct (lookup last (disk w)); [|discriminate].
  intros E; inversion E; reflexivity.
Qed.

Lemma rquiet_int64_triple t : rquiet (int64_triple t).
Proof.
  unfold rquiet, int64_triple.
  match goal with |- context [if ?b then _ else _] => destruct b end; discriminate.
Qed.

Lemma rquiet_int64_list l : rquiet (int64_list l).
Proof. unfold rquiet, int64_list. destruct (forallb int64 l); discriminate. Qed.

Lemma quiet_calculate_volume_dim cin last : quiet (calculate_volume_dim cin last).
Proof.
  unfold calculate_volume_dim.
  repeat first [apply quiet_lift; first [apply rquiet_int64_triple | apply rquiet_int64_list]
               | quiet_step].
Qed.

(** The three ways [convert_chunked_volume] can go. *)
Lemma convert_chunked_volume_cases pin cin last pout cout t w :
  match calculate_volume_dim cin last w with
  | (Raise e, w') =>
      convert_chunked_volume str_format pin cin last pout cout t w = (Raise e, w')
  | (Ok vd, w') =>
      if is_volume_conversion_valid (trev cin) (trev cout) (trev vd)
      then fst (convert_chunked_volume str_format pin cin last pout cout t w)
           <> Raise ConversionNotValid
      else convert_chunked_volume str_format pin cin last pout cout t w
           = (Raise ConversionNotValid, w')
  end.
Proof.
  assert (E : convert_chunked_volume str_format pin cin last pout cout t w =
    match calculate_volume_dim cin last w with
    | (Ok vd, w') =>
        (if negb (is_volume_conversion_valid (trev cin) (trev cout) (trev vd))
         then raise ConversionNotValid
         else bind (lift (py_range 0 (p0 (trev vd)) (p0 (trev cout))))
           (fun zs => bind
             (for_each zs (z_body str_format (trev cin) (trev cout) (trev vd) t)
               (St (VI pin (trev cin) (trev vd) pout (trev cout) (trev vd))
                   (CI (T3 1 1 1) (T3 0 0 0) (T3 0 0 0) (T3 false false false)
                       (Q4 false false false false))
                   (Q4 None None None None)))
             (fun _ => ret tt))) w'
    | (Raise e, w') => (Raise e, w')
    end) by reflexivity.
  destruct (calculate_volume_dim cin last w) as [[vd|e] w']; [|exact E].
  destruct (is_volume_conversion_valid (trev cin) (trev cout) (trev vd));
    cbn [negb] in E.
  - rewrite E.
    assert (Q : quiet
      (bind (lift (py_range 0 (p0 (trev vd)) (p0 (trev cout))))
        (fun zs => bind
           (for_each zs (z_body str_format (trev cin) (trev cout) (trev vd) t)
              (St (VI pin (trev cin) (trev vd) pout (trev cout) (trev vd))
                  (CI (T3 1 1 1) (T3 0 0 0) (T3 0 0 0) (T3 false false false)
                      (Q4 false false false false))
                  (Q4 None None None None)))
           (fun _ => ret tt)))).
    { repeat first [apply quiet_z_body | quiet_step]. }
    apply Q.
  - exact E.
Qed.

End ConfigurationFacts.


(** ** The chunk fetcher *)

Lemma with_chunk_index_same ci v :
  with_chunk_index (with_chunk_index ci v) (chunk_index ci) = ci.
Proof. destruct ci; reflexivity. Qed.

Lemma shift_one a : a + 1 - 1 = a - 1 + 1.
Proof. lia. Qed.

Section FetcherFacts.
Variable str_format : string -> Z -> Z -> Z -> option string.

Lemma read_tmp_chunk_zy_ok ci vi w a w' :
  read_tmp_chunk_zy str_format ci vi w = (Ok a, w') ->
  exists path,
    str_format (path_in_format vi) (p2 (chunk_index ci) - 1)
      (p1 (chunk_index ci) - 1) (p0 (chunk_index ci) - 1) = Some path
    /\ w' = W (disk w) (log w ++ [EvRead path]).
Proof.
  unfold read_tmp_chunk_zy, bind, lift, read_volume, formatted.
  destruct (np_zeros (chunk_size_in vi)); [|discriminate].
  destruct (str_format _ _ _ _) as [path|]; [|discriminate].
  destruct (lookup path (disk w)); [|discriminate].
  destruct (nd_assign _ _ _ _ _); [|discriminate].
  intros E; inversion E. exists path. split; reflexivity.
Qed.

Lemma load_next_chunk_ok ci vi d w a ci' w' :
  load_next_chunk str_format ci vi d w = (Ok (a, ci'), w') ->
  ci' = ci /\
  exists path,
    (let i := tset (chunk_index ci) d (tget (chunk_index ci) d + 1) in
     str_format (path_in_format vi) (p2 i - 1) (p1 i - 1) (p0 i - 1)) = Some path
    /\ w' = W (disk w) (log w ++ [EvRead path]).
Proof.
  unfold load_next_chunk. destruct (tget (stitch ci) d); [|discriminate].
  unfold bind.
  destruct (read_tmp_chunk_zy str_format _ vi w) as [[b|e] w1] eqn:E; [|discriminate].
  cbn. intros X; inversion X; subst. split.
  - apply with_chunk_index_same.
  - apply read_tmp_chunk_zy_ok in E. exact E.
Qed.

Lemma load_chunks_ok ci vi data w ci' data' w' :
  load_chunks str_format ci vi data w = (Ok (ci', data'), w') ->
  ci' = ci /\
  exists paths,
    map (file_path str_format (path_in_format vi)) (fetched_files ci) = map Some paths
    /\ w' = W (disk w) (log w ++ map EvRead paths).
Proof.
  unfold load_chunks, load_current_chunk, fetched_files.
  unfold bind at 1.
  destruct (read_tmp_chunk_zy str_format ci vi w) as [[d0|e] w0] eqn:E0; [|discriminate].
  apply read_tmp_chunk_zy_ok in E0. destruct E0 as (pa & Fa & ->).
  unfold bind at 1.
  destruct (q1 (chunks_needed ci)) eqn:N1;
    [ unfold bind at 1;
      destruct (load_next_chunk str_format ci vi A1 _) as [[[b1 c1]|e] w1] eqn:E1;
      [|discriminate];
      apply load_next_chunk_ok in E1; destruct E1 as (-> & pb & Fb & ->) | ];
    cbn [ret fst snd]; unfold bind at 1; rewrite ?N1;
    (destruct (q2 (chunks_needed ci)) eqn:N2;
     [ unfold bind at 1;
       destruct (load_next_chunk str_format ci vi A0 _) as [[[b2 c2]|e] w2] eqn:E2;
       [|discriminate];
       apply load_next_chunk_ok in E2; destruct E2 as (-> & pc & Fc & ->) | ]);
    cbn [ret fst snd];
    (destruct (q3 (chunks_needed ci)) eqn:N3;
     [ unfold bind at 1;
       destruct (read_tmp_chunk_zy str_format _ vi _) as [[d3|e] w3] eqn:E3;
       [|discriminate];
       apply read_tmp_chunk_zy_ok in E3; destruct E3 as (pd & Fd & ->) | ]);
    cbn; intros X; injection X; intros; subst ci' data' w';
    (split; [destruct ci; reflexivity|]);
    cbn in *;
    rewrite ?shift_one in *.
  - exists [pa; pb; pc; pd]. unfold file_path; cbn. rewrite Fa, Fb, Fc, Fd.
    split; [reflexivity | rewrite <- !app_assoc; reflexivity].
  - exists [pa; pb; pc]. unfold file_path; cbn. rewrite Fa, Fb, Fc.
    split; [reflexivity | rewrite <- !app_assoc; reflexivity].
  - exists [pa; pb; pd]. unfold file_path; cbn. rewrite Fa, Fb, Fd.
    split; [reflexivity | rewrite <- !app_assoc; reflexivity].
  - exists [pa; pb]. unfold file_path; cbn. rewrite Fa, Fb.
    split; [reflexivity | rewrite <- !app_assoc; reflexivity].
  - exists [pa; pc; pd]. unfold file_path; cbn. rewrite Fa, Fc, Fd.
    split; [reflexivity | rewrite <- !app_assoc; reflexivity].
  - exists [pa; pc]. unfold file_path; cbn. rewrite Fa, Fc.
    split; [reflexivity | rewrite <- !app_assoc; reflexivity].
  - exists [pa; pd]. unfold file_path; cbn. rewrite Fa, Fd.
    split; [reflexivity | rewrite <- !app_assoc; reflexivity].
  - exists [pa]. unfold file_path; cbn. rewrite Fa.
    split; reflexivity.
Qed.

End FetcherFacts.

(** ** The thread ranges *)

Lemma next_range_closed gs q r k :
  0 <= k ->
  next_range q r k (start_of gs q r k, stop_of gs q r k)
  = (start_of gs q r (k + 1), stop_of gs q r (k + 1)).
Proof.
  intros Hk. unfold next_range, start_of, stop_of. cbn [fst snd].
  destruct (Z.ltb_spec 0 k), (Z.ltb_spec (k - 1) r), (Z.ltb_spec k r);
    cbn [andb]; f_equal; lia.
Qed.

Lemma thread_ranges_closed gs q r m : forall k : nat,
  0 <= q -> 0 <= r ->
  let rs := thread_ranges q r (map Z.of_nat (seq k m))
              (start_of gs q r (Z.of_nat k), stop_of gs q r (Z.of_nat k)) in
  List.length rs = m
  /\ chained (start_of gs q r (Z.of_nat k)) rs (start_of gs q r (Z.of_nat (k + m)))
  /\ forall j a b, nth_error rs j = Some (a, b) ->
       b - a = q + (if (1 <=? Z.of_nat (k + j)) && (Z.of_nat (k + j) <=? r)
                    then 1 else 0).
Proof.
  induction m as [|m IH]; intros k Hq Hr; cbn [seq map thread_ranges].
  - cbn. split; [reflexivity|]. split.
    + rewrite Nat.add_0_r. reflexivity.
    + intros [|j] a b H; discriminate.
  - rewrite next_range_closed by lia.
    replace (Z.of_nat k + 1) with (Z.of_nat (S k)) by lia.
    specialize (IH (S k) Hq Hr). cbn zeta in IH. destruct IH as (L & C & N).
    split; [cbn [List.length]; rewrite L; reflexivity|]. split.
    + cbn [chained]. split; [reflexivity|]. split.
      * unfold start_of, stop_of. lia.
      * replace (k + S m)%nat with (S k + m)%nat by lia.
        replace (stop_of gs q r (Z.of_nat k)) with (start_of gs q r (Z.of_nat (S k))).
        { exact C. }
        unfold start_of, stop_of. lia.
    + intros [|j] a b H.
      * cbn [nth_error] in H. inversion H; subst. rewrite Nat.add_0_r.
        unfold start_of, stop_of.
        destruct (Z.leb_spec 1 (Z.of_nat k)), (Z.leb_spec (Z.of_nat k) r);
          cbn [andb]; lia.
      * cbn [nth_error] in H. apply N in H. replace (k + S j)%nat with (S k + j)%nat by lia.
        exact H.
Qed.

Lemma join_loop_log idxs : forall w,
  for_each idxs (fun thread_idx (_ : unit) => emit (EvJoin thread_idx)) tt w
  = (Ok tt, W (disk w) (log w ++ map EvJoin idxs)).
Proof.
  induction idxs as [|k ks IH]; intros w; cbn [for_each map].
  - cbn. rewrite app_nil_r. destruct w; reflexivity.
  - unfold bind, emit. rewrite IH. cbn. rewrite <- app_assoc. reflexivity.
Qed.

Lemma start_loop_log ci vi off q r data idxs : forall rg st w,
  exists rg' st',
    for_each idxs (launch_body ci vi off q r data) (rg, st) w
    = (Ok (rg', st'),
       W (disk w) (log w ++ starts off idxs (thread_ranges q r idxs rg))).
Proof.
  induction idxs as [|k ks IH]; intros rg st w; cbn [for_each thread_ranges].
  - exists rg, st. cbn. rewrite app_nil_r. destruct w; reflexivity.
  - unfold bind at 1. unfold launch_body at 1. cbn [emit ret bind fst snd].
    match goal with
    | |- context [for_each ks _ (?rg1, ?st1) ?w1] =>
        destruct (IH rg1 st1 w1) as (rg' & st' & E)
    end.
    exists rg', st'. rewrite E. cbn. unfold starts. cbn. rewrite <- app_assoc.
    reflexivity.
Qed.

Lemma launch_threads_log ci vi off gs ge spt t stitched data w :
  exists stitched',
    launch_threads ci vi off gs ge spt t stitched data w
    = (Ok stitched',
       W (disk w)
         (log w
          ++ starts off (range0 t)
               (thread_ranges spt (ge - t * spt) (range0 t) (gs, spt + gs))
          ++ map EvJoin (range0 t))).
Proof.
  unfold launch_threads.
  destruct (start_loop_log ci vi off spt (ge - t * spt) data (range0 t)
              (gs, spt + gs) stitched w) as (rg' & st' & E).
  exists st'. unfold bind at 1. rewrite E.
  unfold bind at 1. rewrite join_loop_log. cbn. rewrite <- app_assoc. reflexivity.
Qed.

(** The ranges of one launch tile the band. *)
Lemma thread_ranges_tile gs n t :
  0 < t -> 0 <= n ->
  let rs := thread_ranges (n / t) (n - t * (n / t)) (range0 t) (gs, n / t + gs) in
  List.length rs = Z.to_nat t
  /\ chained gs rs (gs + n)
  /\ forall k a b, nth_error rs k = Some (a, b) ->
       b - a = n / t + (if (1 <=? Z.of_nat k) && (Z.of_nat k <=? n mod t)
                        then 1 else 0).
Proof.
  intros Ht Hn.
  assert (Hq : 0 <= n / t) by (apply Z.div_pos; lia).
  assert (Hm : n - t * (n / t) = n mod t) by (pose proof (Z.div_mod n t ltac:(lia)); lia).
  assert (Hr : 0 <= n mod t < t) by (apply Z.mod_pos_bound; lia).
  rewrite Hm. unfold range0.
  pose proof (thread_ranges_closed gs (n / t) (n mod t) (Z.to_nat t) 0 Hq (proj1 Hr)) as H.
  cbn zeta in H.
  replace (start_of gs (n / t) (n mod t) (Z.of_nat 0)) with gs in H
    by (unfold start_of; change (Z.of_nat 0) with 0; lia).
  replace (stop_of gs (n / t) (n mod t) (Z.of_nat 0)) with (n / t + gs) in H
    by (unfold stop_of; change (Z.of_nat 0) with 0; lia).
  replace (start_of gs (n / t) (n mod t) (Z.of_nat (0 + Z.to_nat t))) with (gs + n) in H.
  { exact H. }
  unfold start_of. rewrite Nat.add_0_l, Z2Nat.id by lia.
  pose proof (Z.div_mod n t ltac:(lia)). nia.
Qed.

Lemma starts_nil off idxs : starts off idxs [] = [].
Proof. unfold starts. rewrite combine_nil. reflexivity. Qed.




Local Open Scope string_scope.
Local Open Scope list_scope.
Local Open Scope Z_scope.

(** ** The claims *)

(** C1.  Rechunking from chunk size A to B and back to A does not reproduce
    the voxels.  The cube of 2 x 2 x 2 voxels, stored as one chunk, is
    rechunked to chunks of one voxel and back with one thread: both
    conversions return normally, and the chunk written at the end holds at
    [z, y, x] the voxel that the volume holds at [x, y, z]. *)
Theorem round_trip_transposes_cube :
  let r := run (round_trip (T3 2 2 2) (T3 1 1 1) "in/x0y0z0.raw" "mid/x1y1z1.raw" 1)
             disk_cube in
  fst r = Ok tt
  /\ file_view (snd r) "in/x0y0z0.raw"
     = Some (T3 2 2 2, [[[Some 0; Some 1]; [Some 2; Some 3]];
                        [[Some 4; Some 5]; [Some 6; Some 7]]])
  /\ file_view (snd r) "out/x0y0z0.raw"
     = Some (T3 2 2 2, [[[Some 0; Some 4]; [Some 2; Some 6]];
                        [[Some 1; Some 5]; [Some 3; Some 7]]]).
Proof. vm_compute. repeat split. Qed.




(** C3, as stated, fails: the double of [chunk_size_in] is computed in
    integers of 64 bits.  With input chunks of [2^62] voxels on every axis,
    output chunks of one voxel and a volume of 2 x 2 x 2 voxels, on every axis
    the output chunk is at most twice the input chunk and at most the volume,
    yet [is_volume_conversion_valid] returns [False] and
    [convert_chunked_volume] raises its configuration error. *)
Lemma doubled_chunk_size_wraps_around :
  let cin := T3 4611686018427387904 4611686018427387904 4611686018427387904 in
  (forall d, tget (T3 1 1 1) d <= 2 * tget cin d
             /\ tget (T3 2 2 2) d >= tget (T3 1 1 1) d)
  /\ is_volume_conversion_valid cin (T3 1 1 1) (T3 2 2 2) = false
  /\ run (convert_chunked_volume format_plain "in/x{}y{}z{}.raw" cin
            "in/x0y0z0.raw" "out/x{}y{}z{}.raw" (T3 1 1 1) 1) disk_cube
     = (Raise ConversionNotValid, W disk_cube [EvRead "in/x0y0z0.raw"]).
Proof.
  split; [intros [| |]; cbn; lia|]. split; vm_compute; reflexivity.
Qed.

(** C3, amended.  The double of [chunk_size_in] is computed in integers of
    64 bits; it is [2 * chunk_size_in] from [- 2^62] up to [2^62].
    [is_volume_conversion_valid] returns [True] exactly when on every axis
    the output chunk is at most that double and at most the volume.  When
    [__calculate_volume_dim] returns the extent of the volume,
    [convert_chunked_volume] raises its configuration error exactly when, on
    some axis, the output chunk is more than that double or more than the
    volume; when [__calculate_volume_dim] raises, for one because the last
    chunk cannot be read, [convert_chunked_volume] raises the same exception,
    which is not the configuration error. *)
Theorem conversion_not_valid_iff :
  (forall c, - 4611686018427387904 <= c < 4611686018427387904 ->
             wrap64 (c * 2) = 2 * c)
  /\
  (forall cin cout vd,
      is_volume_conversion_valid cin cout vd = true <->
      forall d, tget cout d <= wrap64 (tget cin d * 2) /\ tget vd d >= tget cout d)
  /\
  (forall str_format pin cin last pout cout t w vd w',
      calculate_volume_dim cin last w = (Ok vd, w') ->
      (fst (convert_chunked_volume str_format pin cin last pout cout t w)
       = Raise ConversionNotValid <->
       exists d, tget (trev cout) d > wrap64 (tget (trev cin) d * 2)
                 \/ tget (trev vd) d < tget (trev cout) d))
  /\
  (forall str_format pin cin last pout cout t w e w',
      calculate_volume_dim cin last w = (Raise e, w') ->
      convert_chunked_volume str_format pin cin last pout cout t w = (Raise e, w')
      /\ e <> ConversionNotValid).
Proof.
  split; [intros c H; rewrite wrap64_double by exact H; lia|].
  split; [exact is_volume_conversion_valid_true|].
  split.
  - intros str_format pin cin last pout cout t w vd w' E.
    pose proof (convert_chunked_volume_cases str_format pin cin last pout cout t w) as C.
    rewrite E in C.
    destruct (is_volume_conversion_valid (trev cin) (trev cout) (trev vd)) eqn:V.
    + split; [intros H; contradiction|].
      intros H. apply is_volume_conversion_valid_false in H. congruence.
    + split.
      * intros _. apply is_volume_conversion_valid_false. exact V.
      * intros _. rewrite C. reflexivity.
  - intros str_format pin cin last pout cout t w e w' E.
    pose proof (convert_chunked_volume_cases str_format pin cin last pout cout t w) as C.
    pose proof (quiet_calculate_volume_dim cin last w) as Q.
    rewrite E in C, Q. split; [exact C|].
    intros X. apply Q. cbn. congruence.
Qed.

(** Witness of [conversion_not_valid_iff]: input chunks of 32 voxels and
    output chunks of 80. *)
Lemma conversion_not_valid_iff_witness :
  fst (convert_chunked_volume format_plain "in/x{}y{}z{}.raw" (T3 32 32 32)
         "in/x0y0z0.raw" "out/x{}y{}z{}.raw" (T3 80 80 80) 16 (W disk_32 []))
  = Raise ConversionNotValid.
Proof.
  apply (proj1 (proj2 (proj2 conversion_not_valid_iff)) format_plain
           "in/x{}y{}z{}.raw" (T3 32 32 32)
           "in/x0y0z0.raw" "out/x{}y{}z{}.raw" (T3 80 80 80) 16 (W disk_32 [])
           (T3 32 32 32) (W disk_32 [EvRead "in/x0y0z0.raw"])).
  - reflexivity.
  - exists A0. left. vm_compute. reflexivity.
Defined.

(** C4, as stated, fails: with input chunks of 32 voxels and output chunks of
    80 the configuration error is raised after the last chunk was read. *)
Lemma invalid_ratio_reads_last_chunk :
  run (convert_chunked_volume format_plain "in/x{}y{}z{}.raw" (T3 32 32 32)
         "in/x0y0z0.raw" "out/x{}y{}z{}.raw" (T3 80 80 80) 16) disk_32
  = (Raise ConversionNotValid, W disk_32 [EvRead "in/x0y0z0.raw"]).
Proof. vm_compute. reflexivity. Qed.

(** C4, amended.  When [convert_chunked_volume] raises its configuration
    error, all it has done is to read the last chunk, from which it takes the
    extent of the volume: no chunk was loaded through [path_in_format] and
    no file was written. *)
Theorem conversion_not_valid_io str_format pin cin last pout cout t w :
  fst (convert_chunked_volume str_format pin cin last pout cout t w)
  = Raise ConversionNotValid ->
  snd (convert_chunked_volume str_format pin cin last pout cout t w)
  = W (disk w) (log w ++ [EvRead last]).
Proof.
  intros H.
  pose proof (convert_chunked_volume_cases str_format pin cin last pout cout t w) as C.
  pose proof (quiet_calculate_volume_dim cin last w) as Q.
  destruct (calculate_volume_dim cin last w) as [[vd|e] w'] eqn:E.
  - destruct (is_volume_conversion_valid (trev cin) (trev cout) (trev vd)).
    + contradiction.
    + rewrite C. cbn. eapply calculate_volume_dim_ok. exact E.
  - rewrite C in H. cbn in *. exfalso. apply Q. congruence.
Qed.

(** Witness of [conversion_not_valid_io]. *)
Lemma conversion_not_valid_io_witness :
  fst (convert_chunked_volume format_plain "in/x{}y{}z{}.raw" (T3 32 32 32)
         "in/x0y0z0.raw" "out/x{}y{}z{}.raw" (T3 80 80 80) 16 (W disk_32 []))
  = Raise ConversionNotValid
  /\ snd (convert_chunked_volume format_plain "in/x{}y{}z{}.raw" (T3 32 32 32)
            "in/x0y0z0.raw" "out/x{}y{}z{}.raw" (T3 80 80 80) 16 (W disk_32 []))
     = W disk_32 ([] ++ [EvRead "in/x0y0z0.raw"]).
Proof.
  split.
  - vm_compute. reflexivity.
  - apply (conversion_not_valid_io format_plain "in/x{}y{}z{}.raw" (T3 32 32 32)
             "in/x0y0z0.raw" "out/x{}y{}z{}.raw" (T3 80 80 80) 16 (W disk_32 [])).
    vm_compute. reflexivity.
Defined.

(** C5, as stated, fails: for the second of two chunks of 2 x 2 x 2 voxels
    along [x] the function returns [(4, 2, 2)], the extent in XYZ order; in
    ZYX order the extent is [(2, 2, 4)]. *)
Lemma volume_dim_is_not_zyx :
  digit_runs (before_dot "in/x1y0z0.raw") None = [1; 0; 0]
  /\ fst (run (calculate_volume_dim (T3 2 2 2) "in/x1y0z0.raw") disk_pair)
     = Ok (T3 4 2 2)
  /\ volume_dim_zyx (T3 2 2 2) (T3 1 0 0) (shape cube) = T3 2 2 4
  /\ fst (run (calculate_volume_dim (T3 2 2 2) "in/x1y0z0.raw") disk_pair)
     <> Ok (volume_dim_zyx (T3 2 2 2) (T3 1 0 0) (shape cube)).
Proof. vm_compute. repeat split. discriminate. Qed.

(** C5, amended.  When the path of the last chunk holds, before its first
    dot, exactly three runs of digits [ix], [iy], [iz], and the buffer of the
    last chunk has the same extent [s] on its three axes,
    [__calculate_volume_dim] returns [chunk_size_in * index + s] per axis in
    XYZ order, the order of the chunk size and of the file name.  The
    product and the sum are computed in integers of 64 bits: they are exact
    when [chunk_size_in * index + s] is in the range of those integers and
    wrap around otherwise, and the function raises when an entry of
    [chunk_size_in] or a run of digits is not in that range. *)
Theorem calculate_volume_dim_xyz chunk_size last w v ix iy iz s :
  digit_runs (before_dot last) None = [ix; iy; iz] ->
  lookup last (disk w) = Some v ->
  shape v = T3 s s s ->
  fst (calculate_volume_dim chunk_size last w)
  = (if int64 (p0 chunk_size) && int64 (p1 chunk_size) && int64 (p2 chunk_size)
        && (int64 ix && int64 iy && int64 iz)
     then Ok (T3 (wrap64 (p0 chunk_size * ix + s)) (wrap64 (p1 chunk_size * iy + s))
                 (wrap64 (p2 chunk_size * iz + s)))
     else Raise IntegerTooLarge)
  /\ (forall c i, int64 (c * i + s) = true -> wrap64 (c * i + s) = c * i + s).
Proof.
  intros D L S. split; [|intros c i; apply wrap64_int64].
  unfold calculate_volume_dim, bind, lift, read_volume, ret, int64_triple, int64_list.
  rewrite D.
  destruct (int64 (p0 chunk_size) && int64 (p1 chunk_size) && int64 (p2 chunk_size));
    [|reflexivity].
  cbn [forallb andb].
  destruct (int64 ix); [|reflexivity].
  destruct (int64 iy); [|reflexivity].
  destruct (int64 iz); [|reflexivity].
  cbn [andb broadcast3]. rewrite L, S. cbn [fst p0 p1 p2].
  rewrite !wrap64_add_l. reflexivity.
Qed.

(** Witness of [calculate_volume_dim_xyz]. *)
Lemma calculate_volume_dim_xyz_witness :
  fst (calculate_volume_dim (T3 2 2 2) "in/x1y0z0.raw" (W disk_pair []))
  = Ok (T3 (wrap64 (2 * 1 + 2)) (wrap64 (2 * 0 + 2)) (wrap64 (2 * 0 + 2)))
  /\ (forall c i, int64 (c * i + 2) = true -> wrap64 (c * i + 2) = c * i + 2).
Proof.
  apply (calculate_volume_dim_xyz (T3 2 2 2) "in/x1y0z0.raw" (W disk_pair []) cube
           1 0 0 2); reflexivity.
Defined.

(** C6, as stated, fails: of five slices given to four threads, thread 0 gets
    one and thread 1 gets two, although the remainder is one. *)
Lemma first_thread_gets_no_extra_slice :
  5 mod 4 = 1
  /\ log (snd (run (launch_threads ci_voxels vi_voxels 0 0 5 (5 / 4) 4 cube
                      (Q4 None None None None)) []))
     = [EvStart 0 0 1 0; EvStart 1 1 3 0; EvStart 2 3 4 0; EvStart 3 4 5 0;
        EvJoin 0; EvJoin 1; EvJoin 2; EvJoin 3].
Proof. vm_compute. split; reflexivity. Qed.

(** C6, amended.  For a band of [n] slices from [global_start] on and
    [t] threads, [__launch_threads] starts the threads 0 to [t - 1] on [t]
    ranges that follow one another without gap or overlap from
    [global_start] to [global_start + n]; thread [k] gets [n / t] slices, and
    one more if [1 <= k <= n mod t] (thread 0 never gets one more); all
    threads are joined, after all were started, before the function
    returns. *)
Theorem launch_threads_partition ci vi offset global_start n t stitched data w :
  0 < t -> 0 <= n ->
  exists rs stitched',
    launch_threads ci vi offset global_start n (n / t) t stitched data w
    = (Ok stitched',
       W (disk w)
         (log w ++ starts offset (range0 t) rs ++ map EvJoin (range0 t)))
    /\ List.length rs = Z.to_nat t
    /\ chained global_start rs (global_start + n)
    /\ forall k a b, nth_error rs k = Some (a, b) ->
         b - a = n / t + (if (1 <=? Z.of_nat k) && (Z.of_nat k <=? n mod t)
                          then 1 else 0).
Proof.
  intros Ht Hn.
  destruct (launch_threads_log ci vi offset global_start n (n / t) t stitched data w)
    as (stitched' & L).
  eexists _, stitched'. split; [exact L|].
  apply thread_ranges_tile; assumption.
Qed.

(** Witness of [launch_threads_partition]: five slices and four threads. *)
Lemma launch_threads_partition_witness :
  exists rs stitched',
    launch_threads ci_voxels vi_voxels 0 0 5 (5 / 4) 4 cube
      (Q4 None None None None) (W [] [])
    = (Ok stitched',
       W [] ([] ++ starts 0 (range0 4) rs ++ map EvJoin (range0 4)))
    /\ List.length rs = Z.to_nat 4
    /\ chained 0 rs (0 + 5)
    /\ forall k a b, nth_error rs k = Some (a, b) ->
         b - a = 5 / 4 + (if (1 <=? Z.of_nat k) && (Z.of_nat k <=? 5 mod 4)
                          then 1 else 0).
Proof.
  apply (launch_threads_partition ci_voxels vi_voxels 0 0 5 4 cube
           (Q4 None None None None) (W [] [])); lia.
Defined.

(** C7.  The output depends on the number of threads.  The volume of
    1 x 1 x 10 voxels in chunks of 3 along [x] is rechunked to chunks of 5:
    the second output chunk needs three input chunks, the worker that reads
    past the second of them dies, and what it had to write is lost.  With
    one thread the chunk holds one voxel and four cells that were never
    written, with 4, 16 or 64 threads it holds four voxels and one such
    cell. *)
Theorem thread_count_changes_output :
  let out t :=
    let r := run (convert_chunked_volume format_plain "in/x{}y{}z{}.raw" (T3 3 1 1)
                    "in/x3y0z0.raw" "out/x{}y{}z{}.raw" (T3 5 1 1) t) disk_row in
    (fst r, file_view (snd r) "out/x1y0z0.raw") in
  out 1 = (Ok tt, Some (T3 5 1 1, [[[Some 15]]; [[None]]; [[None]]; [[None]]; [[None]]]))
  /\ out 4 = (Ok tt, Some (T3 5 1 1,
                [[[Some 15]]; [[Some 16]]; [[Some 17]]; [[Some 18]]; [[None]]]))
  /\ out 16 = out 4
  /\ out 64 = out 4.
Proof. vm_compute. repeat split. Qed.

(** C8.  Rechunking to the same chunk size does not copy the chunks.  The
    cube of 2 x 2 x 2 voxels, one chunk, is rechunked to chunks of
    2 x 2 x 2 with one thread: the output chunk holds at [z, y, x] the voxel
    that the input chunk holds at [x, y, z]. *)
Theorem same_size_transposes_cube :
  let r := run (convert_chunked_volume format_plain "in/x{}y{}z{}.raw" (T3 2 2 2)
                  "in/x0y0z0.raw" "out/x{}y{}z{}.raw" (T3 2 2 2) 1) disk_cube in
  fst r = Ok tt
  /\ file_view (snd r) "in/x0y0z0.raw"
     = Some (T3 2 2 2, [[[Some 0; Some 1]; [Some 2; Some 3]];
                        [[Some 4; Some 5]; [Some 6; Some 7]]])
  /\ file_view (snd r) "out/x0y0z0.raw"
     = Some (T3 2 2 2, [[[Some 0; Some 4]; [Some 2; Some 6]];
                        [[Some 1; Some 5]; [Some 3; Some 7]]]).
Proof. vm_compute. repeat split. Qed.

(** C9.  [write_chunked_volume] raises, and writes nothing, for every
    [path_out_format] whose count of format keys is not one: also for the
    three keys [x{}y{}z{}] that its documentation asks for. *)
Theorem write_chunked_volume_key_count str_format volume path_out_format chunk_size w :
  get_format_key_count path_out_format <> Ok 1 ->
  exists e,
    write_chunked_volume str_format volume path_out_format chunk_size w = (Raise e, w).
Proof.
  intros H. unfold write_chunked_volume, bind, lift.
  destruct (get_format_key_count path_out_format) as [n|e].
  - destruct (Z.eqb_spec n 1) as [->|N]; [congruence|].
    exists FormatKeyCount. reflexivity.
  - exists e. reflexivity.
Qed.

(** Witness of [write_chunked_volume_key_count]: the path of the
    documentation, with three keys. *)
Lemma write_chunked_volume_key_count_witness :
  get_format_key_count "my_volume_x{}y{}z{}.raw" = Ok 3
  /\ exists e,
      write_chunked_volume format_plain cube "my_volume_x{}y{}z{}.raw" (T3 1 1 1)
        (W [] []) = (Raise e, W [] []).
Proof.
  split; [reflexivity|].
  apply (write_chunked_volume_key_count format_plain cube "my_volume_x{}y{}z{}.raw"
           (T3 1 1 1) (W [] [])).
  vm_compute. discriminate.
Defined.

(** C10.  When [__load_chunks] returns normally, [chunk_index] has the value
    it had before the call. *)
Theorem load_chunks_keeps_chunk_index str_format ci vi data w ci' data' w' :
  load_chunks str_format ci vi data w = (Ok (ci', data'), w') ->
  chunk_index ci' = chunk_index ci.
Proof.
  intros H. apply load_chunks_ok in H. destruct H as (-> & _). reflexivity.
Qed.

(** Witness of [load_chunks_keeps_chunk_index]: the current chunk and its
    three neighbours are loaded. *)
Lemma load_chunks_keeps_chunk_index_witness :
  exists ci' data' w',
    load_chunks format_plain ci_voxels vi_voxels (Q4 None None None None)
      (W disk_voxels []) = (Ok (ci', data'), w')
    /\ chunk_index ci' = chunk_index ci_voxels.
Proof.
  destruct (load_chunks format_plain ci_voxels vi_voxels (Q4 None None None None)
              (W disk_voxels [])) as [[[c d]|e] w'] eqn:E.
  - exists c, d, w'. split; [reflexivity|].
    exact (load_chunks_keeps_chunk_index format_plain ci_voxels vi_voxels
             (Q4 None None None None) (W disk_voxels []) c d w' E).
  - exfalso. vm_compute in E. discriminate.
Defined.

(** * Further properties *)

(** ** The alignment tracker *)

Lemma tget_tset_same {A} (t : triple A) d x : tget (tset t d x) d = x.
Proof. destruct d; reflexivity. Qed.

Lemma tget_tset_other {A} (t : triple A) d d' x :
  d <> d' -> tget (tset t d x) d' = tget t d'.
Proof. destruct d, d'; intros H; try reflexivity; contradiction. Qed.

Lemma get_indices_interval ci vi d :
  0 < tget (chunk_size_in vi) d ->
  0 < tget (chunk_size_out vi) d ->
  0 <= tget (end_element ci) d <= tget (chunk_size_in vi) d ->
  (tget (end_element ci) d < tget (chunk_size_in vi) d
   \/ tget (chunk_size_in vi) d <= tget (chunk_size_out vi) d) ->
  tget (stitch ci) d = false ->
  let ci' := fst (get_indices ci vi d) in
  let vi' := snd (get_indices ci vi d) in
  let cin := tget (chunk_size_in vi) d in
  let cout := tget (chunk_size_out vi) d in
  let s := tget (start_element ci') d in
  let e := tget (end_element ci') d in
  s = (if tget (end_element ci) d =? cin then 0 else tget (end_element ci) d)
  /\ 0 <= s < cin
  /\ (if tget (stitch ci') d
      then (cin - s) + e = cout /\ 0 < e
           /\ tget (elements_to_read vi') d = tget (elements_to_read vi) d - (cin - s)
      else e - s = cout /\ e <= cin
           /\ tget (elements_to_read vi') d = tget (elements_to_read vi) d - cout)
  /\ tget (chunk_index ci') d
     = tget (chunk_index ci) d
       + (if tget (end_element ci) d =? tget (chunk_size_in vi) d then 1 else 0).
Proof.
  intros Hin Hout He Hcase Hst. cbv zeta.
  unfold get_indices.
  destruct (Z.ltb_spec 0 (tget (chunk_size_out vi) d)) as [_|]; [|lia].
  set (cin := tget (chunk_size_in vi) d) in *.
  set (cout := tget (chunk_size_out vi) d) in *.
  set (e0 := tget (end_element ci) d) in *.
  replace (cout - 0) with cout by lia.
  destruct (Z.eqb_spec (Z.min (cin - e0) cout + e0) e0) as [E|E].
  - assert (e0 = cin) by lia. replace (0 + cin) with cin by lia.
    destruct (Z.ltb_spec cin cout) as [L|L]; cbn [fst snd];
      unfold with_stitch, with_end_element, with_chunk_index, with_start_element,
        with_elements_to_read; cbn [chunk_index start_element end_element stitch
                                      elements_to_read];
      rewrite ?tget_tset_same.
    + destruct (Z.eqb_spec e0 cin); lia.
    + rewrite ?Hst. destruct (Z.eqb_spec e0 cin); lia.
  - assert (e0 < cin) by lia.
    replace (0 + (Z.min (cin - e0) cout + e0 - e0)) with (Z.min (cin - e0) cout) by lia.
    destruct (Z.ltb_spec (Z.min (cin - e0) cout) cout) as [L|L]; cbn [fst snd];
      unfold with_stitch, with_end_element, with_chunk_index, with_start_element,
        with_elements_to_read; cbn [chunk_index start_element end_element stitch
                                      elements_to_read];
      rewrite ?tget_tset_same.
    + destruct (Z.eqb_spec e0 cin); lia.
    + rewrite ?Hst. destruct (Z.eqb_spec e0 cin); lia.
Qed.


(** With input chunks of 3 and output chunks of 5 cells, an interval that
    starts at 2 takes one cell of the current chunk and sets [end_element]
    to 4, one more than the next chunk has. *)
Lemma get_indices_end_beyond_chunk :
  let vi := VI "in/x{}y{}z{}.raw" (T3 3 3 3) (T3 9 9 9) "out/x{}y{}z{}.raw"
              (T3 5 5 5) (T3 9 9 9) in
  let ci := CI (T3 1 1 1) (T3 0 0 0) (T3 2 0 0) (T3 false false false)
              (Q4 false false false false) in
  let ci' := fst (get_indices ci vi A0) in
  (p0 (start_element ci'), p0 (end_element ci'), p0 (stitch ci')) = (2, 4, true).
Proof. reflexivity. Qed.

Lemma update_and_reset_params_ci vi ci d cout vd :
  let ci' := snd (update_and_reset_params vi ci d cout vd) in
  chunk_index ci'
  = (if tget (stitch ci) d
     then tset (chunk_index ci) d (tget (chunk_index ci) d + 1)
     else chunk_index ci)
  /\ end_element ci' = end_element ci
  /\ start_element ci' = start_element ci
  /\ stitch ci' = tset (stitch ci) d false.
Proof.
  cbv zeta. unfold update_and_reset_params.
  destruct (tget (stitch ci) d) eqn:S;
    match goal with
    | |- context [if ?b then with_chunk_size_out _ _ else _] => destruct b
    end; destruct d; cbn; repeat split; reflexivity.
Qed.

Lemma update_and_reset_params_chunk_size_in vi ci d cout vd :
  chunk_size_in (fst (update_and_reset_params vi ci d cout vd)) = chunk_size_in vi.
Proof.
  unfold update_and_reset_params.
  destruct (tget (stitch ci) d);
    match goal with
    | |- context [if ?b then with_chunk_size_out _ _ else _] => destruct b
    end; destruct d; reflexivity.
Qed.

Lemma get_indices_chunk_size_in ci vi d :
  chunk_size_in (snd (get_indices ci vi d)) = chunk_size_in vi.
Proof.
  unfold get_indices.
  repeat match goal with
         | |- context [if ?b then _ else _] => destruct b
         end; reflexivity.
Qed.

(** X2.  One step of the tracker on an axis, [__get_indices] followed by
    [__update_and_reset_params], moves the place up to which the input was
    read by the extent of the output chunk, and leaves no stitch pending. *)
Theorem tracker_step_advances ci vi d cout vd :
  0 < tget (chunk_size_in vi) d ->
  0 < tget (chunk_size_out vi) d ->
  0 <= tget (end_element ci) d <= tget (chunk_size_in vi) d ->
  (tget (end_element ci) d < tget (chunk_size_in vi) d
   \/ tget (chunk_size_in vi) d <= tget (chunk_size_out vi) d) ->
  tget (stitch ci) d = false ->
  let r := get_indices ci vi d in
  let r' := update_and_reset_params (snd r) (fst r) d cout vd in
  position (snd r') (fst r') d = position ci vi d + tget (chunk_size_out vi) d
  /\ tget (stitch (snd r')) d = false.
Proof.
  intros Hin Hout He Hcase Hst r r'.
  pose proof (get_indices_interval ci vi d Hin Hout He Hcase Hst) as G.
  cbv zeta in G. fold r in G. destruct G as (Hs0 & Hs & Hb & Hi).
  pose proof (update_and_reset_params_ci (snd r) (fst r) d cout vd) as U.
  cbv zeta in U. fold r' in U. destruct U as (Ui & Ue & _ & Ust).
  split.
  - unfold position. rewrite Ui, Ue.
    assert (C : chunk_size_in (fst r') = chunk_size_in vi).
    { unfold r'. rewrite update_and_reset_params_chunk_size_in.
      unfold r. apply get_indices_chunk_size_in. }
    rewrite C.
    destruct (tget (stitch (fst r)) d) eqn:S.
    + rewrite tget_tset_same, Hi. destruct Hb as (Hb1 & Hb2 & _).
      destruct (Z.eqb_spec (tget (end_element ci) d) (tget (chunk_size_in vi) d)); nia.
    + rewrite Hi. destruct Hb as (Hb1 & Hb2 & _).
      destruct (Z.eqb_spec (tget (end_element ci) d) (tget (chunk_size_in vi) d)); nia.
  - rewrite Ust. apply tget_tset_same.
Qed.

(** ** Slices and assignments *)

Ltac slice_tac :=
  unfold slice_len, slice_stop, slice_start, norm_bound, span, from, upto, whole;
  cbn [lo hi];
  repeat match goal with
         | |- context [?a <? ?b] => destruct (Z.ltb_spec a b)
         end; lia.

Lemma slice_span n a b :
  0 <= a -> a <= b -> b <= n ->
  slice_start n (span a b) = a /\ slice_len n (span a b) = b - a.
Proof. intros; split; slice_tac. Qed.

Lemma slice_from n a :
  0 <= a <= n -> slice_start n (from a) = a /\ slice_len n (from a) = n - a.
Proof. intros; split; slice_tac. Qed.

Lemma slice_upto n b :
  0 <= b <= n -> slice_start n (upto b) = 0 /\ slice_len n (upto b) = b.
Proof. intros; split; slice_tac. Qed.

Lemma slice_whole n :
  0 <= n -> slice_start n whole = 0 /\ slice_len n whole = n.
Proof. intros; split; slice_tac. Qed.

(** A slice that ends beyond the axis is clipped. *)
Lemma slice_upto_clip n b :
  0 <= b -> 0 <= n ->
  slice_start n (upto b) = 0 /\ slice_len n (upto b) = Z.min b n.
Proof. intros; split; slice_tac. Qed.

Lemma nd_plane_ok a s0 s1 idx :
  0 <= idx < p2 (shape a) ->
  nd_plane a s0 s1 idx
  = Ok (Pl (slice_len (p0 (shape a)) s0) (slice_len (p1 (shape a)) s1)
          (fun i j => item a (slice_start (p0 (shape a)) s0 + i)
                               (slice_start (p1 (shape a)) s1 + j) idx)).
Proof.
  intros H. unfold nd_plane, py_index.
  destruct (Z.leb_spec (- p2 (shape a)) idx); [|lia].
  destruct (Z.ltb_spec idx (p2 (shape a))); [|lia].
  destruct (Z.ltb_spec idx 0); [lia|]. reflexivity.
Qed.

Lemma plane_assign_ok dst s0 s1 src :
  rows src = slice_len (rows dst) s0 ->
  cols src = slice_len (cols dst) s1 ->
  exists p,
    plane_assign dst s0 s1 src = Ok p
    /\ rows p = rows dst /\ cols p = cols dst
    /\ forall i j,
        pitem p i j
        = if within (slice_start (rows dst) s0) (rows src) i
             && within (slice_start (cols dst) s1) (cols src) j
          then pitem src (i - slice_start (rows dst) s0) (j - slice_start (cols dst) s1)
          else pitem dst i j.
Proof.
  intros Hr Hc. unfold plane_assign. rewrite <- Hr, <- Hc.
  unfold fits. rewrite !Z.eqb_refl. cbn [orb andb].
  eexists. split; [reflexivity|]. cbn [rows cols pitem].
  split; [reflexivity|]. split; [reflexivity|]. intros i j.
  destruct (within _ (rows src) i) eqn:W0; [|reflexivity].
  destruct (within _ (cols src) j) eqn:W1; [|reflexivity].
  cbn [andb]. unfold within in W0, W1.
  apply andb_true_iff in W0, W1. rewrite !Z.leb_le, !Z.ltb_lt in *.
  unfold bidx.
  destruct (Z.eqb_spec (rows src) 1), (Z.eqb_spec (cols src) 1);
    f_equal; lia.
Qed.

Lemma plane_assign_mismatch dst s0 s1 src :
  (rows src <> slice_len (rows dst) s0 /\ rows src <> 1)
  \/ (cols src <> slice_len (cols dst) s1 /\ cols src <> 1) ->
  plane_assign dst s0 s1 src = Raise BroadcastError.
Proof.
  intros H. unfold plane_assign, fits.
  destruct H as [[A B]|[A B]].
  - destruct (Z.eqb_spec (rows src) (slice_len (rows dst) s0)); [contradiction|].
    destruct (Z.eqb_spec (rows src) 1); [contradiction|]. reflexivity.
  - destruct (Z.eqb_spec (cols src) (slice_len (cols dst) s1)); [contradiction|].
    destruct (Z.eqb_spec (cols src) 1); [contradiction|].
    rewrite andb_false_r. reflexivity.
Qed.

(** ** The compositor *)

Lemma get_slice_zy_copy ci vi data d0 idx :
  p0 (stitch ci) = false -> p1 (stitch ci) = false ->
  q0 data = Some d0 -> shape d0 = chunk_size_in vi ->
  0 <= p0 (start_element ci) ->
  p0 (end_element ci) <= p0 (chunk_size_in vi) ->
  p0 (end_element ci) - p0 (start_element ci) = p0 (chunk_size_out vi) ->
  0 <= p1 (start_element ci) ->
  p1 (end_element ci) <= p1 (chunk_size_in vi) ->
  p1 (end_element ci) - p1 (start_element ci) = p1 (chunk_size_out vi) ->
  0 <= p0 (chunk_size_out vi) -> 0 <= p1 (chunk_size_out vi) ->
  0 <= idx < p2 (chunk_size_in vi) ->
  exists p,
    get_slice_zy ci vi data idx = Ok p
    /\ rows p = p0 (chunk_size_out vi) /\ cols p = p1 (chunk_size_out vi)
    /\ forall i j,
        0 <= i < p0 (chunk_size_out vi) -> 0 <= j < p1 (chunk_size_out vi) ->
        pitem p i j
        = item d0 (p0 (start_element ci) + i) (p1 (start_element ci) + j) idx.
Proof.
  intros S0 S1 D Sh Hs0 He0 Hl0 Hs1 He1 Hl1 Hc0 Hc1 Hidx.
  unfold get_slice_zy. rewrite S0, S1, D. cbn [andb loaded rbind].
  unfold np_empty2.
  destruct (Z.leb_spec 0 (p0 (chunk_size_out vi))); [|lia].
  destruct (Z.leb_spec 0 (p1 (chunk_size_out vi))); [|lia].
  cbn [andb rbind].
  rewrite nd_plane_ok by (rewrite Sh; exact Hidx). cbn [rbind].
  rewrite Sh.
  destruct (slice_span (p0 (chunk_size_in vi)) (p0 (start_element ci))
              (p0 (end_element ci))) as (A0 & L0); try lia.
  destruct (slice_span (p1 (chunk_size_in vi)) (p1 (start_element ci))
              (p1 (end_element ci))) as (A1 & L1); try lia.
  rewrite A0, A1, L0, L1.
  match goal with
  | |- context [plane_assign ?dst ?s0 ?s1 ?src] =>
      destruct (plane_assign_ok dst s0 s1 src) as (p & E & R & C & P)
  end.
  { cbn [rows]. destruct (slice_upto (p0 (chunk_size_out vi)) (p0 (chunk_size_out vi)));
      lia. }
  { cbn [cols]. destruct (slice_upto (p1 (chunk_size_out vi)) (p1 (chunk_size_out vi)));
      lia. }
  exists p. split; [exact E|]. split; [exact R|]. split; [exact C|].
  intros i j Hi Hj. rewrite P. cbn [rows cols pitem].
  destruct (slice_upto (p0 (chunk_size_out vi)) (p0 (chunk_size_out vi))) as (B0 & _);
    [lia|].
  destruct (slice_upto (p1 (chunk_size_out vi)) (p1 (chunk_size_out vi))) as (B1 & _);
    [lia|].
  rewrite B0, B1. unfold within.
  destruct (Z.leb_spec 0 i); [|lia].
  destruct (Z.ltb_spec i (0 + (p0 (end_element ci) - p0 (start_element ci)))); [|lia].
  destruct (Z.leb_spec 0 j); [|lia].
  destruct (Z.ltb_spec j (0 + (p1 (end_element ci) - p1 (start_element ci)))); [|lia].
  cbn [andb]. f_equal; lia.
Qed.

(** X3.  Without a stitch, when on the axes 0 and 1 [start_element] and
    [end_element] lie in the current chunk and are [chunk_size_out] apart,
    [__get_slice_zy] returns the rectangle from [start_element] to
    [end_element] of the slice [idx] of the current chunk. *)
Theorem get_slice_zy_single ci vi data d0 idx :
  p0 (stitch ci) = false -> p1 (stitch ci) = false ->
  q0 data = Some d0 -> shape d0 = chunk_size_in vi ->
  0 <= p0 (start_element ci) ->
  p0 (end_element ci) <= p0 (chunk_size_in vi) ->
  p0 (end_element ci) - p0 (start_element ci) = p0 (chunk_size_out vi) ->
  0 <= p1 (start_element ci) ->
  p1 (end_element ci) <= p1 (chunk_size_in vi) ->
  p1 (end_element ci) - p1 (start_element ci) = p1 (chunk_size_out vi) ->
  0 <= p0 (chunk_size_out vi) -> 0 <= p1 (chunk_size_out vi) ->
  0 <= idx < p2 (chunk_size_in vi) ->
  exists p,
    get_slice_zy ci vi data idx = Ok p
    /\ rows p = p0 (chunk_size_out vi) /\ cols p = p1 (chunk_size_out vi)
    /\ forall i j,
        0 <= i < p0 (chunk_size_out vi) -> 0 <= j < p1 (chunk_size_out vi) ->
        pitem p i j
        = item d0 (p0 (start_element ci) + i) (p1 (start_element ci) + j) idx.
Proof.
  intros S0 S1 D Sh Hs0 He0 Hl0 Hs1 He1 Hl1 Hc0 Hc1 Hidx.
  unfold get_slice_zy. rewrite S0, S1, D. cbn [andb loaded rbind].
  unfold np_empty2.
  destruct (Z.leb_spec 0 (p0 (chunk_size_out vi))); [|lia].
  destruct (Z.leb_spec 0 (p1 (chunk_size_out vi))); [|lia].
  cbn [andb rbind].
  rewrite nd_plane_ok by (rewrite Sh; exact Hidx). cbn [rbind].
  rewrite Sh.
  destruct (slice_span (p0 (chunk_size_in vi)) (p0 (start_element ci))
              (p0 (end_element ci))) as (A0 & L0); try lia.
  destruct (slice_span (p1 (chunk_size_in vi)) (p1 (start_element ci))
              (p1 (end_element ci))) as (A1 & L1); try lia.
  rewrite A0, A1, L0, L1.
  match goal with
  | |- context [plane_assign ?dst ?s0 ?s1 ?src] =>
      destruct (plane_assign_ok dst s0 s1 src) as (p & E & R & C & P)
  end.
  { cbn [rows]. destruct (slice_upto (p0 (chunk_size_out vi)) (p0 (chunk_size_out vi)));
      lia. }
  { cbn [cols]. destruct (slice_upto (p1 (chunk_size_out vi)) (p1 (chunk_size_out vi)));
      lia. }
  exists p. split; [exact E|]. split; [exact R|]. split; [exact C|].
  intros i j Hi Hj. rewrite P. cbn [rows cols pitem].
  destruct (slice_upto (p0 (chunk_size_out vi)) (p0 (chunk_size_out vi))) as (B0 & _);
    [lia|].
  destruct (slice_upto (p1 (chunk_size_out vi)) (p1 (chunk_size_out vi))) as (B1 & _);
    [lia|].
  rewrite B0, B1. unfold within.
  destruct (Z.leb_spec 0 i); [|lia].
  destruct (Z.ltb_spec i (0 + (p0 (end_element ci) - p0 (start_element ci)))); [|lia].
  destruct (Z.leb_spec 0 j); [|lia].
  destruct (Z.ltb_spec j (0 + (p1 (end_element ci) - p1 (start_element ci)))); [|lia].
  cbn [andb]. f_equal; lia.
Qed.

Ltac within_tac :=
  unfold within;
  repeat match goal with
         | |- context [?a <=? ?b] => destruct (Z.leb_spec a b)
         | |- context [?a <? ?b] => destruct (Z.ltb_spec a b)
         end; cbn [andb]; try lia; try (f_equal; lia).

Ltac assign_step p E R C P :=
  match goal with
  | |- context [plane_assign ?dst ?s0 ?s1 ?src] =>
      destruct (plane_assign_ok dst s0 s1 src) as (p & E & R & C & P);
      [ cbn [rows cols]; rewrite ?R, ?C; cbn [rows cols]
      | cbn [rows cols]; rewrite ?R, ?C; cbn [rows cols]
      | rewrite E; cbn [rbind] ]
  end.



(** X6.  With a stitch along both axes, [__get_slice_zy] assembles the slice
    from four chunks when the output slice is cut into four squares of the
    same side [h]. *)
Theorem get_slice_zy_stitch_both ci vi data d0 d1 d2 d3 idx h :
  p0 (stitch ci) = true -> p1 (stitch ci) = true ->
  q0 data = Some d0 -> shape d0 = chunk_size_in vi ->
  q1 data = Some d1 -> shape d1 = chunk_size_in vi ->
  q2 data = Some d2 -> shape d2 = chunk_size_in vi ->
  q3 data = Some d3 -> shape d3 = chunk_size_in vi ->
  0 <= h ->
  0 <= p0 (start_element ci) -> 0 <= p1 (start_element ci) ->
  p0 (chunk_size_in vi) - p0 (start_element ci) = h ->
  p1 (chunk_size_in vi) - p1 (start_element ci) = h ->
  p0 (end_element ci) = h -> p1 (end_element ci) = h ->
  p0 (chunk_size_out vi) = 2 * h -> p1 (chunk_size_out vi) = 2 * h ->
  0 <= idx < p2 (chunk_size_in vi) ->
  exists p,
    get_slice_zy ci vi data idx = Ok p
    /\ rows p = 2 * h /\ cols p = 2 * h
    /\ forall i j,
        0 <= i < 2 * h -> 0 <= j < 2 * h ->
        pitem p i j
        = if i <? h
          then if j <? h
               then item d0 (p0 (start_element ci) + i) (p1 (start_element ci) + j) idx
               else item d1 (p0 (start_element ci) + i) (j - h) idx
          else if j <? h
               then item d2 (i - h) (p1 (start_element ci) + j) idx
               else item d3 (i - h) (j - h) idx.
Proof.
  intros S0 S1 D0 Sh0 D1 Sh1 D2 Sh2 D3 Sh3 Hh Hs0 Hs1 F0 F1 E0 E1 O0 O1 Hidx.
  unfold get_slice_zy. rewrite S0, S1, D0, D1, D2, D3. cbn [andb loaded rbind].
  unfold np_empty2.
  destruct (Z.leb_spec 0 (p0 (chunk_size_out vi))); [|lia].
  destruct (Z.leb_spec 0 (p1 (chunk_size_out vi))); [|lia].
  cbn [andb rbind].
  rewrite !nd_plane_ok by (rewrite ?Sh0, ?Sh1, ?Sh2, ?Sh3; exact Hidx). cbn [rbind].
  rewrite Sh0, Sh1, Sh2, Sh3, F0, F1, E0, E1, O0, O1.
  set (c0 := p0 (chunk_size_in vi)) in *. set (c1 := p1 (chunk_size_in vi)) in *.
  set (s0 := p0 (start_element ci)) in *. set (s1 := p1 (start_element ci)) in *.
  replace (2 * h - h) with h by lia.
  destruct (slice_from c0 s0) as (A0 & L0); [lia|].
  destruct (slice_from c1 (c1 - h)) as (A1 & L1); [lia|].
  destruct (slice_from c0 (c0 - h)) as (A2 & L2); [lia|].
  destruct (slice_span c1 0 h) as (A3 & L3); try lia.
  destruct (slice_upto c0 h) as (A4 & L4); [lia|].
  destruct (slice_from c1 s1) as (A5 & L5); [lia|].
  destruct (slice_upto (2 * h) h) as (B0 & M0); [lia|].
  destruct (slice_from (2 * h) h) as (B1 & M1); [lia|].
  rewrite A0, A1, A2, A3, A4, A5, L0, L1, L2, L3, L4, L5.
  assign_step pa Ea Ra Ca Pa; [lia | lia |].
  assign_step pb Eb Rb Cb Pb;
    [rewrite ?Ra, ?Ca; cbn [rows cols]; lia | rewrite ?Ra, ?Ca; cbn [rows cols]; lia |].
  assign_step pc Ec Rc Cc Pc;
    [rewrite ?Rb, ?Cb, ?Ra, ?Ca; cbn [rows cols]; lia
    |rewrite ?Rb, ?Cb, ?Ra, ?Ca; cbn [rows cols]; lia |].
  assign_step pd Ed Rd Cd Pd;
    [rewrite ?Rc, ?Cc, ?Rb, ?Cb, ?Ra, ?Ca; cbn [rows cols]; lia
    |rewrite ?Rc, ?Cc, ?Rb, ?Cb, ?Ra, ?Ca; cbn [rows cols]; lia |].
  exists pd. split; [reflexivity|].
  rewrite Rd, Cd, Rc, Cc, Rb, Cb, Ra, Ca. cbn [rows cols].
  split; [reflexivity|]. split; [reflexivity|].
  intros i j Hi Hj. rewrite Pd, Pc, Pb, Pa. cbn [rows cols pitem].
  rewrite Rc, Cc, Rb, Cb, Ra, Ca. cbn [rows cols]. rewrite B0, B1.
  destruct (Z.ltb_spec i h), (Z.ltb_spec j h); within_tac.
Qed.

(** X7.  With a stitch along both axes, where each of the four parts of the
    output slice has more than one row and more than one column,
    [__get_slice_zy] raises unless the parts taken from the current chunk and
    from its neighbours have the same extents, [f0 = e0] on axis 0 and
    [f1 = e1] on axis 1, and the lower parts, whose rows are cut with the
    extent of axis 1, get the [e0] rows they need: [min(f1, chunk_size_in[0])]
    is [e0].  Four squares of the same side meet the condition, and so do
    four equal rectangles as high as the input chunk and wider than high. *)
Theorem get_slice_zy_stitch_both_fails ci vi data d0 d1 d2 d3 idx :
  p0 (stitch ci) = true -> p1 (stitch ci) = true ->
  q0 data = Some d0 -> shape d0 = chunk_size_in vi ->
  q1 data = Some d1 -> shape d1 = chunk_size_in vi ->
  q2 data = Some d2 -> shape d2 = chunk_size_in vi ->
  q3 data = Some d3 -> shape d3 = chunk_size_in vi ->
  let f0 := p0 (chunk_size_in vi) - p0 (start_element ci) in
  let f1 := p1 (chunk_size_in vi) - p1 (start_element ci) in
  let e0 := p0 (end_element ci) in
  let e1 := p1 (end_element ci) in
  0 <= p0 (start_element ci) -> 0 <= p1 (start_element ci) ->
  1 < f0 -> 1 < f1 ->
  1 < e0 <= p0 (chunk_size_in vi) -> 1 < e1 <= p1 (chunk_size_in vi) ->
  p0 (chunk_size_out vi) = f0 + e0 -> p1 (chunk_size_out vi) = f1 + e1 ->
  0 <= idx < p2 (chunk_size_in vi) ->
  ~ (f0 = e0 /\ f1 = e1 /\ Z.min f1 (p0 (chunk_size_in vi)) = e0) ->
  get_slice_zy ci vi data idx = Raise BroadcastError.
Proof.
  intros S0 S1 D0 Sh0 D1 Sh1 D2 Sh2 D3 Sh3 f0 f1 e0 e1 Hs0 Hs1 Hf0 Hf1 He0 He1
    O0 O1 Hidx Hne.
  unfold get_slice_zy. rewrite S0, S1, D0, D1, D2, D3. cbn [andb loaded rbind].
  unfold np_empty2.
  destruct (Z.leb_spec 0 (p0 (chunk_size_out vi))); [|lia].
  destruct (Z.leb_spec 0 (p1 (chunk_size_out vi))); [|lia].
  cbn [andb rbind].
  rewrite !nd_plane_ok by (rewrite ?Sh0, ?Sh1, ?Sh2, ?Sh3; exact Hidx). cbn [rbind].
  rewrite Sh0, Sh1, Sh2, Sh3. fold f0 f1 e0 e1. rewrite O0, O1.
  set (c0 := p0 (chunk_size_in vi)) in *. set (c1 := p1 (chunk_size_in vi)) in *.
  set (s0 := p0 (start_element ci)) in *. set (s1 := p1 (start_element ci)) in *.
  replace (f1 + e1 - f1) with e1 by lia.
  destruct (slice_from c0 s0) as (A0 & L0); [lia|].
  destruct (slice_from c1 (c1 - e1)) as (A1 & L1); [lia|].
  destruct (slice_from c0 (c0 - e0)) as (A2 & L2); [lia|].
  destruct (slice_span c1 0 e1) as (A3 & L3); try lia.
  destruct (slice_upto_clip c0 f1) as (A4 & L4); [lia|lia|].
  destruct (slice_from c1 s1) as (A5 & L5); [lia|].
  destruct (slice_upto (f0 + e0) f0) as (B0 & M0); [lia|].
  destruct (slice_from (f0 + e0) f0) as (B1 & M1); [lia|].
  destruct (slice_upto (f1 + e1) f1) as (B2 & M2); [lia|].
  destruct (slice_from (f1 + e1) f1) as (B3 & M3); [lia|].
  rewrite A0, A1, A2, A3, A4, A5, L0, L1, L2, L3, L4, L5.
  destruct (Z.eq_dec e1 f1) as [X1|X1].
  2:{ rewrite plane_assign_mismatch; [reflexivity|].
      right. cbn [rows cols]. rewrite M2. lia. }
  assign_step pa Ea Ra Ca Pa; [rewrite M0; lia | rewrite M2; lia |].
  destruct (Z.eq_dec e0 f0) as [X0|X0].
  2:{ rewrite plane_assign_mismatch; [reflexivity|].
      left. rewrite Ra. cbn [rows cols]. rewrite M0. lia. }
  assign_step pb Eb Rb Cb Pb;
    [rewrite ?Ra, ?Ca; cbn [rows cols]; rewrite M0; lia
    |rewrite ?Ra, ?Ca; cbn [rows cols]; rewrite M3; lia |].
  rewrite plane_assign_mismatch; [reflexivity|].
  left. rewrite Rb, Ra. cbn [rows cols]. rewrite M1. lia.
Qed.

(** Four rectangles of 2 x 3 cells: with input chunks of 2 x 3 cells and
    output chunks of 4 x 6, the slice is assembled from the four chunks. *)
Lemma get_slice_zy_stitch_both_rectangles :
  let vi := VI "in/x{}y{}z{}.raw" (T3 2 3 1) (T3 4 6 1) "out/x{}y{}z{}.raw"
              (T3 4 6 1) (T3 4 6 1) in
  let ci := CI (T3 1 1 1) (T3 0 0 0) (T3 2 3 1) (T3 true true false)
              (Q4 false true true true) in
  let data := Q4 (Some (nd_of_lists [[[0]; [1]; [2]]; [[3]; [4]; [5]]]))
                 (Some (nd_of_lists [[[10]; [11]; [12]]; [[13]; [14]; [15]]]))
                 (Some (nd_of_lists [[[20]; [21]; [22]]; [[23]; [24]; [25]]]))
                 (Some (nd_of_lists [[[30]; [31]; [32]]; [[33]; [34]; [35]]])) in
  map (fun i => map (fun j => slice_cell ci vi data 0 i j) (range0 6)) (range0 4)
  = [[Some 0; Some 1; Some 2; Some 10; Some 11; Some 12];
     [Some 3; Some 4; Some 5; Some 13; Some 14; Some 15];
     [Some 20; Some 21; Some 22; Some 30; Some 31; Some 32];
     [Some 23; Some 24; Some 25; Some 33; Some 34; Some 35]].
Proof. vm_compute. reflexivity. Qed.

Lemma get_indices_exhausted ci vi d :
  tget (end_element ci) d = tget (chunk_size_in vi) d ->
  0 < tget (chunk_size_out vi) d <= tget (chunk_size_in vi) d ->
  let r := get_indices ci vi d in
  start_element (fst r) = tset (start_element ci) d 0
  /\ end_element (fst r) = end_element ci
  /\ stitch (fst r) = stitch ci
  /\ chunk_index (fst r) = tset (chunk_index ci) d (tget (chunk_index ci) d + 1)
  /\ chunk_size_out (snd r) = chunk_size_out vi
  /\ chunk_size_in (snd r) = chunk_size_in vi
  /\ elements_to_read (snd r)
     = tset (elements_to_read vi) d
         (tget (elements_to_read vi) d - tget (chunk_size_in vi) d).
Proof.
  intros E H. cbv zeta. unfold get_indices.
  destruct (Z.ltb_spec 0 (tget (chunk_size_out vi) d)); [|lia].
  rewrite E.
  replace (Z.min (tget (chunk_size_in vi) d - tget (chunk_size_in vi) d)
             (tget (chunk_size_out vi) d - 0) + tget (chunk_size_in vi) d)
    with (tget (chunk_size_in vi) d) by lia.
  rewrite Z.eqb_refl, Z.add_0_l.
  destruct (Z.ltb_spec (tget (chunk_size_in vi) d) (tget (chunk_size_out vi) d));
    [lia|].
  cbn [fst snd]. rewrite <- E.
  destruct ci as [ix st en sti nd], d; destruct en; cbn;
    repeat split; reflexivity.
Qed.

(** X8.  When the current input chunk is used up and the output chunk is
    smaller than the input chunk, [__get_indices] selects the whole next input
    chunk, and [__get_slice_zy] cannot copy it into the output slice. *)
Theorem smaller_chunks_fail_at_chunk_boundary ci vi data d0 idx :
  p0 (end_element ci) = p0 (chunk_size_in vi) ->
  0 < p0 (chunk_size_out vi) < p0 (chunk_size_in vi) ->
  p0 (stitch ci) = false -> p1 (stitch ci) = false ->
  q0 data = Some d0 -> shape d0 = chunk_size_in vi ->
  0 <= p1 (chunk_size_out vi) ->
  0 <= idx < p2 (chunk_size_in vi) ->
  let r := get_indices ci vi A0 in
  p0 (start_element (fst r)) = 0
  /\ p0 (end_element (fst r)) = p0 (chunk_size_in vi)
  /\ p0 (chunk_index (fst r)) = p0 (chunk_index ci) + 1
  /\ get_slice_zy (fst r) (snd r) data idx = Raise BroadcastError.
Proof.
  intros E H S0 S1 D Sh Hc1 Hidx r.
  destruct (get_indices_exhausted ci vi A0 E ltac:(cbn; lia))
    as (Hs & He & Hst & Hi & Ho & Hn & _).
  fold r in Hs, He, Hst, Hi, Ho, Hn.
  rewrite Hs, He, Hi. cbn [tset p0 tget].
  split; [reflexivity|]. split; [exact E|]. split; [reflexivity|].
  unfold get_slice_zy. rewrite Hst, Hs, He, Ho, Hn, S0, S1, D.
  cbn [andb loaded rbind tset p0 p1].
  unfold np_empty2.
  destruct (Z.leb_spec 0 (p0 (chunk_size_out vi))); [|lia].
  destruct (Z.leb_spec 0 (p1 (chunk_size_out vi))); [|lia].
  cbn [andb rbind].
  rewrite nd_plane_ok by (rewrite Sh; exact Hidx). cbn [rbind].
  apply plane_assign_mismatch. left. cbn [rows]. rewrite Sh, E.
  destruct (slice_span (p0 (chunk_size_in vi)) 0 (p0 (chunk_size_in vi))) as (_ & L);
    try lia.
  destruct (slice_upto (p0 (chunk_size_out vi)) (p0 (chunk_size_out vi))) as (_ & M);
    [lia|].
  rewrite L, M. lia.
Qed.

Ltac concrete := first [reflexivity | cbn; lia].


Lemma tracker_step_advances_witness :
  let r := get_indices ci_3to2 vi_3to2 A0 in
  let r' := update_and_reset_params (snd r) (fst r) A0 (T3 2 2 2) (T3 6 6 6) in
  position (snd r') (fst r') A0 = position ci_3to2 vi_3to2 A0 + 2
  /\ tget (stitch (snd r')) A0 = false.
Proof.
  apply (tracker_step_advances ci_3to2 vi_3to2 A0 (T3 2 2 2) (T3 6 6 6)); concrete.
Defined.

Lemma get_slice_zy_single_witness :
  exists p,
    get_slice_zy (ci_cubes (T3 1 0 0) (T3 2 1 1) (T3 false false false))
      (vi_cubes (T3 1 1 1)) four_cubes 1 = Ok p
    /\ rows p = 1 /\ cols p = 1
    /\ forall i j, 0 <= i < 1 -> 0 <= j < 1 ->
        pitem p i j = item cube (1 + i) (0 + j) 1.
Proof.
  apply (get_slice_zy_single (ci_cubes (T3 1 0 0) (T3 2 1 1) (T3 false false false))
           (vi_cubes (T3 1 1 1)) four_cubes cube 1); concrete.
Defined.



Lemma get_slice_zy_stitch_both_witness :
  exists p,
    get_slice_zy (ci_cubes (T3 1 1 0) (T3 1 1 2) (T3 true true false))
      (vi_cubes (T3 2 2 2)) four_cubes 0 = Ok p
    /\ rows p = 2 * 1 /\ cols p = 2 * 1
    /\ forall i j, 0 <= i < 2 * 1 -> 0 <= j < 2 * 1 ->
        pitem p i j
        = if i <? 1
          then if j <? 1 then item cube (1 + i) (1 + j) 0
               else item cube (1 + i) (j - 1) 0
          else if j <? 1 then item cube (i - 1) (1 + j) 0
               else item cube (i - 1) (j - 1) 0.
Proof.
  apply (get_slice_zy_stitch_both
           (ci_cubes (T3 1 1 0) (T3 1 1 2) (T3 true true false))
           (vi_cubes (T3 2 2 2)) four_cubes cube cube cube cube 0 1); concrete.
Defined.

Lemma get_slice_zy_stitch_both_fails_witness :
  get_slice_zy ci_flat vi_flat (Q4 (Some flat4) (Some flat4) (Some flat4) (Some flat4)) 0
  = Raise BroadcastError.
Proof.
  apply (get_slice_zy_stitch_both_fails ci_flat vi_flat
           (Q4 (Some flat4) (Some flat4) (Some flat4) (Some flat4))
           flat4 flat4 flat4 flat4 0); concrete.
Defined.

Lemma smaller_chunks_fail_at_chunk_boundary_witness :
  let r := get_indices (ci_cubes (T3 1 0 0) (T3 2 1 1) (T3 false false false))
             (vi_cubes (T3 1 1 1)) A0 in
  p0 (start_element (fst r)) = 0
  /\ p0 (end_element (fst r)) = p0 (chunk_size_in (vi_cubes (T3 1 1 1)))
  /\ p0 (chunk_index (fst r))
     = p0 (chunk_index (ci_cubes (T3 1 0 0) (T3 2 1 1) (T3 false false false))) + 1
  /\ get_slice_zy (fst r) (snd r) four_cubes 0 = Raise BroadcastError.
Proof.
  apply (smaller_chunks_fail_at_chunk_boundary
           (ci_cubes (T3 1 0 0) (T3 2 1 1) (T3 false false false))
           (vi_cubes (T3 1 1 1)) four_cubes cube 0); concrete.
Defined.

(** ** The worker threads *)

Lemma nd_set_plane_ok dst x src :
  0 <= x < p2 (shape dst) ->
  rows src = p0 (shape dst) -> cols src = p1 (shape dst) ->
  exists a,
    nd_set_plane dst x src = Ok a
    /\ shape a = shape dst
    /\ forall i j k,
        0 <= i < p0 (shape dst) -> 0 <= j < p1 (shape dst) ->
        item a i j k = if k =? x then pitem src i j else item dst i j k.
Proof.
  intros Hx Hr Hc. unfold nd_set_plane, py_index.
  destruct (Z.leb_spec (- p2 (shape dst)) x); [|lia].
  destruct (Z.ltb_spec x (p2 (shape dst))); [|lia].
  destruct (Z.ltb_spec x 0); [lia|]. cbn [andb].
  unfold fits. rewrite Hr, Hc, !Z.eqb_refl. cbn [orb andb].
  eexists. split; [reflexivity|]. split; [reflexivity|].
  intros i j k Hi Hj. cbn [item].
  destruct (k =? x); [|reflexivity].
  unfold bidx.
  destruct (Z.eqb_spec (p0 (shape dst)) 1), (Z.eqb_spec (p1 (shape dst)) 1);
    f_equal; lia.
Qed.

(** The loop of [__stitch_zy_chunks_together]. *)
Lemma slice_loop_ok ci vi data start (sl : Z -> plane) c0 c1 n :
  forall (len m : nat) (t : ndarray),
    shape t = T3 c0 c1 n ->
    Z.of_nat (m + len) <= n ->
    (forall x, Z.of_nat m <= x < Z.of_nat (m + len) ->
               get_slice_zy ci vi data (x + start) = Ok (sl (x + start))
               /\ rows (sl (x + start)) = c0 /\ cols (sl (x + start)) = c1) ->
    exists t',
      fold_left
        (fun acc slice_count =>
           rbind acc (fun acc =>
           rbind (get_slice_zy ci vi data (slice_count + start)) (fun s =>
           nd_set_plane acc slice_count (plane_as_float64 s))))
        (map Z.of_nat (seq m len)) (Ok t) = Ok t'
      /\ shape t' = T3 c0 c1 n
      /\ forall i j x,
          0 <= i < c0 -> 0 <= j < c1 ->
          item t' i j x
          = if (Z.of_nat m <=? x) && (x <? Z.of_nat (m + len))
            then option_map f64 (pitem (sl (x + start)) i j)
            else item t i j x.
Proof.
  induction len as [|len IH]; intros m t Sh Hn Hsl.
  - exists t. cbn [seq map fold_left]. split; [reflexivity|]. split; [exact Sh|].
    intros i j x Hi Hj.
    destruct (Z.leb_spec (Z.of_nat m) x), (Z.ltb_spec x (Z.of_nat (m + 0)));
      cbn [andb]; try reflexivity; lia.
  - cbn [seq map fold_left rbind].
    destruct (Hsl (Z.of_nat m) ltac:(lia)) as (G & Gr & Gc). rewrite G. cbn [rbind].
    destruct (nd_set_plane_ok t (Z.of_nat m) (plane_as_float64 (sl (Z.of_nat m + start))))
      as (a & Ea & Sa & Pa); rewrite ?Sh; cbn [p0 p1 p2]; try lia; try assumption.
    rewrite Ea.
    destruct (IH (S m) a) as (t' & Et & St & Pt).
    + rewrite Sa. exact Sh.
    + lia.
    + intros x Hx. apply Hsl. lia.
    + exists t'. split; [exact Et|]. split; [exact St|].
      intros i j x Hi Hj. rewrite Pt by assumption.
      rewrite Sh in Pa. cbn [p0 p1] in Pa.
      destruct (Z.leb_spec (Z.of_nat (S m)) x), (Z.ltb_spec x (Z.of_nat (S m + len)));
        destruct (Z.leb_spec (Z.of_nat m) x), (Z.ltb_spec x (Z.of_nat (m + S len)));
        cbn [andb]; try reflexivity; try lia;
        rewrite Pa by assumption;
        destruct (Z.eqb_spec x (Z.of_nat m)); try reflexivity; try lia.
      subst x. reflexivity.
Qed.

Lemma nd_assign_band_ok dst a b src :
  0 <= a -> a <= b -> b <= p2 (shape dst) ->
  0 <= p0 (shape dst) -> 0 <= p1 (shape dst) ->
  shape src = T3 (p0 (shape dst)) (p1 (shape dst)) (b - a) ->
  exists r,
    nd_assign dst whole whole (span a b) src = Ok r
    /\ shape r = shape dst
    /\ forall i j k,
        0 <= i < p0 (shape dst) -> 0 <= j < p1 (shape dst) ->
        item r i j k
        = if (a <=? k) && (k <? b) then item src i j (k - a) else item dst i j k.
Proof.
  intros Ha Hab Hb H0 H1 Sh. unfold nd_assign. rewrite Sh. cbn [p0 p1 p2].
  destruct (slice_whole (p0 (shape dst)) H0) as (A0 & L0).
  destruct (slice_whole (p1 (shape dst)) H1) as (A1 & L1).
  destruct (slice_span (p2 (shape dst)) a b Ha Hab Hb) as (A2 & L2).
  rewrite A0, A1, A2, L0, L1, L2.
  unfold fits. rewrite !Z.eqb_refl. cbn [orb andb].
  eexists. split; [reflexivity|]. split; [reflexivity|].
  intros i j k Hi Hj. cbn [item]. unfold within.
  destruct (Z.leb_spec 0 i); [|lia].
  destruct (Z.ltb_spec i (0 + p0 (shape dst))); [|lia].
  destruct (Z.leb_spec 0 j); [|lia].
  destruct (Z.ltb_spec j (0 + p1 (shape dst))); [|lia].
  replace (a + (b - a)) with b by lia. cbn [andb].
  destruct (Z.leb_spec a k), (Z.ltb_spec k b); cbn [andb]; try reflexivity.
  unfold bidx.
  destruct (Z.eqb_spec (p0 (shape dst)) 1), (Z.eqb_spec (p1 (shape dst)) 1),
    (Z.eqb_spec (b - a) 1); f_equal; lia.
Qed.

Lemma plane_assign_dims dst s0 s1 src p :
  plane_assign dst s0 s1 src = Ok p -> rows p = rows dst /\ cols p = cols dst.
Proof.
  unfold plane_assign. destruct (_ && _); [|discriminate].
  intros E; inversion E; split; reflexivity.
Qed.

Lemma get_slice_zy_dims ci vi data idx p :
  get_slice_zy ci vi data idx = Ok p ->
  rows p = p0 (chunk_size_out vi) /\ cols p = p1 (chunk_size_out vi).
Proof.
  unfold get_slice_zy, np_empty2.
  destruct ((0 <=? p0 (chunk_size_out vi)) && (0 <=? p1 (chunk_size_out vi)));
    [|discriminate].
  cbn [rbind].
  repeat match goal with
         | |- context [if ?b then _ else _] => destruct b
         | |- rbind ?r _ = Ok _ -> _ =>
             let E := fresh "E" in
             destruct r eqn:E; [cbn [rbind]|discriminate]
         | H : plane_assign _ _ _ _ = Ok _ |- _ =>
             apply plane_assign_dims in H; cbn [rows cols] in H
         end;
    intros H; apply plane_assign_dims in H; cbn [rows cols] in H;
    repeat match goal with H : _ /\ _ |- _ => destruct H end;
    split; congruence.
Qed.

(** What one worker writes. *)
Lemma stitch_zy_chunks_together_ok ci vi start stop off stitched data S2
    (sl : Z -> plane) :
  shape stitched = T3 (p0 (chunk_size_out vi)) (p1 (chunk_size_out vi)) S2 ->
  0 <= p0 (chunk_size_out vi) -> 0 <= p1 (chunk_size_out vi) ->
  start <= stop -> 0 <= start + off -> stop + off <= S2 ->
  (forall k, start <= k < stop -> get_slice_zy ci vi data k = Ok (sl k)) ->
  exists r,
    stitch_zy_chunks_together ci vi start stop off stitched data = Ok r
    /\ shape r = shape stitched
    /\ forall i j k,
        0 <= i < p0 (chunk_size_out vi) -> 0 <= j < p1 (chunk_size_out vi) ->
        item r i j k
        = if (start + off <=? k) && (k <? stop + off)
          then option_map f64 (pitem (sl (k - off)) i j)
          else item stitched i j k.
Proof.
  intros Sh H0 H1 Hse Ha Hb Hsl. unfold stitch_zy_chunks_together.
  unfold np_empty, nonneg3. cbn [p0 p1 p2].
  destruct (Z.leb_spec 0 (p0 (chunk_size_out vi))); [|lia].
  destruct (Z.leb_spec 0 (p1 (chunk_size_out vi))); [|lia].
  destruct (Z.leb_spec 0 (stop - start)); [|lia].
  cbn [andb rbind]. unfold range0.
  destruct (slice_loop_ok ci vi data start sl (p0 (chunk_size_out vi))
              (p1 (chunk_size_out vi)) (stop - start) (Z.to_nat (stop - start)) 0
              (Nd (T3 (p0 (chunk_size_out vi)) (p1 (chunk_size_out vi)) (stop - start))
                  (fun _ _ _ => None)))
    as (t' & Et & St & Pt).
  - reflexivity.
  - lia.
  - intros x Hx. assert (Hk : start <= x + start < stop) by lia.
    pose proof (Hsl _ Hk) as G. split; [exact G|].
    apply get_slice_zy_dims in G. exact G.
  - rewrite Et. cbn [rbind].
    destruct (nd_assign_band_ok stitched (start + off) (stop + off) t')
      as (r & Er & Sr & Pr); rewrite ?Sh; cbn [p0 p1 p2]; try lia.
    { rewrite St. f_equal. lia. }
    exists r. split; [exact Er|]. split; [congruence|].
    intros i j k Hi Hj. rewrite Sh in Pr. cbn [p0 p1] in Pr.
    rewrite Pr by assumption.
    destruct (Z.leb_spec (start + off) k), (Z.ltb_spec k (stop + off));
      cbn [andb]; try reflexivity.
    rewrite Pt by assumption.
    destruct (Z.leb_spec (Z.of_nat 0) (k - (start + off))); [|lia].
    destruct (Z.ltb_spec (k - (start + off))
                (Z.of_nat (0 + Z.to_nat (stop - start)))); [|lia].
    cbn [andb]. replace (k - (start + off) + start) with (k - off) by lia.
    reflexivity.
Qed.

Lemma chained_le rs : forall a b, chained a rs b -> a <= b.
Proof.
  induction rs as [|[s e] rs IH]; intros a b; cbn.
  - lia.
  - intros (-> & L & C). apply IH in C. lia.
Qed.

Lemma start_loop_fills ci vi off q r data S2 (sl : Z -> plane) idxs :
  forall rg st w a b,
    chained a (thread_ranges q r idxs rg) b ->
    shape st = T3 (p0 (chunk_size_out vi)) (p1 (chunk_size_out vi)) S2 ->
    0 <= p0 (chunk_size_out vi) -> 0 <= p1 (chunk_size_out vi) ->
    0 <= a + off -> b + off <= S2 ->
    (forall k, a <= k < b -> get_slice_zy ci vi data k = Ok (sl k)) ->
    exists rg' st' w',
      for_each idxs (launch_body ci vi off q r data) (rg, st) w = (Ok (rg', st'), w')
      /\ shape st' = shape st
      /\ forall i j k,
          0 <= i < p0 (chunk_size_out vi) -> 0 <= j < p1 (chunk_size_out vi) ->
          item st' i j k
          = if (a + off <=? k) && (k <? b + off)
            then option_map f64 (pitem (sl (k - off)) i j)
            else item st i j k.
Proof.
  induction idxs as [|x xs IH]; intros rg st w a b C Sh H0 H1 Ha Hb Hsl.
  - cbn in C. subst b. exists rg, st, w. split; [reflexivity|]. split; [reflexivity|].
    intros i j k _ _.
    destruct (Z.leb_spec (a + off) k), (Z.ltb_spec k (a + off)); cbn [andb];
      try reflexivity; lia.
  - cbn [thread_ranges] in C. destruct rg as [s e]. cbn [chained] in C.
    destruct C as (-> & Hse & C). pose proof (chained_le _ _ _ C) as Heb.
    cbn [for_each]. unfold bind at 1. unfold launch_body at 1.
    cbn [emit ret bind fst snd].
    destruct (stitch_zy_chunks_together_ok ci vi a e off st data S2 sl)
      as (st1 & E1 & S1 & P1); try assumption; try lia.
    { intros k Hk. apply Hsl. lia. }
    rewrite E1.
    match goal with
    | |- context [for_each xs _ (?rg1, st1) ?w1] =>
        destruct (IH rg1 st1 w1 e b) as (rg' & st' & w' & E & S & P);
          try assumption; try lia
    end.
    { congruence. }
    { intros k Hk. apply Hsl. lia. }
    exists rg', st', w'. split; [exact E|]. split; [congruence|].
    intros i j k Hi Hj. rewrite P, P1 by assumption.
    destruct (Z.leb_spec (e + off) k), (Z.ltb_spec k (b + off)),
      (Z.leb_spec (a + off) k), (Z.ltb_spec k (e + off)); cbn [andb];
      try reflexivity; lia.
Qed.

Lemma launch_threads_fills ci vi off gs n t stitched data w S2 (sl : Z -> plane) :
  0 < t -> 0 <= n ->
  shape stitched = T3 (p0 (chunk_size_out vi)) (p1 (chunk_size_out vi)) S2 ->
  0 <= p0 (chunk_size_out vi) -> 0 <= p1 (chunk_size_out vi) ->
  0 <= gs + off -> gs + n + off <= S2 ->
  (forall k, gs <= k < gs + n -> get_slice_zy ci vi data k = Ok (sl k)) ->
  exists stitched',
    fst (launch_threads ci vi off gs n (n / t) t stitched data w) = Ok stitched'
    /\ shape stitched' = shape stitched
    /\ forall i j k,
        0 <= i < p0 (chunk_size_out vi) -> 0 <= j < p1 (chunk_size_out vi) ->
        item stitched' i j k
        = if (gs + off <=? k) && (k <? gs + n + off)
          then option_map f64 (pitem (sl (k - off)) i j)
          else item stitched i j k.
Proof.
  intros Ht Hn Sh H0 H1 Ha Hb Hsl.
  destruct (thread_ranges_tile gs n t Ht Hn) as (_ & C & _).
  destruct (start_loop_fills ci vi off (n / t) (n - t * (n / t)) data S2 sl (range0 t)
              (gs, n / t + gs) stitched w gs (gs + n) C Sh H0 H1 Ha Hb Hsl)
    as (rg' & st' & w' & E & S & P).
  exists st'. split; [|split; [exact S|exact P]].
  unfold launch_threads. unfold bind at 1. rewrite E.
  unfold bind at 1. rewrite join_loop_log. reflexivity.
Qed.

(** X9.  When every slice of the band can be assembled, [__launch_threads]
    fills the slices of the band in the output buffer, each with the cells of
    its assembled slice converted to [float64], which is what the buffer of
    a worker holds, and leaves the other slices as they were, whatever the
    number of threads. *)
Theorem launch_threads_fills_band ci vi off gs n t stitched data w S2 :
  0 < t -> 0 <= n ->
  shape stitched = T3 (p0 (chunk_size_out vi)) (p1 (chunk_size_out vi)) S2 ->
  0 <= p0 (chunk_size_out vi) -> 0 <= p1 (chunk_size_out vi) ->
  0 <= gs + off -> gs + n + off <= S2 ->
  (forall k, gs <= k < gs + n -> exists p, get_slice_zy ci vi data k = Ok p) ->
  exists stitched',
    fst (launch_threads ci vi off gs n (n / t) t stitched data w) = Ok stitched'
    /\ shape stitched' = shape stitched
    /\ forall i j k,
        0 <= i < p0 (chunk_size_out vi) -> 0 <= j < p1 (chunk_size_out vi) ->
        item stitched' i j k
        = if (gs + off <=? k) && (k <? gs + n + off)
          then option_map f64 (slice_cell ci vi data (k - off) i j)
          else item stitched i j k.
Proof.
  intros Ht Hn Sh H0 H1 Ha Hb Hsl.
  destruct (launch_threads_fills ci vi off gs n t stitched data w S2
              (fun k => match get_slice_zy ci vi data k with
                        | Ok p => p
                        | Raise _ => Pl 0 0 (fun _ _ => None)
                        end)) as (st' & E & S & P); try assumption.
  { intros k Hk. destruct (Hsl k Hk) as (p & E). rewrite E. reflexivity. }
  exists st'. split; [exact E|]. split; [exact S|].
  intros i j k Hi Hj. rewrite P by assumption.
  destruct (Z.leb_spec (gs + off) k), (Z.ltb_spec k (gs + n + off)); cbn [andb];
    try reflexivity.
  unfold slice_cell. destruct (Hsl (k - off) ltac:(lia)) as (p & Ep).
  rewrite Ep. reflexivity.
Qed.

Lemma launch_threads_fills_band_witness :
  let vi := VI "in/x{}y{}z{}.raw" (T3 1 1 3) (T3 1 1 10) "out/x{}y{}z{}.raw"
              (T3 1 1 5) (T3 1 1 7) in
  let ci := CI (T3 1 1 1) (T3 0 0 0) (T3 1 1 2) (T3 false false true)
              (Q4 false false false false) in
  let data := Q4 (Some (nd_of_lists [[[10; 11; 12]]])) None None None in
  let buffer := Nd (T3 1 1 5) (fun _ _ _ => None) in
  exists stitched',
    fst (launch_threads ci vi 0 0 3 (3 / 4) 4 buffer data (W [] [])) = Ok stitched'
    /\ shape stitched' = shape buffer
    /\ forall i j k,
        0 <= i < 1 -> 0 <= j < 1 ->
        item stitched' i j k
        = if (0 + 0 <=? k) && (k <? 0 + 3 + 0)
          then option_map f64 (slice_cell ci vi data (k - 0) i j)
          else item buffer i j k.
Proof.
  intros vi ci data buffer.
  apply (launch_threads_fills_band ci vi 0 0 3 4 buffer data (W [] []) 5);
    try (cbn; lia); try reflexivity.
  intros k Hk.
  assert (K : k = 0 \/ k = 1 \/ k = 2) by lia.
  destruct K as [K | [K | K]]; subst k; eexists; vm_compute; reflexivity.
Defined.

(** ** The guard of [__load_next_chunk] *)

Lemma keeps_ret {A} (I : A -> Prop) a : I a -> keeps I (ret a).
Proof.
  intros H w. split; [cbn; discriminate|].
  intros a' w' E. inversion E; subst. exact H.
Qed.

Lemma keeps_bind {A B} (J : A -> Prop) (I : B -> Prop) (m : io A) (k : A -> io B) :
  keeps J m -> (forall a, J a -> keeps I (k a)) -> keeps I (bind m k).
Proof.
  intros Hm Hk w. unfold bind. destruct (Hm w) as (N & P).
  destruct (m w) as [[a|e] w1] eqn:E.
  - apply Hk. apply (P a w1). reflexivity.
  - cbn in *. split; [intros X; apply N; congruence|]. intros a w' X. discriminate.
Qed.

Lemma keeps_lift {A} (I : A -> Prop) (r : result A) :
  r <> Raise StitchNotSet -> (forall a, r = Ok a -> I a) -> keeps I (lift r).
Proof.
  intros N P w. split; [exact N|]. intros a w' E. inversion E. apply P. assumption.
Qed.

Lemma keeps_for_each {S} (I : S -> Prop) (l : list Z) (body : Z -> S -> io S) :
  (forall x s, I s -> keeps I (body x s)) ->
  forall s, I s -> keeps I (for_each l body s).
Proof.
  intros Hb. induction l as [|x r IH]; intros s Hs; cbn [for_each].
  - apply keeps_ret. exact Hs.
  - eapply keeps_bind; [apply Hb; exact Hs|]. intros a Ha. apply IH. exact Ha.
Qed.

Lemma keeps_weaken {A} (I J : A -> Prop) (m : io A) :
  keeps I m -> (forall a, I a -> J a) -> keeps J m.
Proof.
  intros H W w. destruct (H w) as (N & P). split; [exact N|].
  intros a w' E. apply W. eapply P. exact E.
Qed.

Lemma keeps_emit e : keeps (fun _ => True) (emit e).
Proof. intros w. split; [cbn; discriminate|trivial]. Qed.

Lemma keeps_read_volume path : keeps (fun _ => True) (read_volume path).
Proof.
  intros w. split; [|trivial].
  unfold read_volume. destruct (lookup path (disk w)); cbn; discriminate.
Qed.

Lemma keeps_write_volume v path : keeps (fun _ => True) (write_volume v path).
Proof.
  intros w. split; [|trivial].
  destruct (write_volume_cases v path w) as [[e E]|[d E]]; rewrite E; cbn; discriminate.
Qed.

Lemma keeps_lift_any {A} (r : result A) :
  r <> Raise StitchNotSet -> keeps (fun _ => True) (lift r).
Proof. intros N. apply keeps_lift; [exact N|trivial]. Qed.

Lemma np_zeros_not_stitch s : np_zeros s <> Raise StitchNotSet.
Proof. unfold np_zeros; destruct (nonneg3 s); discriminate. Qed.

Lemma np_empty_not_stitch s : np_empty s <> Raise StitchNotSet.
Proof. unfold np_empty; destruct (nonneg3 s); discriminate. Qed.

Lemma nd_assign_not_stitch d s0 s1 s2 s : nd_assign d s0 s1 s2 s <> Raise StitchNotSet.
Proof. unfold nd_assign. destruct (_ && _); discriminate. Qed.

Lemma py_range_not_stitch a b c : py_range a b c <> Raise StitchNotSet.
Proof. unfold py_range; destruct (c =? 0); discriminate. Qed.

Section GuardFacts.
Variable str_format : string -> Z -> Z -> Z -> option string.

Lemma formatted_not_stitch fmt a b c :
  formatted str_format fmt a b c <> Raise StitchNotSet.
Proof. unfold formatted; destruct (str_format fmt a b c); discriminate. Qed.

Lemma keeps_read_tmp_chunk_zy ci vi :
  keeps (fun _ => True) (read_tmp_chunk_zy str_format ci vi).
Proof.
  unfold read_tmp_chunk_zy.
  eapply keeps_bind; [apply keeps_lift_any, np_zeros_not_stitch|]. intros t _.
  eapply keeps_bind; [apply keeps_lift_any, formatted_not_stitch|]. intros p _.
  eapply keeps_bind; [apply keeps_read_volume|]. intros v _.
  apply keeps_lift_any, nd_assign_not_stitch.
Qed.

Lemma keeps_load_next_chunk ci vi d :
  tget (stitch ci) d = true ->
  keeps (fun r => snd r = ci) (load_next_chunk str_format ci vi d).
Proof.
  intros H. unfold load_next_chunk. rewrite H.
  eapply keeps_bind; [apply keeps_read_tmp_chunk_zy|]. intros t _.
  apply keeps_ret. cbn. apply with_chunk_index_same.
Qed.

Lemma load_chunks_keeps ci vi data :
  flags_agree ci -> keeps (fun r => fst r = ci) (load_chunks str_format ci vi data).
Proof.
  intros (F1 & F2). unfold load_chunks, load_current_chunk.
  eapply keeps_bind; [apply keeps_read_tmp_chunk_zy|]. intros d0 _.
  eapply keeps_bind with (J := fun st => fst st = ci).
  { destruct (q1 (chunks_needed ci)) eqn:Q1.
    - eapply keeps_bind; [apply keeps_load_next_chunk, F1; reflexivity|].
      intros r Hr. apply keeps_ret. exact Hr.
    - apply keeps_ret. reflexivity. }
  intros [c d] Hc. cbn in Hc. subst c.
  eapply keeps_bind with (J := fun st => fst st = ci).
  { destruct (q2 (chunks_needed ci)) eqn:Q2.
    - eapply keeps_bind; [apply keeps_load_next_chunk, F2; reflexivity|].
      intros r Hr. apply keeps_ret. exact Hr.
    - apply keeps_ret. reflexivity. }
  intros [c d'] Hc. cbn in Hc. subst c.
  destruct (q3 (chunks_needed ci)).
  - eapply keeps_bind; [apply keeps_read_tmp_chunk_zy|]. intros d3 _.
    apply keeps_ret. cbn. destruct ci; reflexivity.
  - apply keeps_ret. reflexivity.
Qed.

Lemma keeps_launch_threads ci vi off gs ge spt t st data :
  keeps (fun _ => True) (launch_threads ci vi off gs ge spt t st data).
Proof.
  intros w. split; [|trivial].
  destruct (launch_threads_log ci vi off gs ge spt t st data w) as (s & E).
  rewrite E. cbn. discriminate.
Qed.

Lemma flags_agree_same ci ci' : same_flags ci ci' -> flags_agree ci -> flags_agree ci'.
Proof. intros (S & N) (F1 & F2). unfold flags_agree. rewrite S, N. split; assumption. Qed.

Lemma keeps_assemble_chunk cin cout t ci vi data :
  flags_agree ci ->
  keeps (fun r => flags_agree (fst (fst r)))
    (assemble_chunk str_format cin cout t ci vi data).
Proof.
  intros F. unfold assemble_chunk.
  eapply keeps_bind; [apply load_chunks_keeps; exact F|].
  intros [c d] Hc. cbn in Hc. subst c.
  eapply keeps_bind; [apply keeps_lift_any, np_empty_not_stitch|]. intros s0 _.
  eapply keeps_bind; [apply keeps_launch_threads|]. intros s1 _.
  destruct (_ <? _).
  - eapply keeps_bind.
    { apply load_chunks_keeps.
      apply (flags_agree_same ci); [split; reflexivity|exact F]. }
    intros [c d'] Hc. cbn in Hc. subst c.
    eapply keeps_bind; [apply keeps_launch_threads|]. intros s2 _.
    apply keeps_ret. cbn.
    apply (flags_agree_same ci); [split; reflexivity|exact F].
  - apply keeps_ret. exact F.
Qed.

Lemma get_indices_flags ci vi d :
  let ci' := fst (get_indices ci vi d) in
  chunks_needed ci' = chunks_needed ci
  /\ forall d', tget (stitch ci) d' = true -> tget (stitch ci') d' = true.
Proof.
  cbv zeta. unfold get_indices.
  repeat match goal with
         | |- context [if ?b then _ else _] => destruct b
         end; cbn; (split; [reflexivity|]); intros d' H; try exact H;
    destruct d, d'; cbn in *; auto.
Qed.

Lemma get_indices_other_flag ci vi d d' :
  d <> d' -> tget (stitch (fst (get_indices ci vi d))) d' = tget (stitch ci) d'.
Proof.
  intros N. unfold get_indices.
  repeat match goal with
         | |- context [if ?b then _ else _] => destruct b
         end; cbn; try reflexivity; apply tget_tset_other; exact N.
Qed.

Lemma keeps_x_body cin cout t z y x s :
  flags_agree (st_ci s) ->
  keeps (fun s' => flags_agree (st_ci s')) (x_body str_format cin cout t z y x s).
Proof.
  intros (F1 & F2). unfold x_body.
  pose proof (get_indices_flags (st_ci s) (st_vi s) A2) as (GN & GS).
  pose proof (get_indices_other_flag (st_ci s) (st_vi s) A2 A0 ltac:(discriminate)) as G0.
  pose proof (get_indices_other_flag (st_ci s) (st_vi s) A2 A1 ltac:(discriminate)) as G1.
  destruct (get_indices (st_ci s) (st_vi s) A2) as [ci vi]. cbn [fst tget] in *.
  eapply keeps_bind.
  { apply keeps_assemble_chunk.
    destruct (p0 (stitch ci) && p1 (stitch ci)); unfold flags_agree; cbn;
      rewrite ?GN, G0, G1; split; assumption. }
  intros [[c d] st] Hc. cbn in Hc.
  eapply keeps_bind; [apply keeps_lift_any, formatted_not_stitch|]. intros p _.
  eapply keeps_bind; [apply keeps_write_volume|]. intros _ _.
  apply keeps_ret. exact Hc.
Qed.

End GuardFacts.

Lemma update_and_reset_params_flags vi ci d cout vd :
  d <> A2 -> flags_agree ci ->
  flags_agree (snd (update_and_reset_params vi ci d cout vd)).
Proof.
  intros Hd (F1 & F2). unfold update_and_reset_params, flags_agree.
  destruct (tget (stitch ci) d);
    match goal with
    | |- context [if ?b then with_chunk_size_out _ _ else _] => destruct b
    end; destruct d; try contradiction; cbn; split; intros H;
    try discriminate; auto.
Qed.

Section GuardLoops.
Variable str_format : string -> Z -> Z -> Z -> option string.

Lemma keeps_y_body cin cout vd t z y s :
  flags_agree (st_ci s) ->
  keeps (fun s' => flags_agree (st_ci s')) (y_body str_format cin cout vd t z y s).
Proof.
  intros (F1 & F2). unfold y_body.
  set (ci0 := with_end_element
                (with_chunk_index (st_ci s) (tset (chunk_index (st_ci s)) A2 1))
                (tset (end_element
                         (with_chunk_index (st_ci s) (tset (chunk_index (st_ci s)) A2 1)))
                      A2 0)).
  assert (F : flags_agree ci0) by (split; assumption).
  destruct F as (F1' & F2').
  pose proof (get_indices_flags ci0 (st_vi s) A1) as (GN & GS).
  pose proof (get_indices_other_flag ci0 (st_vi s) A1 A0 ltac:(discriminate)) as G0.
  destruct (get_indices ci0 (st_vi s) A1) as [ci vi]. cbn [fst tget] in *.
  eapply keeps_bind; [apply keeps_lift_any, py_range_not_stitch|]. intros xs _.
  eapply keeps_bind.
  { apply keeps_for_each.
    - intros x s' Hs'. apply keeps_x_body. exact Hs'.
    - cbn [st_ci]. destruct (p1 (stitch ci)) eqn:S1; unfold flags_agree; cbn;
        rewrite ?GN, ?G0, ?S1; split; intros H; auto.
      pose proof (GS A1 (F1' H)) as X. cbn in X. congruence. }
  intros s' Hs'.
  pose proof (update_and_reset_params_flags (st_vi s') (st_ci s') A1 cout vd
                ltac:(discriminate) Hs') as U.
  destruct (update_and_reset_params (st_vi s') (st_ci s') A1 cout vd) as [vi' ci'].
  apply keeps_ret. exact U.
Qed.

Lemma keeps_z_body cin cout vd t z s :
  flags_agree (st_ci s) ->
  keeps (fun s' => flags_agree (st_ci s')) (z_body str_format cin cout vd t z s).
Proof.
  intros (F1 & F2). unfold z_body.
  set (ci0 := with_end_element
                (with_chunk_index (st_ci s) (tset (chunk_index (st_ci s)) A1 1))
                (tset (end_element
                         (with_chunk_index (st_ci s) (tset (chunk_index (st_ci s)) A1 1)))
                      A1 0)).
  assert (F : flags_agree ci0) by (split; assumption).
  destruct F as (F1' & F2').
  pose proof (get_indices_flags ci0 (st_vi s) A0) as (GN & GS).
  pose proof (get_indices_other_flag ci0 (st_vi s) A0 A1 ltac:(discriminate)) as G1.
  destruct (get_indices ci0 (st_vi s) A0) as [ci vi]. cbn [fst tget] in *.
  eapply keeps_bind; [apply keeps_lift_any, py_range_not_stitch|]. intros ys _.
  eapply keeps_bind.
  { apply keeps_for_each.
    - intros y s' Hs'. apply keeps_y_body. exact Hs'.
    - cbn [st_ci]. destruct (p0 (stitch ci)) eqn:S0; unfold flags_agree; cbn;
        rewrite ?GN, ?G1, ?S0; split; intros H; auto.
      pose proof (GS A0 (F2' H)) as X. cbn in X. congruence. }
  intros s' Hs'.
  pose proof (update_and_reset_params_flags (st_vi s') (st_ci s') A0 cout vd
                ltac:(discriminate) Hs') as U.
  destruct (update_and_reset_params (st_vi s') (st_ci s') A0 cout vd) as [vi' ci'].
  apply keeps_ret. exact U.
Qed.

Lemma keeps_calculate_volume_dim cin last :
  keeps (fun _ => True) (calculate_volume_dim cin last).
Proof.
  unfold calculate_volume_dim.
  eapply keeps_bind.
  { apply keeps_lift_any. unfold int64_triple.
    match goal with |- context [if ?b then _ else _] => destruct b end; discriminate. }
  intros c _.
  eapply keeps_bind.
  { apply keeps_lift_any. unfold int64_list.
    match goal with |- context [if ?b then _ else _] => destruct b end; discriminate. }
  intros l _.
  eapply keeps_bind.
  { apply keeps_lift_any.
    destruct l as [|a [|b [|c' [|d l]]]]; cbn; discriminate. }
  intros k _.
  eapply keeps_bind; [apply keeps_read_volume|]. intros v _.
  apply keeps_ret. trivial.
Qed.

End GuardLoops.

(** X10.  [convert_chunked_volume] never raises the exception of
    [__load_next_chunk]: where [chunks_needed] asks for a neighbour, [stitch]
    is set on its axis. *)
Theorem convert_chunked_volume_guard_holds str_format pin cin last pout cout t w :
  fst (convert_chunked_volume str_format pin cin last pout cout t w)
  <> Raise StitchNotSet.
Proof.
  assert (K : keeps (fun _ => True)
                (convert_chunked_volume str_format pin cin last pout cout t)).
  { unfold convert_chunked_volume.
    eapply keeps_bind; [apply keeps_calculate_volume_dim|]. intros vd _.
    destruct (negb _).
    - intros w0. split; [cbn; discriminate|trivial].
    - eapply keeps_bind; [apply keeps_lift_any, py_range_not_stitch|]. intros zs _.
      eapply keeps_bind.
      { apply keeps_for_each.
        - intros z s Hs. apply keeps_z_body. exact Hs.
        - cbn. split; intros H; discriminate. }
      intros s _. apply keeps_ret. trivial. }
  apply K.
Qed.

(** ** Cells of [float64] buffers *)

(** Above [2^53] a label is rounded, a tie to the even neighbour. *)
Lemma f64_examples :
  map f64 [9007199254740992; 9007199254740993; 9007199254740995;
           18014398509481990; - 9007199254740993; 9223372036854775807]
  = [9007199254740992; 9007199254740992; 9007199254740996;
     18014398509481992; - 9007199254740992; 9223372036854775808].
Proof. vm_compute. reflexivity. Qed.

(** An integer of at most 53 bits is kept as it is. *)
Lemma f64_small z : Z.abs z < 9007199254740992 -> f64 z = z.
Proof.
  intros H. unfold f64.
  destruct (Z.leb_spec (Z.log2 (Z.abs z) - 52) 0) as [L|L]; [reflexivity|].
  exfalso.
  assert (P : 0 < Z.abs z).
  { destruct (Z.eq_dec (Z.abs z) 0) as [E|E]; [rewrite E in L; cbn in L; lia|lia]. }
  assert (X : Z.log2 (Z.abs z) < 53).
  { apply Z.log2_lt_pow2; [exact P|]. exact H. }
  lia.
Qed.

(** The rounded magnitude: a number of 53 bits times a power of two. *)
Lemma f64_shape z :
  0 < Z.log2 (Z.abs z) - 52 ->
  exists q, 4503599627370496 <= q <= 9007199254740992
            /\ f64 z = Z.sgn z * (q * 2 ^ (Z.log2 (Z.abs z) - 52)).
Proof.
  intros He. unfold f64.
  set (a := Z.abs z) in *. set (e := Z.log2 a - 52) in *.
  destruct (Z.leb_spec e 0); [lia|].
  assert (Pa : 0 < a).
  { destruct (Z.eq_dec a 0) as [E|E]; [|unfold a in *; lia].
    unfold e in He. rewrite E in He. cbn in He. lia. }
  destruct (Z.log2_spec a Pa) as [Lo Hi].
  replace (Z.log2 a) with (52 + e) in Lo by (unfold e; lia).
  replace (Z.succ (Z.log2 a)) with (53 + e) in Hi by (unfold e; lia).
  rewrite Z.pow_add_r in Lo, Hi by lia.
  assert (P2 : 0 < 2 ^ e) by (apply Z.pow_pos_nonneg; lia).
  rewrite Z.shiftr_div_pow2 by lia.
  assert (Q : 4503599627370496 <= a / 2 ^ e < 9007199254740992).
  { split.
    - apply Z.div_le_lower_bound; [exact P2|].
      change (2 ^ 52) with 4503599627370496 in Lo. lia.
    - apply Z.div_lt_upper_bound; [exact P2|].
      change (2 ^ 53) with 9007199254740992 in Hi. lia. }
  match goal with
  | |- context [if ?b then _ else _] => destruct b
  end; eexists; (split; [|rewrite Z.shiftl_mul_pow2 by lia; reflexivity]); lia.
Qed.

Lemma f64_idem z : f64 (f64 z) = f64 z.
Proof.
  destruct (Z.leb_spec (Z.log2 (Z.abs z) - 52) 0) as [L|L].
  - assert (E : f64 z = z).
    { unfold f64. destruct (Z.leb_spec (Z.log2 (Z.abs z) - 52) 0); [reflexivity|lia]. }
    rewrite E. exact E.
  - destruct (f64_shape z L) as (q & Hq & E). rewrite E.
    set (e := Z.log2 (Z.abs z) - 52) in *.
    assert (P2 : 0 < 2 ^ e) by (apply Z.pow_pos_nonneg; lia).
    assert (Sz : Z.sgn z = 1 \/ Z.sgn z = -1).
    { destruct z; cbn in *; try lia. }
    assert (A : Z.abs (Z.sgn z * (q * 2 ^ e)) = q * 2 ^ e).
    { destruct Sz as [-> | ->]; nia. }
    assert (Sg : Z.sgn (Z.sgn z * (q * 2 ^ e)) = Z.sgn z).
    { destruct Sz as [S | S]; rewrite S.
      - apply Z.sgn_pos. nia.
      - apply Z.sgn_neg; nia. }
    unfold f64 at 1. rewrite A, Sg.
    destruct (Z.eq_dec q 9007199254740992) as [Q|Q].
    + subst q.
      assert (Lg : Z.log2 (9007199254740992 * 2 ^ e) = 53 + e).
      { change 9007199254740992 with (2 ^ 53). rewrite <- Z.pow_add_r by lia.
        apply Z.log2_pow2. lia. }
      rewrite Lg.
      destruct (Z.leb_spec (53 + e - 52) 0); [lia|].
      rewrite Z.shiftr_div_pow2, !Z.shiftl_mul_pow2 by lia.
      replace (53 + e - 52) with (e + 1) by lia.
      rewrite Z.pow_add_r by lia. change (2 ^ 1) with 2.
      replace (9007199254740992 * 2 ^ e / (2 ^ e * 2)) with 4503599627370496.
      2:{ apply Z.div_unique_exact; lia. }
      replace (9007199254740992 * 2 ^ e - 4503599627370496 * (2 ^ e * 2)) with 0 by lia.
      replace (e + 1 - 1) with e by lia.
      destruct (Z.ltb_spec (1 * 2 ^ e) 0); [lia|].
      destruct (Z.eqb_spec 0 (1 * 2 ^ e)); [lia|].
      cbn [orb andb]. f_equal. lia.
    + assert (Lg : Z.log2 (q * 2 ^ e) = 52 + e).
      { apply Z.log2_unique; [lia|].
        replace (Z.succ (52 + e)) with (53 + e) by lia.
        rewrite !Z.pow_add_r by lia.
        change (2 ^ 52) with 4503599627370496.
        change (2 ^ 53) with 9007199254740992. nia. }
      rewrite Lg.
      replace (52 + e - 52) with e by lia.
      destruct (Z.leb_spec e 0); [lia|].
      rewrite Z.shiftr_div_pow2, !Z.shiftl_mul_pow2 by lia.
      rewrite Z.div_mul by lia.
      replace (q * 2 ^ e - q * 2 ^ e) with 0 by lia.
      assert (P3 : 0 < 2 ^ (e - 1)) by (apply Z.pow_pos_nonneg; lia).
      destruct (Z.ltb_spec (1 * 2 ^ (e - 1)) 0); [lia|].
      destruct (Z.eqb_spec 0 (1 * 2 ^ (e - 1))); [lia|].
      cbn [orb andb]. reflexivity.
Qed.

Lemma option_map_f64_idem (c : cell) :
  option_map f64 (option_map f64 c) = option_map f64 c.
Proof. destruct c as [z|]; cbn; [rewrite f64_idem|]; reflexivity. Qed.

(** ** One output chunk from one input chunk *)

Section ChunkFacts.
Variable str_format : string -> Z -> Z -> Z -> option string.

(** A chunk file of the shape [chunk_size_in] is loaded cell by cell. *)
Lemma read_tmp_chunk_zy_copy ci vi w path file :
  str_format (path_in_format vi) (p2 (chunk_index ci) - 1)
    (p1 (chunk_index ci) - 1) (p0 (chunk_index ci) - 1) = Some path ->
  lookup path (disk w) = Some file ->
  shape file = chunk_size_in vi ->
  0 <= p0 (chunk_size_in vi) -> 0 <= p1 (chunk_size_in vi) ->
  0 <= p2 (chunk_size_in vi) ->
  exists d0,
    read_tmp_chunk_zy str_format ci vi w
    = (Ok d0, W (disk w) (log w ++ [EvRead path]))
    /\ shape d0 = chunk_size_in vi
    /\ forall i j k, inside (chunk_size_in vi) i j k ->
         item d0 i j k = option_map f64 (item file i j k).
Proof.
  intros F L S H0 H1 H2.
  unfold read_tmp_chunk_zy, bind, lift, formatted, read_volume, np_zeros, nonneg3.
  destruct (Z.leb_spec 0 (p0 (chunk_size_in vi))); [|lia].
  destruct (Z.leb_spec 0 (p1 (chunk_size_in vi))); [|lia].
  destruct (Z.leb_spec 0 (p2 (chunk_size_in vi))); [|lia].
  cbn [andb]. rewrite F, L. unfold nd_assign, as_float64. cbn [shape item]. rewrite S.
  destruct (slice_whole _ H0) as (A0 & L0).
  destruct (slice_whole _ H1) as (A1 & L1).
  destruct (slice_whole _ H2) as (A2 & L2).
  rewrite A0, A1, A2, L0, L1, L2. unfold fits. rewrite !Z.eqb_refl. cbn [orb andb].
  eexists. split; [reflexivity|]. split; [reflexivity|].
  intros i j k (Hi & Hj & Hk). cbn [item]. unfold within.
  destruct (Z.leb_spec 0 i); [|lia].
  destruct (Z.ltb_spec i (0 + p0 (chunk_size_in vi))); [|lia].
  destruct (Z.leb_spec 0 j); [|lia].
  destruct (Z.ltb_spec j (0 + p1 (chunk_size_in vi))); [|lia].
  destruct (Z.leb_spec 0 k); [|lia].
  destruct (Z.ltb_spec k (0 + p2 (chunk_size_in vi))); [|lia].
  cbn [andb]. unfold bidx.
  destruct (Z.eqb_spec (p0 (chunk_size_in vi)) 1),
    (Z.eqb_spec (p1 (chunk_size_in vi)) 1),
    (Z.eqb_spec (p2 (chunk_size_in vi)) 1);
    first [reflexivity | f_equal; f_equal; lia].
Qed.

Lemma load_chunks_single ci vi data w path file :
  q1 (chunks_needed ci) = false -> q2 (chunks_needed ci) = false ->
  q3 (chunks_needed ci) = false ->
  str_format (path_in_format vi) (p2 (chunk_index ci) - 1)
    (p1 (chunk_index ci) - 1) (p0 (chunk_index ci) - 1) = Some path ->
  lookup path (disk w) = Some file ->
  shape file = chunk_size_in vi ->
  0 <= p0 (chunk_size_in vi) -> 0 <= p1 (chunk_size_in vi) ->
  0 <= p2 (chunk_size_in vi) ->
  exists d0,
    load_chunks str_format ci vi data w
    = (Ok (ci, Q4 (Some d0) (q1 data) (q2 data) (q3 data)),
       W (disk w) (log w ++ [EvRead path]))
    /\ shape d0 = chunk_size_in vi
    /\ forall i j k, inside (chunk_size_in vi) i j k ->
         item d0 i j k = option_map f64 (item file i j k).
Proof.
  intros N1 N2 N3 F L S H0 H1 H2.
  destruct (read_tmp_chunk_zy_copy ci vi w path file F L S H0 H1 H2)
    as (d0 & E & Sd & C).
  exists d0. split; [|split; assumption].
  unfold load_chunks, load_current_chunk. unfold bind at 1. rewrite E.
  rewrite N1. unfold bind at 1. cbn [ret]. rewrite N2.
  unfold bind at 1. cbn [ret]. rewrite N3. reflexivity.
Qed.

Lemma triple_eta (c : triple Z) : T3 (p0 c) (p1 c) (p2 c) = c.
Proof. destruct c; reflexivity. Qed.

Lemma assemble_chunk_copy cout' t ci vi data w path file :
  0 < t ->
  q1 (chunks_needed ci) = false -> q2 (chunks_needed ci) = false ->
  q3 (chunks_needed ci) = false ->
  p0 (stitch ci) = false -> p1 (stitch ci) = false ->
  str_format (path_in_format vi) (p2 (chunk_index ci) - 1)
    (p1 (chunk_index ci) - 1) (p0 (chunk_index ci) - 1) = Some path ->
  lookup path (disk w) = Some file ->
  shape file = chunk_size_in vi ->
  0 <= p0 (start_element ci) ->
  p0 (end_element ci) <= p0 (chunk_size_in vi) ->
  p0 (end_element ci) - p0 (start_element ci) = p0 (chunk_size_out vi) ->
  0 <= p1 (start_element ci) ->
  p1 (end_element ci) <= p1 (chunk_size_in vi) ->
  p1 (end_element ci) - p1 (start_element ci) = p1 (chunk_size_out vi) ->
  0 <= p0 (chunk_size_out vi) -> 0 <= p1 (chunk_size_out vi) ->
  0 <= p2 (chunk_size_out vi) ->
  0 <= p2 (start_element ci) ->
  Z.min (p2 (chunk_size_in vi) - p2 (start_element ci)) (p2 cout')
  = p2 (chunk_size_out vi) ->
  exists data' st w',
    assemble_chunk str_format (chunk_size_in vi) cout' t ci vi data w
    = (Ok (ci, data', st), w')
    /\ disk w' = disk w
    /\ shape st = chunk_size_out vi
    /\ forall i j k,
        inside (chunk_size_out vi) i j k ->
        item st i j k
        = option_map f64
            (item file (p0 (start_element ci) + i) (p1 (start_element ci) + j)
               (p2 (start_element ci) + k)).
Proof.
  intros Ht N1 N2 N3 S0 S1 F L Sf A0 B0 C0 A1 B1 C1 O0 O1 O2 A2 M.
  destruct (load_chunks_single ci vi data w path file N1 N2 N3 F L Sf)
    as (d0 & E & Sd & Cd); try lia.
  set (data' := Q4 (Some d0) (q1 data) (q2 data) (q3 data)) in *.
  assert (SL : forall k, p2 (start_element ci) <= k
                         < p2 (start_element ci) + p2 (chunk_size_out vi) ->
               exists p, get_slice_zy ci vi data' k = Ok p
                         /\ forall i j, 0 <= i < p0 (chunk_size_out vi) ->
                                        0 <= j < p1 (chunk_size_out vi) ->
                              pitem p i j
                              = item d0 (p0 (start_element ci) + i)
                                  (p1 (start_element ci) + j) k).
  { intros k Hk.
    destruct (get_slice_zy_copy ci vi data' d0 k) as (p & Ep & _ & _ & Cp);
      try assumption; try reflexivity; try lia.
    exists p. split; assumption. }
  set (sl := fun k => match get_slice_zy ci vi data' k with
                      | Ok p => p
                      | Raise _ => Pl 0 0 (fun _ _ => None)
                      end).
  unfold assemble_chunk. unfold bind at 1. rewrite E.
  unfold bind at 1, lift at 1, np_empty, nonneg3.
  destruct (Z.leb_spec 0 (p0 (chunk_size_out vi))); [|lia].
  destruct (Z.leb_spec 0 (p1 (chunk_size_out vi))); [|lia].
  destruct (Z.leb_spec 0 (p2 (chunk_size_out vi))); [|lia].
  cbn [andb]. rewrite M. unfold bind at 1.
  match goal with
  | |- context [launch_threads ci vi ?off ?gs ?n ?q t ?st0 data' ?w1] =>
      destruct (launch_threads_fills ci vi off gs n t st0 data' w1
                  (p2 (chunk_size_out vi)) sl) as (st & El & Ss & Ps);
        try assumption; try lia
  end.
  { cbn [shape]. symmetry. apply triple_eta. }
  { intros k Hk. unfold sl. destruct (SL k Hk) as (p & -> & _). reflexivity. }
  match goal with
  | |- context [launch_threads ci vi ?off ?gs ?n ?q t ?st0 data' ?w1] =>
      destruct (launch_threads_log ci vi off gs n q t st0 data' w1) as (r & Lg)
  end.
  rewrite Lg in El |- *. cbn [fst] in El. injection El as ->.
  rewrite Z.ltb_irrefl. unfold ret.
  eexists data', st, _. split; [reflexivity|]. split; [reflexivity|].
  split; [exact Ss|].
  intros i j k (Hi & Hj & Hk). rewrite Ps by assumption.
  destruct (Z.leb_spec (p2 (start_element ci) + - p2 (start_element ci)) k); [|lia].
  destruct (Z.ltb_spec k (p2 (start_element ci) + p2 (chunk_size_out vi)
                          + - p2 (start_element ci))); [|lia].
  cbn [andb]. unfold sl.
  destruct (SL (k - - p2 (start_element ci)) ltac:(lia)) as (p & -> & Cp).
  rewrite Cp by assumption. rewrite Cd by (unfold inside; lia).
  rewrite option_map_f64_idem. do 2 f_equal. lia.
Qed.

(** X11.  An output chunk that lies in one input chunk.  Suppose that no
    neighbour is needed and no stitch is set on the axes 0 and 1, that the
    file of the current chunk has the shape [chunk_size_in], that on the axes
    0 and 1 [start_element] and [end_element] lie in the chunk and are
    [chunk_size_out] apart, and that the slices along the last axis come from
    the current chunk alone.  Then the body of the innermost loop of
    [convert_chunked_volume] assembles the block of the chunk file that
    starts at [start_element], each cell converted to [float64]. *)
Theorem assemble_chunk_single_pass cout' t ci vi data w path file :
  0 < t ->
  q1 (chunks_needed ci) = false -> q2 (chunks_needed ci) = false ->
  q3 (chunks_needed ci) = false ->
  p0 (stitch ci) = false -> p1 (stitch ci) = false ->
  str_format (path_in_format vi) (p2 (chunk_index ci) - 1)
    (p1 (chunk_index ci) - 1) (p0 (chunk_index ci) - 1) = Some path ->
  lookup path (disk w) = Some file ->
  shape file = chunk_size_in vi ->
  0 <= p0 (start_element ci) ->
  p0 (end_element ci) <= p0 (chunk_size_in vi) ->
  p0 (end_element ci) - p0 (start_element ci) = p0 (chunk_size_out vi) ->
  0 <= p1 (start_element ci) ->
  p1 (end_element ci) <= p1 (chunk_size_in vi) ->
  p1 (end_element ci) - p1 (start_element ci) = p1 (chunk_size_out vi) ->
  0 <= p0 (chunk_size_out vi) -> 0 <= p1 (chunk_size_out vi) ->
  0 <= p2 (chunk_size_out vi) ->
  0 <= p2 (start_element ci) ->
  Z.min (p2 (chunk_size_in vi) - p2 (start_element ci)) (p2 cout')
  = p2 (chunk_size_out vi) ->
  exists data' st w',
    assemble_chunk str_format (chunk_size_in vi) cout' t ci vi data w
    = (Ok (ci, data', st), w')
    /\ shape st = chunk_size_out vi
    /\ forall i j k,
        inside (chunk_size_out vi) i j k ->
        item st i j k
        = option_map f64
            (item file (p0 (start_element ci) + i) (p1 (start_element ci) + j)
               (p2 (start_element ci) + k)).
Proof.
  intros Ht N1 N2 N3 S0 S1 F L Sf X0 Y0 Z0 X1 Y1 Z1 O0 O1 O2 X2 M.
  destruct (assemble_chunk_copy cout' t ci vi data w path file)
    as (data' & st & w' & E & _ & R); try assumption.
  exists data', st, w'. split; [exact E|exact R].
Qed.


End ChunkFacts.

Lemma assemble_chunk_single_pass_witness :
  exists data' st w',
    assemble_chunk format_plain (chunk_size_in (vi_cubes (T3 1 1 1))) (T3 1 1 1) 1
      (ci_cubes (T3 1 0 1) (T3 2 1 2) (T3 false false false)) (vi_cubes (T3 1 1 1))
      (Q4 None None None None) (W disk_cube [])
    = (Ok (ci_cubes (T3 1 0 1) (T3 2 1 2) (T3 false false false), data', st), w')
    /\ shape st = T3 1 1 1
    /\ forall i j k,
        inside (T3 1 1 1) i j k ->
        item st i j k = option_map f64 (item cube (1 + i) (0 + j) (1 + k)).
Proof.
  apply (assemble_chunk_single_pass format_plain (T3 1 1 1) 1
           (ci_cubes (T3 1 0 1) (T3 2 1 2) (T3 false false false))
           (vi_cubes (T3 1 1 1)) (Q4 None None None None) (W disk_cube [])
           "in/x0y0z0.raw" cube); concrete.
Defined.


(** ** A volume in one chunk *)

(** [__get_indices] on an axis on which nothing was read yet and on which the
    chunks in and out have the same size. *)
Lemma get_indices_fresh ci vi d n :
  tget (end_element ci) d = 0 ->
  tget (chunk_size_in vi) d = n -> tget (chunk_size_out vi) d = n -> 0 < n ->
  get_indices ci vi d
  = (with_end_element (with_start_element ci (tset (start_element ci) d 0))
       (tset (end_element ci) d n),
     with_elements_to_read vi
       (tset (elements_to_read vi) d (tget (elements_to_read vi) d - n))).
Proof.
  intros He Hin Hout Hn. unfold get_indices. rewrite He, Hin, Hout.
  destruct (Z.ltb_spec 0 n); [|lia].
  replace (Z.min (n - 0) (n - 0) + 0) with n by lia.
  destruct (Z.eqb_spec n 0); [lia|].
  replace (0 + (n - 0)) with n by lia. rewrite Z.ltb_irrefl.
  destruct ci, d; reflexivity.
Qed.

Lemma py_range_one n : 0 < n -> py_range 0 n n = Ok [0].
Proof.
  intros H. unfold py_range, range_len.
  destruct (Z.eqb_spec n 0); [lia|].
  destruct (Z.ltb_spec 0 n); [|lia].
  replace ((n - 0 - 1) / n + 1) with 1.
  - reflexivity.
  - rewrite Z.div_small by lia. reflexivity.
Qed.

(** [write_volume] with a writer that leaves a file for [read_volume]. *)
Lemma write_volume_stores v path wr file_out w :
  select_writer (map lower (path_suffixes path)) = Some wr ->
  run_writer wr path = inr tt ->
  written_file wr path = Some file_out ->
  write_volume v path w
  = (Ok tt, W ((file_out, v) :: disk w) (log w ++ [EvWrite path])).
Proof.
  intros S R F. unfold write_volume.
  destruct (map lower (path_suffixes path)) as [|x l] eqn:E; [discriminate|].
  cbn [List.length Nat.eqb]. rewrite S, R, F. reflexivity.
Qed.

Section SingleChunk.
Variable str_format : string -> Z -> Z -> Z -> option string.
Variables (pin last pout path_out file_out : string) (wr : writer) (a b t : Z)
  (file : ndarray).
Hypothesis Ha : 0 < a.
Hypothesis Hb : 0 < b.
Hypothesis Ht : 0 < t.
Hypothesis Fi : str_format pin 0 0 0 = Some last.
Hypothesis Sf : shape file = T3 a b a.
Hypothesis Fo : str_format pout 0 0 0 = Some path_out.
Hypothesis Wr : select_writer (map lower (path_suffixes path_out)) = Some wr.
Hypothesis Wk : run_writer wr path_out = inr tt.
Hypothesis Wf : written_file wr path_out = Some file_out.

Lemma x_body_one vd etr s2 data w :
  lookup last (disk w) = Some file ->
  exists st s' w',
    x_body str_format (T3 a b a) (T3 a b a) t 0 0 0
      (St (VI pin (T3 a b a) vd pout (T3 a b a) etr)
          (CI (T3 1 1 1) (T3 0 0 s2) (T3 a b 0) (T3 false false false)
              (Q4 false false false false))
          data) w
    = (Ok s', w')
    /\ disk w' = (file_out, swapaxes02 st) :: disk w
    /\ shape st = T3 a b a
    /\ forall i j k, inside (T3 a b a) i j k ->
         item st i j k = option_map f64 (item file i j k).
Proof.
  intros L. unfold x_body. cbn [st_ci st_vi st_data].
  rewrite (get_indices_fresh _ _ A2 a) by (try reflexivity; assumption).
  cbn [stitch with_end_element with_start_element p0 p1 p2 andb tset
         start_element end_element chunk_index chunks_needed elements_to_read
         with_elements_to_read path_in_format chunk_size_in volume_dim
         path_out_format chunk_size_out].
  unfold bind at 1.
  match goal with
  | |- context [assemble_chunk str_format _ _ t ?ci ?vi data w] =>
      destruct (assemble_chunk_copy str_format (T3 a b a) t ci vi data w last file)
        as (data' & st & w1 & E & Dw & Ss & Cs);
        try reflexivity; try assumption; try (cbn; lia); try (cbn; assumption)
  end.
  cbn [chunk_size_in with_elements_to_read] in E. rewrite E.
  cbn [path_out_format].
  rewrite !Z.div_0_l by lia.
  unfold bind at 1, lift at 1, formatted. rewrite Fo.
  unfold bind at 1.
  rewrite (write_volume_stores _ path_out wr file_out _ Wr Wk Wf). unfold ret.
  eexists st, _, _. split; [reflexivity|]. cbn [disk]. rewrite Dw.
  split; [reflexivity|]. split; [exact Ss|].
  intros i j k I. rewrite (Cs i j k I). cbn [start_element p0 p1 p2].
  do 2 f_equal; lia.
Qed.

Ltac records :=
  unfold with_end_element, with_start_element, with_chunk_index,
    with_chunks_needed, with_elements_to_read;
  cbn [st_ci st_vi st_data stitch with_end_element with_start_element
         with_chunk_index with_chunks_needed p0 p1 p2 tset tget
         start_element end_element chunk_index chunks_needed elements_to_read
         with_elements_to_read path_in_format chunk_size_in volume_dim
         path_out_format chunk_size_out].

Lemma y_body_one vd etr i2 s1 s2 e2 data w :
  lookup last (disk w) = Some file ->
  exists st s' w',
    y_body str_format (T3 a b a) (T3 a b a) (T3 a b a) t 0 0
      (St (VI pin (T3 a b a) vd pout (T3 a b a) etr)
          (CI (T3 1 1 i2) (T3 0 s1 s2) (T3 a 0 e2) (T3 false false false)
              (Q4 false false false false))
          data) w
    = (Ok s', w')
    /\ disk w' = (file_out, swapaxes02 st) :: disk w
    /\ shape st = T3 a b a
    /\ forall i j k, inside (T3 a b a) i j k ->
         item st i j k = option_map f64 (item file i j k).
Proof.
  intros L. unfold y_body. records.
  rewrite (get_indices_fresh _ _ A1 b) by (try reflexivity; assumption).
  records.
  unfold bind at 1, lift at 1. rewrite (py_range_one a Ha).
  cbn [for_each]. unfold bind at 1. unfold bind at 1.
  match goal with
  | |- context [x_body str_format _ _ t 0 0 0
                  (St (VI _ _ _ _ _ ?etr') (CI _ (T3 _ _ ?s2') _ _ _) ?d) w] =>
      destruct (x_body_one vd etr' s2' d w L) as (st & s' & w1 & E & Dw & Ss & Cs)
  end.
  rewrite E. unfold ret at 1.
  destruct (update_and_reset_params (st_vi s') (st_ci s') A1 (T3 a b a) (T3 a b a))
    as [vi' ci'].
  unfold ret. eexists st, _, _. split; [reflexivity|].
  split; [exact Dw|]. split; assumption.
Qed.

Lemma z_body_one vd etr data w :
  lookup last (disk w) = Some file ->
  exists st s' w',
    z_body str_format (T3 a b a) (T3 a b a) (T3 a b a) t 0
      (St (VI pin (T3 a b a) vd pout (T3 a b a) etr)
          (CI (T3 1 1 1) (T3 0 0 0) (T3 0 0 0) (T3 false false false)
              (Q4 false false false false))
          data) w
    = (Ok s', w')
    /\ disk w' = (file_out, swapaxes02 st) :: disk w
    /\ shape st = T3 a b a
    /\ forall i j k, inside (T3 a b a) i j k ->
         item st i j k = option_map f64 (item file i j k).
Proof.
  intros L. unfold z_body. records.
  rewrite (get_indices_fresh _ _ A0 a) by (try reflexivity; assumption).
  records.
  unfold bind at 1, lift at 1. rewrite (py_range_one b Hb).
  cbn [for_each]. unfold bind at 1. unfold bind at 1.
  match goal with
  | |- context [y_body str_format _ _ _ t 0 0
                  (St (VI _ _ _ _ _ ?etr') _ ?d) w] =>
      destruct (y_body_one vd etr' 1 0 0 0 d w L) as (st & s' & w1 & E & Dw & Ss & Cs)
  end.
  rewrite E. unfold ret at 1.
  destruct (update_and_reset_params (st_vi s') (st_ci s') A0 (T3 a b a) (T3 a b a))
    as [vi' ci'].
  unfold ret. eexists st, _, _. split; [reflexivity|].
  split; [exact Dw|]. split; assumption.
Qed.

End SingleChunk.

(** X13.  A volume in one chunk of [a] x [b] x [a] voxels, with [a] and [b]
    below [2^62], converted to chunks of the same size whose file type has a
    writer that returns and leaves a file that [read_volume] reads, is
    written to that file with its first and last axes exchanged, each cell
    converted to [float64]. *)
Theorem convert_single_chunk str_format pin last pout a b t w file path_out wr
    file_out :
  0 < a < 4611686018427387904 -> 0 < b < 4611686018427387904 -> 0 < t ->
  digit_runs (before_dot last) None = [0; 0; 0] ->
  str_format pin 0 0 0 = Some last ->
  lookup last (disk w) = Some file ->
  shape file = T3 a b a ->
  str_format pout 0 0 0 = Some path_out ->
  select_writer (map lower (path_suffixes path_out)) = Some wr ->
  run_writer wr path_out = inr tt ->
  written_file wr path_out = Some file_out ->
  exists out w',
    convert_chunked_volume str_format pin (T3 a b a) last pout (T3 a b a) t w
    = (Ok tt, w')
    /\ lookup file_out (disk w') = Some out
    /\ shape out = T3 a b a
    /\ forall i j k, inside (T3 a b a) i j k ->
         item out i j k = option_map f64 (item file k j i).
Proof.
  intros Ha Hb Ht D Fi L S Fo Wr Wk Wf.
  assert (Ia : int64 a = true).
  { unfold int64. apply andb_true_intro. split; [apply Z.leb_le|apply Z.ltb_lt]; lia. }
  assert (Ib : int64 b = true).
  { unfold int64. apply andb_true_intro. split; [apply Z.leb_le|apply Z.ltb_lt]; lia. }
  unfold convert_chunked_volume.
  unfold bind at 1. unfold calculate_volume_dim. rewrite D.
  unfold int64_triple, int64_list. cbn [p0 p1 p2]. rewrite Ia, Ib.
  cbn [andb forallb]. change (int64 0) with true. cbn [andb].
  unfold bind at 1, lift at 1. unfold bind at 1, lift at 1.
  cbn [broadcast3].
  unfold bind at 1, lift at 1. unfold bind at 1, read_volume at 1. rewrite L.
  unfold ret at 1. rewrite S. unfold trev. cbn [p0 p1 p2].
  rewrite !Z.mul_0_r. change (wrap64 0) with 0. rewrite !Z.add_0_l.
  rewrite !(wrap64_int64 a Ia), !(wrap64_int64 b Ib).
  unfold is_volume_conversion_valid, tany. cbn [p0 p1 p2].
  rewrite !(wrap64_double a), !(wrap64_double b) by lia.
  destruct (Z.ltb_spec (a * 2) a); [lia|].
  destruct (Z.ltb_spec (b * 2) b); [lia|].
  rewrite !Z.ltb_irrefl. cbn [orb negb].
  unfold bind at 1, lift at 1. rewrite (py_range_one a ltac:(lia)).
  cbn [for_each]. unfold bind at 1. unfold bind at 1.
  match goal with
  | |- context [z_body str_format _ _ _ t 0 (St (VI _ _ ?vd _ _ ?etr) _ ?d) ?w1] =>
      destruct (z_body_one str_format pin last pout path_out file_out wr a b t file
                  ltac:(lia) ltac:(lia) Ht Fi S Fo Wr Wk Wf vd etr d w1 L)
        as (st & s' & w2 & E & Dw & Ss & Cs)
  end.
  rewrite E. unfold ret.
  exists (swapaxes02 st), w2. split; [reflexivity|].
  split; [rewrite Dw; cbn [lookup]; rewrite String.eqb_refl; reflexivity|].
  split; [unfold swapaxes02; cbn [shape]; rewrite Ss; reflexivity|].
  intros i j k (Hi & Hj & Hk). unfold swapaxes02. cbn [item].
  apply Cs. cbn [p0 p1 p2] in *. unfold inside. cbn [p0 p1 p2]. lia.
Qed.

Lemma convert_single_chunk_witness :
  exists out w',
    convert_chunked_volume format_plain "in/x{}y{}z{}.raw" (T3 2 2 2)
      "in/x0y0z0.raw" "out/x{}y{}z{}.raw" (T3 2 2 2) 4 (W disk_cube [])
    = (Ok tt, w')
    /\ lookup "out/x0y0z0.raw" (disk w') = Some out
    /\ shape out = T3 2 2 2
    /\ forall i j k, inside (T3 2 2 2) i j k ->
         item out i j k = option_map f64 (item cube k j i).
Proof.
  apply (convert_single_chunk format_plain "in/x{}y{}z{}.raw" "in/x0y0z0.raw"
           "out/x{}y{}z{}.raw" 2 2 4 (W disk_cube []) cube "out/x0y0z0.raw"
           write_vraw "out/x0y0z0.raw");
    first [reflexivity | lia | vm_compute; reflexivity].
Defined.

(** ** The files written *)

Lemma written_app l1 l2 : written (l1 ++ l2) = written l1 ++ written l2.
Proof. unfold written. apply flat_map_app. Qed.

Lemma written_reads ps : written (map EvRead ps) = [].
Proof. induction ps as [|p ps IH]; [reflexivity|exact IH]. Qed.

Lemma written_joins l : written (map EvJoin l) = [].
Proof. induction l as [|p ps IH]; [reflexivity|exact IH]. Qed.

Lemma written_starts off idxs rs : written (starts off idxs rs) = [].
Proof.
  unfold starts. induction (combine idxs rs) as [|p ps IH]; [reflexivity|exact IH].
Qed.

Lemma writes_ret {A} (I : A -> Prop) a : I a -> writes I (ret a) [].
Proof.
  intros H w a' w' E. inversion E; subst. split; [exact H|].
  exists []. split; [reflexivity|]. rewrite app_nil_r. reflexivity.
Qed.

Lemma writes_bind {A B} (J : A -> Prop) (I : B -> Prop) (m : io A) (k : A -> io B)
    e1 e2 :
  writes J m e1 -> (forall a, J a -> writes I (k a) e2) -> writes I (bind m k) (e1 ++ e2).
Proof.
  intros Hm Hk w b w'. unfold bind.
  destruct (m w) as [[a|e] w1] eqn:E; [|discriminate].
  intros Ek. destruct (Hm w a w1 E) as (Ja & ps1 & M1 & W1).
  destruct (Hk a Ja w1 b w' Ek) as (Ib & ps2 & M2 & W2).
  split; [exact Ib|]. exists (ps1 ++ ps2). split.
  - rewrite map_app, M1, M2. reflexivity.
  - rewrite W2, W1, app_assoc. reflexivity.
Qed.

Lemma writes_bind_nil {A B} (J : A -> Prop) (I : B -> Prop) (m : io A) (k : A -> io B) e :
  writes J m [] -> (forall a, J a -> writes I (k a) e) -> writes I (bind m k) e.
Proof. intros Hm Hk. apply (writes_bind J I m k [] e Hm Hk). Qed.

Lemma writes_lift {A} (I : A -> Prop) (r : result A) :
  (forall a, r = Ok a -> I a) -> writes I (lift r) [].
Proof.
  intros P w a w' E. inversion E; subst. split; [apply P; reflexivity|].
  exists []. split; [reflexivity|]. rewrite app_nil_r. reflexivity.
Qed.

Lemma writes_weaken {A} (I J : A -> Prop) (m : io A) e :
  writes I m e -> (forall a, I a -> J a) -> writes J m e.
Proof.
  intros H W w a w' E. destruct (H w a w' E) as (Ia & X). split; [auto|exact X].
Qed.

Lemma writes_for_each {S} (I : S -> Prop) (l : list Z) (body : Z -> S -> io S)
    (E : Z -> list (option string)) :
  (forall x s, I s -> writes I (body x s) (E x)) ->
  forall s, I s -> writes I (for_each l body s) (flat_map E l).
Proof.
  intros Hb. induction l as [|x r IH]; intros s Hs; cbn [for_each flat_map].
  - apply writes_ret. exact Hs.
  - eapply writes_bind; [apply Hb; exact Hs|]. intros a Ha. apply IH. exact Ha.
Qed.

Lemma writes_write_volume v path : writes (fun _ => True) (write_volume v path) [Some path].
Proof.
  intros w a w' E.
  destruct (write_volume_cases v path w) as [[e X]|[d X]]; rewrite X in E;
    [discriminate|].
  inversion E; subst. split; [trivial|].
  exists [path]. split; [reflexivity|]. cbn [log]. rewrite written_app. reflexivity.
Qed.

Lemma get_indices_path_out ci vi d :
  path_out_format (snd (get_indices ci vi d)) = path_out_format vi.
Proof.
  unfold get_indices.
  repeat match goal with
         | |- context [if ?b then _ else _] => destruct b
         end; reflexivity.
Qed.

Lemma update_and_reset_params_path_out vi ci d cout vd :
  path_out_format (fst (update_and_reset_params vi ci d cout vd)) = path_out_format vi.
Proof.
  unfold update_and_reset_params.
  destruct (tget (stitch ci) d);
    match goal with
    | |- context [if ?b then with_chunk_size_out _ _ else _] => destruct b
    end; destruct d; reflexivity.
Qed.

Lemma writes_bind_lift {A B} (I : B -> Prop) (r : result A) (k : A -> io B) e :
  (forall a, r = Ok a -> writes I (k a) e) -> writes I (bind (lift r) k) e.
Proof.
  intros H w b w'. unfold bind at 1, lift at 1. destruct r as [a|x]; [|discriminate].
  apply H. reflexivity.
Qed.

Lemma writes_cons_nil {A B} (J : A -> Prop) (I : B -> Prop) (m : io A) (k : A -> io B) p :
  writes J m [p] -> (forall a, J a -> writes I (k a) []) -> writes I (bind m k) [p].
Proof. intros Hm Hk. apply (writes_bind J I m k [p] [] Hm Hk). Qed.

Lemma flat_map_single {A B} (f : A -> B) l : flat_map (fun x => [f x]) l = map f l.
Proof. induction l as [|x r IH]; cbn; [reflexivity|f_equal; exact IH]. Qed.

Lemma flat_map_map {A B C} (g : A -> B) (f : B -> list C) l :
  flat_map f (map g l) = flat_map (fun x => f (g x)) l.
Proof. induction l as [|x r IH]; cbn; [reflexivity|f_equal; exact IH]. Qed.

Section WriteFacts.
Variable str_format : string -> Z -> Z -> Z -> option string.

Lemma writes_load_chunks ci vi data :
  writes (fun _ => True) (load_chunks str_format ci vi data) [].
Proof.
  intros w [c d] w' E. apply load_chunks_ok in E. destruct E as (_ & ps & _ & ->).
  split; [trivial|]. exists []. split; [reflexivity|].
  cbn [log]. rewrite written_app, written_reads. reflexivity.
Qed.

Lemma writes_launch_threads ci vi off gs ge spt t st data :
  writes (fun _ => True) (launch_threads ci vi off gs ge spt t st data) [].
Proof.
  intros w a w' E.
  destruct (launch_threads_log ci vi off gs ge spt t st data w) as (s & L).
  rewrite L in E. inversion E; subst. split; [trivial|].
  exists []. split; [reflexivity|]. cbn [log].
  rewrite !written_app, written_starts, written_joins. reflexivity.
Qed.

Lemma writes_assemble_chunk cin cout t ci vi data :
  writes (fun _ => True) (assemble_chunk str_format cin cout t ci vi data) [].
Proof.
  unfold assemble_chunk.
  eapply writes_bind_nil; [apply writes_load_chunks|]. intros [c d] _.
  apply writes_bind_lift. intros s0 _.
  eapply writes_bind_nil; [apply writes_launch_threads|]. intros s1 _.
  match goal with |- context [if ?b then _ else _] => destruct b end.
  - eapply writes_bind_nil; [apply writes_load_chunks|]. intros [c' d'] _.
    eapply writes_bind_nil; [apply writes_launch_threads|]. intros s2 _.
    apply writes_ret. trivial.
  - apply writes_ret. trivial.
Qed.

Lemma writes_x_body pout cin cout t z y x s :
  path_out_format (st_vi s) = pout ->
  writes (fun s' => path_out_format (st_vi s') = pout)
    (x_body str_format cin cout t z y x s)
    [str_format pout (x / p2 cout) (y / p1 cout) (z / p0 cout)].
Proof.
  intros P. unfold x_body.
  pose proof (get_indices_path_out (st_ci s) (st_vi s) A2) as G.
  destruct (get_indices (st_ci s) (st_vi s) A2) as [ci vi]. cbn [snd] in G.
  eapply writes_bind_nil; [apply writes_assemble_chunk|]. intros [[c d] st] _.
  apply writes_bind_lift. intros path F.
  unfold formatted in F. rewrite G, P in F.
  destruct (str_format pout _ _ _) as [q|]; [|discriminate].
  injection F as ->.
  eapply writes_cons_nil; [apply writes_write_volume|]. intros _ _.
  apply writes_ret. cbn [st_vi].
  match goal with |- context [if ?b then _ else _] => destruct b end;
    cbn; congruence.
Qed.

(** The files of a row of output chunks. *)
Lemma writes_y_body pout cin cout vd t z y s xs :
  py_range 0 (p2 vd) (p2 cout) = Ok xs ->
  path_out_format (st_vi s) = pout ->
  writes (fun s' => path_out_format (st_vi s') = pout)
    (y_body str_format cin cout vd t z y s)
    (map (fun x => str_format pout (x / p2 cout) (y / p1 cout) (z / p0 cout)) xs).
Proof.
  intros R P. unfold y_body.
  match goal with
  | |- context [get_indices ?c ?v A1] =>
      pose proof (get_indices_path_out c v A1) as G;
      destruct (get_indices c v A1) as [ci vi]
  end.
  cbn [snd] in G.
  apply writes_bind_lift. intros xs' R'. rewrite R in R'. injection R' as <-.
  rewrite <- (app_nil_r (map _ xs)), <- flat_map_single.
  eapply writes_bind.
  - apply (writes_for_each (fun s' => path_out_format (st_vi s') = pout)).
    + intros x s' Hs'. apply writes_x_body. exact Hs'.
    + cbn [st_vi]. congruence.
  - intros s' Hs'.
    pose proof (update_and_reset_params_path_out (st_vi s') (st_ci s') A1 cout vd) as U.
    destruct (update_and_reset_params (st_vi s') (st_ci s') A1 cout vd) as [vi' ci'].
    apply writes_ret. cbn [st_vi fst] in *. congruence.
Qed.

(** The files of a layer of output chunks. *)
Lemma writes_z_body pout cin cout vd t z s xs ys :
  py_range 0 (p2 vd) (p2 cout) = Ok xs ->
  py_range 0 (p1 vd) (p1 cout) = Ok ys ->
  path_out_format (st_vi s) = pout ->
  writes (fun s' => path_out_format (st_vi s') = pout)
    (z_body str_format cin cout vd t z s)
    (flat_map (fun y =>
       map (fun x => str_format pout (x / p2 cout) (y / p1 cout) (z / p0 cout)) xs) ys).
Proof.
  intros Rx Ry P. unfold z_body.
  match goal with
  | |- context [get_indices ?c ?v A0] =>
      pose proof (get_indices_path_out c v A0) as G;
      destruct (get_indices c v A0) as [ci vi]
  end.
  cbn [snd] in G.
  apply writes_bind_lift. intros ys' R'. rewrite Ry in R'. injection R' as <-.
  rewrite <- (app_nil_r (flat_map _ ys)).
  eapply writes_bind.
  - apply (writes_for_each (fun s' => path_out_format (st_vi s') = pout)).
    + intros y s' Hs'. apply (writes_y_body pout cin cout vd t z y s' xs Rx Hs').
    + cbn [st_vi]. congruence.
  - intros s' Hs'.
    pose proof (update_and_reset_params_path_out (st_vi s') (st_ci s') A0 cout vd) as U.
    destruct (update_and_reset_params (st_vi s') (st_ci s') A0 cout vd) as [vi' ci'].
    apply writes_ret. cbn [st_vi fst] in *. congruence.
Qed.

End WriteFacts.

(** The chunk numbers of [range(0, d, c)] are [0], ..., [cells d c - 1]. *)
Lemma py_range_cells d c :
  0 < c ->
  exists l, py_range 0 d c = Ok l /\ map (fun x => x / c) l = range0 (cells d c).
Proof.
  intros C. unfold py_range. destruct (c =? 0) eqn:E; [lia|].
  eexists. split; [reflexivity|].
  rewrite map_map. unfold range0.
  assert (L : Z.to_nat (range_len 0 d c) = Z.to_nat (cells d c)).
  { unfold range_len, cells. destruct (0 <? c) eqn:E0; [|lia].
    destruct (0 <? d) eqn:E1.
    - f_equal. replace (d + c - 1) with (d - 0 - 1 + 1 * c) by lia.
      rewrite Z.div_add by lia. lia.
    - assert (H : (d + c - 1) / c <= 0).
      { assert (X : (d + c - 1) / c < 1); [|lia].
        apply Z.div_lt_upper_bound; lia. }
      lia. }
  rewrite L. apply map_ext. intros k.
  replace (0 + Z.of_nat k * c) with (Z.of_nat k * c) by lia.
  apply Z.div_mul. lia.
Qed.

Lemma grid_of_ranges {B} (f : Z -> Z -> Z -> B) cx cy cz xs ys zs nx ny nz :
  map (fun x => x / cx) xs = range0 nx ->
  map (fun y => y / cy) ys = range0 ny ->
  map (fun z => z / cz) zs = range0 nz ->
  flat_map (fun z => flat_map (fun y => map (fun x => f (x / cx) (y / cy) (z / cz)) xs) ys) zs
  = map (fun c => f (fst (fst c)) (snd (fst c)) (snd c)) (grid_files nx ny nz).
Proof.
  intros X Y Z0. unfold grid_files. rewrite <- X, <- Y, <- Z0.
  rewrite flat_map_map.
  rewrite !flat_map_concat_map, concat_map, map_map. f_equal.
  apply map_ext. intros z.
  rewrite flat_map_map.
  rewrite !flat_map_concat_map, concat_map, map_map. f_equal.
  apply map_ext. intros y.
  rewrite !map_map. reflexivity.
Qed.

(** X14.  A conversion that returns has called [write_volume] once for every
    cell of the output grid and for nothing else, each time with the path
    that [path_out_format] gives for the cell, [x] fastest and [z]
    slowest. *)
Theorem convert_chunked_volume_writes_grid str_format pin cin last pout cout t
    w vd w1 w' :
  0 < p0 cout -> 0 < p1 cout -> 0 < p2 cout ->
  calculate_volume_dim cin last w = (Ok vd, w1) ->
  convert_chunked_volume str_format pin cin last pout cout t w = (Ok tt, w') ->
  map Some (written (log w'))
  = map Some (written (log w))
    ++ map (file_path str_format pout)
         (grid_files (cells (p0 vd) (p0 cout)) (cells (p1 vd) (p1 cout))
            (cells (p2 vd) (p2 cout))).
Proof.
  intros C0 C1 C2 V E.
  assert (L1 : written (log w1) = written (log w)).
  { apply calculate_volume_dim_ok in V. subst w1. cbn [log].
    rewrite written_app. cbn. apply app_nil_r. }
  unfold convert_chunked_volume in E. unfold bind at 1 in E. rewrite V in E.
  destruct (negb _); [discriminate|].
  destruct (py_range_cells (p0 vd) (p0 cout) C0) as (xs & Rx & Mx).
  destruct (py_range_cells (p1 vd) (p1 cout) C1) as (ys & Ry & My).
  destruct (py_range_cells (p2 vd) (p2 cout) C2) as (zs & Rz & Mz).
  change (p0 (trev vd)) with (p2 vd) in E.
  change (p0 (trev cout)) with (p2 cout) in E.
  unfold bind at 1, lift at 1 in E. rewrite Rz in E.
  unfold bind at 1 in E.
  match type of E with
  | context [for_each zs ?b ?s w1] =>
      destruct (for_each zs b s w1) as [[s'|x] w2] eqn:F; [|discriminate];
      assert (WR : writes (fun s' => path_out_format (st_vi s') = pout)
                     (for_each zs b s)
                     (flat_map (fun z => flat_map (fun y =>
                        map (fun x => str_format pout (x / p2 (trev cout))
                                        (y / p1 (trev cout)) (z / p0 (trev cout))) xs) ys)
                        zs))
  end.
  { apply (writes_for_each (fun s' => path_out_format (st_vi s') = pout)).
    - intros z s Hs. apply writes_z_body; assumption.
    - reflexivity. }
  destruct (WR _ _ _ F) as (_ & ps & M & W').
  unfold ret in E. injection E as <-.
  rewrite W', L1, map_app, M. f_equal.
  change (p2 (trev cout)) with (p0 cout). change (p1 (trev cout)) with (p1 cout).
  change (p0 (trev cout)) with (p2 cout).
  apply (grid_of_ranges (str_format pout) _ _ _ _ _ _ _ _ _ Mx My Mz).
Qed.

Lemma convert_chunked_volume_writes_grid_witness :
  exists w',
    convert_chunked_volume format_plain "in/x{}y{}z{}.raw" (T3 2 2 2) "in/x0y0z0.raw"
      "mid/x{}y{}z{}.raw" (T3 1 1 1) 1 (W disk_cube []) = (Ok tt, w')
    /\ map Some (written (log w'))
       = map (file_path format_plain "mid/x{}y{}z{}.raw") (grid_files 2 2 2).
Proof.
  destruct (convert_chunked_volume format_plain "in/x{}y{}z{}.raw" (T3 2 2 2)
              "in/x0y0z0.raw" "mid/x{}y{}z{}.raw" (T3 1 1 1) 1 (W disk_cube []))
    as [[[]|e] w'] eqn:E.
  - exists w'. split; [reflexivity|].
    apply (convert_chunked_volume_writes_grid format_plain "in/x{}y{}z{}.raw"
             (T3 2 2 2) "in/x0y0z0.raw" "mid/x{}y{}z{}.raw" (T3 1 1 1) 1
             (W disk_cube []) (T3 2 2 2)
             (W disk_cube [EvRead "in/x0y0z0.raw"%string]) w');
      [reflexivity | reflexivity | reflexivity | reflexivity | exact E].
  - exfalso. vm_compute in E. discriminate.
Defined.

(** X15.  [write_chunked_volume], when it returns, has called [write_volume]
    once for every cell of the grid of chunks and for nothing else, [x]
    fastest and [z] slowest, each time with the path that [path_out_format]
    gives for the cell; [chunk_size] is read in the order of the axes of the
    array.  The calls need not name different files: the guard admits one
    format key only, and cells whose first index is the same get the same
    path. *)
Theorem write_chunked_volume_writes_grid str_format volume pout cs w w' :
  0 < p0 cs -> 0 < p1 cs -> 0 < p2 cs ->
  write_chunked_volume str_format volume pout cs w = (Ok tt, w') ->
  map Some (written (log w'))
  = map Some (written (log w))
    ++ map (file_path str_format pout)
         (grid_files (cells (p2 (shape volume)) (p2 cs))
            (cells (p1 (shape volume)) (p1 cs))
            (cells (p0 (shape volume)) (p0 cs))).
Proof.
  intros C0 C1 C2 E.
  destruct (py_range_cells (p2 (shape volume)) (p2 cs) C2) as (xs & Rx & Mx).
  destruct (py_range_cells (p1 (shape volume)) (p1 cs) C1) as (ys & Ry & My).
  destruct (py_range_cells (p0 (shape volume)) (p0 cs) C0) as (zs & Rz & Mz).
  assert (WR : writes (fun _ : unit => True)
                 (write_chunked_volume str_format volume pout cs)
                 (flat_map (fun z => flat_map (fun y =>
                    map (fun x => str_format pout (x / p2 cs) (y / p1 cs) (z / p0 cs))
                      xs) ys) zs)).
  { unfold write_chunked_volume.
    apply writes_bind_lift. intros n _.
    destruct (negb _); [intros ? ? ? X; discriminate|].
    apply writes_bind_lift. intros zs' R. rewrite Rz in R. injection R as <-.
    apply (writes_for_each (fun _ : unit => True)); [|trivial].
    intros z [] _.
    apply writes_bind_lift. intros ys' R. rewrite Ry in R. injection R as <-.
    apply (writes_for_each (fun _ : unit => True)); [|trivial].
    intros y [] _.
    apply writes_bind_lift. intros xs' R. rewrite Rx in R. injection R as <-.
    rewrite <- flat_map_single.
    apply (writes_for_each (fun _ : unit => True)); [|trivial].
    intros x [] _.
    apply writes_bind_lift. intros q _.
    apply writes_bind_lift. intros path F.
    unfold formatted in F.
    destruct (str_format pout _ _ _) as [q'|]; [|discriminate].
    injection F as ->. apply writes_write_volume. }
  destruct (WR _ _ _ E) as (_ & ps & M & ->).
  rewrite map_app, M. f_equal.
  apply (grid_of_ranges (str_format pout) _ _ _ _ _ _ _ _ _ Mx My Mz).
Qed.

Lemma write_chunked_volume_writes_grid_witness :
  exists w',
    write_chunked_volume format_plain cube "out/x{}.raw" (T3 1 1 2) (W [] [])
    = (Ok tt, w')
    /\ map Some (written (log w'))
       = map (file_path format_plain "out/x{}.raw") (grid_files 1 2 2).
Proof.
  destruct (write_chunked_volume format_plain cube "out/x{}.raw" (T3 1 1 2) (W [] []))
    as [[[]|e] w'] eqn:E.
  - exists w'. split; [reflexivity|].
    apply (write_chunked_volume_writes_grid format_plain cube "out/x{}.raw"
             (T3 1 1 2) (W [] []) w');
      [reflexivity | reflexivity | reflexivity | exact E].
  - exfalso. vm_compute in E. discriminate.
Defined.

(** The four chunks of the cube cut along its axes 0 and 1 are written to
    one path, one over the other. *)
Lemma write_chunked_volume_shares_a_path :
  let r := run (write_chunked_volume format_plain cube "out/x{}.raw" (T3 1 1 2)) [] in
  fst r = Ok tt
  /\ written (log (snd r)) = ["out/x0.raw"; "out/x0.raw"; "out/x0.raw"; "out/x0.raw"]
  /\ map fst (disk (snd r)) = ["out/x0.raw"; "out/x0.raw"; "out/x0.raw"; "out/x0.raw"]
  /\ file_view (snd r) "out/x0.raw" = Some (T3 1 1 2, [[[Some 6; Some 7]]]).
Proof. vm_compute. repeat split. Qed.

(** ** Format keys *)

Lemma pscan_text acc p :
  brace_free p = true ->
  exists l, pscan (InLiteral acc) p = Ok l /\ keys l = 0%nat.
Proof.
  revert acc. induction p as [|c r IH]; intros acc B.
  - cbn. destruct acc; eexists; split; reflexivity.
  - cbn [brace_free] in B. apply andb_prop in B. destruct B as [B1 B2].
    apply negb_true_iff in B1. cbn [pscan pstep]. rewrite B1.
    destruct (IH (snoc acc c) B2) as (l & -> & K). exists l. split; [reflexivity|exact K].
Qed.

Lemma pscan_skip acc p s :
  brace_free p = true ->
  exists acc', pscan (InLiteral acc) (p ++ s) = pscan (InLiteral acc') s.
Proof.
  revert acc. induction p as [|c r IH]; intros acc B.
  - exists acc. reflexivity.
  - cbn [brace_free] in B. apply andb_prop in B. destruct B as [B1 B2].
    apply negb_true_iff in B1. cbn [String.append pscan pstep]. rewrite B1.
    destruct (IH (snoc acc c) B2) as (acc' & ->). exists acc'.
    destruct (pscan (InLiteral acc') s); reflexivity.
Qed.

Lemma pscan_field acc s :
  pscan (InLiteral acc) ("{}" ++ s)
  = match pscan (InLiteral "") s with
    | Raise e => Raise e
    | Ok l => Ok (field acc "" None "" :: l)
    end.
Proof.
  cbn. destruct (pscan (InLiteral "") s); reflexivity.
Qed.

Lemma pscan_fields ps :
  forall p acc,
    brace_free p = true ->
    Forall (fun s => brace_free s = true) ps ->
    exists l,
      pscan (InLiteral acc) (String.concat "{}" (p :: ps)) = Ok l
      /\ keys l = List.length ps.
Proof.
  induction ps as [|q qs IH]; intros p acc B F.
  - cbn [String.concat]. apply pscan_text. exact B.
  - change (String.concat "{}" (p :: q :: qs))
      with (p ++ "{}" ++ String.concat "{}" (q :: qs))%string.
    destruct (pscan_skip acc p ("{}" ++ String.concat "{}" (q :: qs)) B)
      as (acc' & ->).
    rewrite pscan_field.
    inversion F as [|? ? Bq Fq]; subst.
    destruct (IH q EmptyString Bq Fq) as (l & -> & K).
    eexists. split; [reflexivity|]. unfold keys in *. cbn. rewrite K. reflexivity.
Qed.

(** X16.  A path pattern made of pieces without braces with [{}] between them
    has one format key less than it has pieces. *)
Theorem get_format_key_count_fields pieces :
  pieces <> [] ->
  Forall (fun s => brace_free s = true) pieces ->
  get_format_key_count (String.concat "{}" pieces)
  = Ok (Z.of_nat (List.length pieces) - 1).
Proof.
  intros N F. destruct pieces as [|p ps]; [contradiction|].
  inversion F as [|? ? Bp Fp]; subst.
  destruct (pscan_fields ps p EmptyString Bp Fp) as (l & E & K).
  unfold get_format_key_count, formatter_parse. rewrite E.
  f_equal. fold (keys l). rewrite K. cbn [List.length]. lia.
Qed.

Lemma get_format_key_count_fields_witness :
  get_format_key_count (String.concat "{}" ["out/x"; "y"; "z"; ".raw"]%string)
  = Ok (Z.of_nat (List.length ["out/x"; "y"; "z"; ".raw"]%string) - 1).
Proof.
  apply (get_format_key_count_fields ["out/x"; "y"; "z"; ".raw"]%string).
  - discriminate.
  - repeat constructor.
Defined.

(** ** Axis orders *)

Lemma length3 (s : string) :
  String.length s = 3%nat ->
  exists a b c, s = String a (String b (String c EmptyString)).
Proof.
  destruct s as [|a [|b [|c [|d r]]]]; cbn; try discriminate.
  intros _. exists a, b, c. reflexivity.
Qed.

Lemma check_if_valid_axis_permutation_inr axis_order r :
  check_if_valid_axis_permutation axis_order = inr r ->
  r = lower axis_order /\ In r axis_orders.
Proof.
  unfold check_if_valid_axis_permutation.
  destruct (negb (String.length (lower axis_order) =? 3)%nat) eqn:L; [discriminate|].
  cbn [orb].
  destruct (negb (contains _ _ && _ && _)) eqn:C; [discriminate|].
  intros E. injection E as <-.
  split; [reflexivity|].
  apply negb_false_iff in L, C. apply Nat.eqb_eq in L.
  destruct (length3 _ L) as (a & b & c & E3). rewrite E3 in *. clear E3 L.
  cbn [contains] in C. rewrite !orb_false_r in C.
  apply andb_prop in C. destruct C as [C Cz].
  apply andb_prop in C. destruct C as [Cx Cy].
  repeat match goal with
         | H : (_ || _)%bool = true |- _ => apply orb_prop in H; destruct H as [H|H]
         end;
    repeat match goal with
           | H : Ascii.eqb _ _ = true |- _ => apply Ascii.eqb_eq in H
           end;
    subst; try discriminate; cbn; tauto.
Qed.

Lemma check_if_valid_axis_permutation_order axis_order :
  In (lower axis_order) axis_orders ->
  check_if_valid_axis_permutation axis_order = inr (lower axis_order).
Proof.
  intros I. unfold check_if_valid_axis_permutation. cbn in I.
  repeat (destruct I as [I|I]); try contradiction; rewrite <- I; reflexivity.
Qed.

(** X17.  [check_if_valid_axis_permutation] returns for the six orders of [x],
    [y] and [z], in capitals or not, and for nothing else; what it returns is
    the order in lower case. *)
Theorem check_if_valid_axis_permutation_iff axis_order r :
  check_if_valid_axis_permutation axis_order = inr r
  <-> r = lower axis_order /\ In r axis_orders.
Proof.
  split.
  - apply check_if_valid_axis_permutation_inr.
  - intros [-> I]. apply check_if_valid_axis_permutation_order. exact I.
Qed.

(** ** [reshape_memory_order] *)

(** The place of a cell in the layout determines the cell. *)
Lemma unravel_ravel s i j k :
  inside s i j k ->
  ravel s i j k / (p1 s * p2 s) = i
  /\ (ravel s i j k / p2 s) mod p1 s = j
  /\ ravel s i j k mod p2 s = k.
Proof.
  unfold inside, ravel. intros (Hi & Hj & Hk).
  assert (D : ((i * p1 s + j) * p2 s + k) / p2 s = i * p1 s + j).
  { rewrite Z.div_add_l by lia. rewrite Z.div_small by lia. lia. }
  split; [|split].
  - rewrite (Z.mul_comm (p1 s)), <- Z.div_div by lia. rewrite D.
    rewrite Z.div_add_l by lia. rewrite Z.div_small by lia. lia.
  - rewrite D. rewrite Z.add_comm, Z.mod_add by lia. apply Z.mod_small. lia.
  - rewrite Z.add_comm, Z.mod_add by lia. apply Z.mod_small. lia.
Qed.

Lemma ravel_unravel s t n :
  0 < p1 s -> 0 < p2 s -> 0 < p1 t -> 0 < p2 t -> 0 <= n < size3 s ->
  inside s (n / (p1 s * p2 s)) ((n / p2 s) mod p1 s) (n mod p2 s)
  /\ ravel s (n / (p1 s * p2 s)) ((n / p2 s) mod p1 s) (n mod p2 s) = n.
Proof.
  intros H1 H2 _ _ Hn. unfold size3 in Hn.
  assert (Q : n / (p1 s * p2 s) = n / p2 s / p1 s).
  { rewrite (Z.mul_comm (p1 s)), Z.div_div by lia. reflexivity. }
  pose proof (Z.div_mod n (p2 s) ltac:(lia)) as E2.
  pose proof (Z.div_mod (n / p2 s) (p1 s) ltac:(lia)) as E1.
  pose proof (Z.mod_pos_bound n (p2 s) H2) as B2.
  pose proof (Z.mod_pos_bound (n / p2 s) (p1 s) H1) as B1.
  assert (P : 0 <= n / p2 s) by (apply Z.div_pos; lia).
  assert (P' : 0 <= n / p2 s / p1 s) by (apply Z.div_pos; lia).
  split.
  - unfold inside. rewrite Q. repeat split; try lia.
    apply Z.div_lt_upper_bound; [lia|].
    apply Z.div_lt_upper_bound; [lia|]. nia.
  - unfold ravel. rewrite Q. nia.
Qed.

Ltac conv_step :=
  match goal with
  | H : cbind ?r _ = inr _ |- _ =>
      let E := fresh "E" in
      destruct r eqn:E; cbn [cbind] in H; [discriminate|]
  | H : (if ?b then _ else _) = inr _ |- _ =>
      let E := fresh "E" in destruct b eqn:E
  end.

(** X18.  [reshape_memory_order] moves no cell: the cell of the result and the
    cell of the argument that have the same place in the layout hold the same
    value. *)
Theorem reshape_memory_order_keeps_layout volume from_order to_order v'
    i j k i' j' k' :
  reshape_memory_order volume from_order to_order = inr v' ->
  inside (shape volume) i j k ->
  inside (shape v') i' j' k' ->
  ravel (shape v') i' j' k' = ravel (shape volume) i j k ->
  item v' i' j' k' = item volume i j k.
Proof.
  unfold reshape_memory_order. intros H I I' R.
  do 3 conv_step.
  - injection H as <-.
    destruct (unravel_ravel _ _ _ _ I) as (A1 & B1 & C1).
    destruct (unravel_ravel _ _ _ _ I') as (A & B & C).
    rewrite R in A, B, C. congruence.
  - repeat conv_step. unfold nd_reshape in H.
    destruct (_ =? _); [|discriminate]. injection H as <-.
    cbn [item shape] in *. rewrite R.
    destruct (unravel_ravel _ _ _ _ I) as (-> & -> & ->). reflexivity.
Qed.

Lemma nd_reshape_shape v s v1 : nd_reshape v s = inr v1 -> shape v1 = s.
Proof.
  unfold nd_reshape. destruct (_ =? _); [|discriminate].
  intros H. injection H as <-. reflexivity.
Qed.

(** Reshaping to a shape and back to the shape of the array. *)
Lemma nd_reshape_round v s v1 :
  nd_reshape v s = inr v1 ->
  exists v2,
    nd_reshape v1 (shape v) = inr v2
    /\ shape v2 = shape v
    /\ (0 < p1 s -> 0 < p2 s ->
        forall i j k, inside (shape v) i j k -> item v2 i j k = item v i j k).
Proof.
  unfold nd_reshape. destruct (size3 s =? size3 (shape v)) eqn:E; [|discriminate].
  intros H. injection H as <-. cbn [shape].
  apply Z.eqb_eq in E. rewrite <- E, Z.eqb_refl.
  eexists. split; [reflexivity|]. split; [reflexivity|].
  intros S1 S2 i j k I. cbn [item shape].
  assert (N : 0 <= ravel (shape v) i j k < size3 s).
  { rewrite E. unfold inside in I. unfold ravel, size3.
    destruct I as (Hi & Hj & Hk).
    assert (A : i * p1 (shape v) + j <= p0 (shape v) * p1 (shape v) - 1) by nia.
    assert (B : 0 <= i * p1 (shape v) + j) by nia.
    split; [nia|].
    assert (X : (i * p1 (shape v) + j) * p2 (shape v)
                <= (p0 (shape v) * p1 (shape v) - 1) * p2 (shape v)).
    { apply Z.mul_le_mono_nonneg_r; lia. }
    lia. }
  destruct (ravel_unravel s s _ S1 S2 S1 S2 N) as (_ & ->).
  destruct (unravel_ravel _ _ _ _ I) as (-> & -> & ->). reflexivity.
Qed.

Ltac six I := cbn in I; repeat (destruct I as [I|I]); try contradiction.

(** X19.  Turning an array from one order of the axes to another and back
    gives the array: the shape and every cell. *)
Theorem reshape_memory_order_round_trip volume from_order to_order v1 :
  reshape_memory_order volume from_order to_order = inr v1 ->
  exists v2,
    reshape_memory_order v1 to_order from_order = inr v2
    /\ shape v2 = shape volume
    /\ forall i j k, inside (shape volume) i j k -> item v2 i j k = item volume i j k.
Proof.
  unfold reshape_memory_order. intros H.
  destruct (check_if_valid_axis_permutation from_order) as [|a] eqn:Ea;
    [discriminate|].
  destruct (check_if_valid_axis_permutation to_order) as [|b] eqn:Eb;
    [discriminate|].
  cbn [cbind] in *.
  apply check_if_valid_axis_permutation_inr in Ea, Eb.
  destruct Ea as [-> Ia]. destruct Eb as [-> Ib].
  destruct volume as [[s0 s1 s2] f].
  six Ia; six Ib; rewrite <- Ia, <- Ib in *;
    cbn -[nd_reshape] in H |- *;
    try (injection H as <-; eexists; split; [reflexivity|];
         split; [reflexivity|]; reflexivity);
    pose proof (nd_reshape_shape _ _ _ H) as S; rewrite S; cbn [p0 p1 p2];
    destruct (nd_reshape_round _ _ _ H) as (v2 & R & S2 & C);
    exists v2; (split; [exact R|]); (split; [exact S2|]);
    intros i j k I; apply C; try exact I; unfold inside in I; cbn in *; lia.
Qed.

(** X20.  [reshape_memory_order] gives every axis, found by its letter, the
    extent it had. *)
Theorem reshape_memory_order_extents volume from_order to_order v' c :
  reshape_memory_order volume from_order to_order = inr v' ->
  In c ["x"; "y"; "z"]%char ->
  exists n,
    extent volume (lower from_order) c = inr n
    /\ extent v' (lower to_order) c = inr n.
Proof.
  unfold reshape_memory_order. intros H Ic.
  destruct (check_if_valid_axis_permutation from_order) as [|a] eqn:Ea;
    [discriminate|].
  destruct (check_if_valid_axis_permutation to_order) as [|b] eqn:Eb;
    [discriminate|].
  cbn [cbind] in *.
  apply check_if_valid_axis_permutation_inr in Ea, Eb.
  destruct Ea as [-> Ia]. destruct Eb as [-> Ib].
  destruct volume as [[s0 s1 s2] f]. unfold extent.
  six Ia; six Ib; rewrite <- Ia, <- Ib in *;
    cbn -[nd_reshape] in H;
    try (injection H as <-);
    try (apply nd_reshape_shape in H; rewrite H);
    six Ic; subst c; cbn; eexists; split; reflexivity.
Qed.

Lemma reshape_memory_order_keeps_layout_witness :
  exists v',
    reshape_memory_order slab "zyx" "xyz" = inr v'
    /\ item v' 2 1 0 = item slab 0 1 2.
Proof.
  destruct (reshape_memory_order slab "zyx" "xyz") as [e|v'] eqn:E.
  - exfalso. vm_compute in E. discriminate.
  - exists v'. split; [reflexivity|].
    apply (reshape_memory_order_keeps_layout slab "zyx" "xyz" v' 0 1 2 2 1 0 E).
    + unfold inside. cbn. lia.
    + assert (S : shape v' = T3 3 2 1).
      { vm_compute in E. injection E as <-. reflexivity. }
      rewrite S. unfold inside. cbn. lia.
    + assert (S : shape v' = T3 3 2 1).
      { vm_compute in E. injection E as <-. reflexivity. }
      rewrite S. reflexivity.
Defined.

Lemma reshape_memory_order_round_trip_witness :
  exists v1 v2,
    reshape_memory_order slab "zyx" "yxz" = inr v1
    /\ reshape_memory_order v1 "yxz" "zyx" = inr v2
    /\ shape v2 = shape slab
    /\ forall i j k, inside (shape slab) i j k -> item v2 i j k = item slab i j k.
Proof.
  destruct (reshape_memory_order slab "zyx" "yxz") as [e|v1] eqn:E.
  - exfalso. vm_compute in E. discriminate.
  - destruct (reshape_memory_order_round_trip slab "zyx" "yxz" v1 E) as (v2 & R).
    exists v1, v2. split; [reflexivity|exact R].
Defined.

Lemma reshape_memory_order_extents_witness :
  exists v' n,
    reshape_memory_order slab "zyx" "yxz" = inr v'
    /\ extent slab (lower "zyx") "x" = inr n
    /\ extent v' (lower "yxz") "x" = inr n.
Proof.
  destruct (reshape_memory_order slab "zyx" "yxz") as [e|v'] eqn:E.
  - exfalso. vm_compute in E. discriminate.
  - destruct (reshape_memory_order_extents slab "zyx" "yxz" v' "x" E) as (n & R).
    + left. reflexivity.
    + exists v', n. split; [reflexivity|exact R].
Defined.

(** ** The choice of writer and reader *)

Lemma strings_eqb_eq a b : strings_eqb a b = true -> a = b.
Proof.
  revert b. induction a as [|x a IH]; intros [|y b]; cbn; try discriminate.
  - reflexivity.
  - intros H. apply andb_prop in H. destruct H as [H1 H2].
    apply String.eqb_eq in H1. apply IH in H2. congruence.
Qed.

Lemma tail2_two (l : list string) :
  (1 < List.length l)%nat -> tail2 l = [last2 l; last1 l].
Proof.
  unfold tail2, last2, last1.
  induction l as [|a [|b [|c r]] IH]; cbn [List.length]; intros H; try lia.
  - reflexivity.
  - specialize (IH ltac:(cbn [List.length]; lia)).
    cbn [List.length] in IH.
    replace (S (S (S (List.length r))) - 2)%nat with (S (List.length r)) by lia.
    replace (S (S (List.length r)) - 2)%nat with (List.length r) in IH by lia.
    cbn [skipn nth]. rewrite IH. reflexivity.
Qed.

(** The suffixes of some paths. *)
Lemma path_suffixes_examples :
  map path_suffixes
    ["in/x0y0z0.raw"; "a.tar.gz"; "a.b/c"; "a.b/"; "a.b/."; ".bashrc"; ".a.b";
     "a."; "a..b"; ".."; "x.raw/.."; "/"; ""; "v.NII.gz"]%string
  = [[".raw"]; [".tar"; ".gz"]; []; [".b"]; [".b"]; []; [".b"];
     []; ["."; ".b"]; []; []; []; []; [".NII"; ".gz"]]%string.
Proof. vm_compute. reflexivity. Qed.

(** [write_volume] as [convert_chunked_volume] calls it raises and returns as
    [write_volume] of [converter.py] does on a volume in the order [zyx] that
    is not to be compressed. *)
Lemma write_volume_follows_calls v path w :
  fst (write_volume v path w)
  = match snd (write_volume_calls v path (path_suffixes path) "zyx" false) with
    | inl e => Raise (ConverterError e)
    | inr _ => Ok tt
    end.
Proof.
  unfold write_volume, write_volume_calls.
  change (reshape_memory_order v "zyx" "zyx") with (@inr converter_exn _ v).
  destruct (List.length (map lower (path_suffixes path)) =? 0)%nat; [reflexivity|].
  destruct (select_writer (map lower (path_suffixes path))) as [wr|]; [|reflexivity].
  destruct (run_writer wr path); reflexivity.
Qed.

(** What [read_volume] does when it takes the file for a compressed one. *)
Lemma read_volume_calls_gz path suffixes input_axis_order decoded :
  suffixes <> [] ->
  last1 (map lower suffixes) = ".gz"%string ->
  (1 < List.length suffixes)%nat ->
  last2 (map lower suffixes) <> ".nii"%string ->
  read_volume_calls path suffixes input_axis_order decoded
  = ([CopyFromGzip],
     inl (if String.eqb (last1 suffixes) ".gz"
          then UnknownExtension (String.concat EmptyString (map lower suffixes))
          else GzipSuffixError)).
Proof.
  intros N L1 Len L2. unfold read_volume_calls.
  assert (Len' : (1 < List.length (map lower suffixes))%nat)
    by (rewrite length_map; exact Len).
  destruct (List.length (map lower suffixes) =? 0)%nat eqn:E0;
    [apply Nat.eqb_eq in E0; lia|].
  assert (S : select_reader (map lower suffixes) = None).
  { unfold select_reader. rewrite tail2_two by exact Len'. rewrite L1.
    cbn [strings_eqb].
    apply String.eqb_neq in L2. rewrite L2. reflexivity. }
  rewrite S, L1.
  apply String.eqb_neq in L2. rewrite L2.
  apply Nat.ltb_lt in Len'. rewrite Len'. cbn [String.eqb Ascii.eqb andb negb].
  destruct (String.eqb (last1 suffixes) ".gz"); reflexivity.
Qed.

(** X21.  [read_volume] never returns from a file that it takes for a
    compressed one: when it calls [copy_from_gzip] it calls no reader and
    raises, either in [copy_from_gzip] or, with the decompressed copy left
    where it is, for an unknown extension. *)
Theorem read_volume_never_reads_gzip path suffixes input_axis_order decoded :
  In CopyFromGzip (fst (read_volume_calls path suffixes input_axis_order decoded)) ->
  read_volume_calls path suffixes input_axis_order decoded
  = ([CopyFromGzip],
     inl (if String.eqb (last1 suffixes) ".gz"
          then UnknownExtension (String.concat EmptyString (map lower suffixes))
          else GzipSuffixError)).
Proof.
  intros I.
  destruct (String.eqb (last1 (map lower suffixes)) ".gz"
            && (1 <? List.length (map lower suffixes))%nat
            && negb (String.eqb (last2 (map lower suffixes)) ".nii")) eqn:G.
  - apply andb_prop in G. destruct G as [G G3].
    apply andb_prop in G. destruct G as [G1 G2].
    apply String.eqb_eq in G1. apply Nat.ltb_lt in G2.
    apply negb_true_iff, String.eqb_neq in G3.
    rewrite length_map in G2.
    apply read_volume_calls_gz; try assumption.
    destruct suffixes; [cbn in G2; lia|discriminate].
  - exfalso. revert I. unfold read_volume_calls.
    destruct (List.length (map lower suffixes) =? 0)%nat; [intros []|].
    rewrite G. cbn [andb].
    destruct (select_reader (map lower suffixes)) as [r|];
      [destruct (run_reader r path)|]; cbn; intuition discriminate.
Qed.

Lemma read_volume_never_reads_gzip_witness :
  read_volume_calls "v.raw.gz" [".raw"; ".gz"]%string "zyx" cube
  = ([CopyFromGzip], inl (UnknownExtension ".raw.gz")).
Proof.
  apply (read_volume_never_reads_gzip "v.raw.gz" [".raw"; ".gz"]%string "zyx" cube).
  left. reflexivity.
Defined.

Ltac writer_case H E :=
  match type of H with
  | context [if ?b then _ else _] =>
      destruct b eqn:E;
      [ try (apply orb_prop in E; destruct E as [E|E]);
        apply strings_eqb_eq in E | ]
  end.

(** The extensions for which [write_volume] has a writer. *)
Lemma select_writer_some extensions w :
  select_writer extensions = Some w ->
  In (extensions, w)
    [([".vraw"], write_vraw); ([".raw"], write_vraw); ([".nrrd"], write_nrrd);
     ([".hdf5"], write_hdf5); ([".h5"], write_hdf5);
     ([".tiff"], write_sliced_tiff); ([".png"], write_sliced_png);
     ([".npy"], write_numpy false); ([".npz"], write_numpy true);
     ([".nii"], write_nifti); ([".nii"; ".gz"], write_nifti);
     ([".vti"], write_vti)]%string.
Proof.
  unfold select_writer. intros H.
  repeat (let E := fresh "E" in
          writer_case H E; [injection H as <-; rewrite E; cbn; tauto ..|]).
  discriminate.
Qed.

(** When [write_volume] returns, it has called a writer that returned. *)
Lemma write_volume_calls_returns volume path suffixes input_axis_order apply_gzip
    calls :
  write_volume_calls volume path suffixes input_axis_order apply_gzip = (calls, inr tt) ->
  exists w v,
    reshape_memory_order volume input_axis_order "zyx" = inr v
    /\ select_writer (map lower suffixes) = Some w
    /\ run_writer w path = inr tt
    /\ calls = CallWriter w v :: (if apply_gzip then [CopyToGzip; Unlink] else []).
Proof.
  unfold write_volume_calls.
  destruct (List.length (map lower suffixes) =? 0)%nat; [discriminate|].
  destruct (reshape_memory_order volume input_axis_order "zyx") as [e|v];
    [discriminate|].
  destruct (select_writer (map lower suffixes)) as [w|] eqn:S; [|discriminate].
  destruct (run_writer w path) as [e|[]] eqn:R; [discriminate|].
  intros H. injection H as <-. exists w, v.
  repeat split; first [reflexivity | assumption].
Qed.



(** X23.  A file that [write_volume] has written and compressed, its name
    ending in [.gz] after the suffixes it had, is not read by [read_volume],
    unless it is a NIfTI file. *)
Theorem compressed_volume_is_not_read_back volume path path_gz suffixes
    input_axis_order calls decoded :
  write_volume_calls volume path suffixes input_axis_order true = (calls, inr tt) ->
  map lower suffixes <> [".nii"%string] ->
  read_volume_calls path_gz (suffixes ++ [".gz"%string]) input_axis_order decoded
  = ([CopyFromGzip],
     inl (UnknownExtension
            (String.concat EmptyString (map lower (suffixes ++ [".gz"%string]))))).
Proof.
  intros H N. apply write_volume_calls_returns in H.
  destruct H as (w & v & _ & S & _ & _).
  apply select_writer_some in S. cbn in S.
  assert (L : map lower (suffixes ++ [".gz"%string])
              = map lower suffixes ++ [".gz"%string])
    by (rewrite map_app; reflexivity).
  assert (G : last1 (suffixes ++ [".gz"%string]) = ".gz"%string).
  { unfold last1. apply last_last. }
  rewrite read_volume_calls_gz; [rewrite G; reflexivity| | | |].
  - destruct suffixes; discriminate.
  - rewrite L.
    repeat (destruct S as [S|S]); try contradiction;
      injection S as <- _; reflexivity.
  - rewrite length_app. cbn [List.length].
    assert (X : List.length suffixes <> 0%nat).
    { intros Z0. apply length_zero_iff_nil in Z0. subst suffixes.
      repeat (destruct S as [S|S]); try contradiction; discriminate. }
    lia.
  - rewrite L.
    repeat (destruct S as [S|S]); try contradiction;
      injection S as S1 _; rewrite <- S1 in *; try (cbn; discriminate);
      exfalso; apply N; reflexivity.
Qed.

Lemma compressed_volume_is_not_read_back_witness :
  read_volume_calls "v.raw.gz" ([".raw"%string] ++ [".gz"%string]) "zyx" cube
  = ([CopyFromGzip],
     inl (UnknownExtension
            (String.concat EmptyString (map lower ([".raw"%string] ++ [".gz"%string]))))).
Proof.
  apply (compressed_volume_is_not_read_back cube "v.raw" "v.raw.gz" [".raw"%string]
           "zyx" [CallWriter write_vraw cube; CopyToGzip; Unlink] cube).
  - reflexivity.
  - cbn. discriminate.
Defined.

(** X24.  Given a volume whose axes are in the order [zyx], [write_volume]
    returns only when the file type is one of [supported_formats], in
    capitals or not, and it does not return for all of them: for [tiff] the
    writer raises [NotImplementedError], and for [png] the writer raises
    unless the path has exactly one format key.  For the other supported
    formats the writer is called and [write_volume] returns. *)
Theorem write_volume_supported_formats volume path suffixes apply_gzip :
  let r := snd (write_volume_calls volume path suffixes "zyx" apply_gzip) in
  (r = inr tt -> In (map lower suffixes) (map format_suffixes supported_formats))
  /\ (map lower suffixes = [".tiff"%string] -> r = inl NotImplementedError)
  /\ (map lower suffixes = [".png"%string] ->
      get_format_key_count path <> Ok 1 ->
      r = inl (match get_format_key_count path with
               | Raise _ => KeyScanError
               | Ok _ => SlicedKeyCount
               end))
  /\ (In (map lower suffixes) (map format_suffixes supported_formats) ->
      map lower suffixes <> [".tiff"%string] ->
      map lower suffixes <> [".png"%string] ->
      r = inr tt).
Proof.
  cbv zeta. unfold write_volume_calls.
  change (reshape_memory_order volume "zyx" "zyx") with (@inr converter_exn _ volume).
  split; [|split; [|split]].
  - destruct (List.length (map lower suffixes) =? 0)%nat; [discriminate|].
    destruct (select_writer (map lower suffixes)) as [w|] eqn:S; [|discriminate].
    intros _. apply select_writer_some in S. cbn in S |- *.
    repeat (destruct S as [S|S]); try contradiction;
      injection S as <- _; tauto.
  - intros ->. reflexivity.
  - intros -> K. cbn [List.length Nat.eqb select_writer strings_eqb String.eqb
                        Ascii.eqb Bool.eqb orb andb run_writer].
    unfold one_format_key.
    destruct (get_format_key_count path) as [n|e]; [|reflexivity].
    destruct (Z.eqb_spec n 1) as [->|]; [contradiction|reflexivity].
  - intros I T P. cbn in I.
    repeat (destruct I as [I|I]); try contradiction; rewrite <- I in *;
      try reflexivity; contradiction.
Qed.

Lemma write_volume_supported_formats_witness :
  snd (write_volume_calls cube "v.tiff" [".tiff"]%string "zyx" false)
  = inl NotImplementedError.
Proof.
  apply (proj1 (proj2 (write_volume_supported_formats cube "v.tiff"
                         [".tiff"]%string false))).
  reflexivity.
Defined.
